(** * zero-to-llama: a shallow embedding of the Llama-2 inference notebook

    The notebook [zero_to_llama.ipynb] defines rotary position encoding,
    RMS normalisation, grouped-query attention with a key/value cache, the
    gated feed-forward block, and their composition into a decoder.

    Tensors are dense arrays; they are embedded as a shape together with an
    index function.  Scalars are real numbers: float32 rounding is not
    modelled, so an equality below is the exact-arithmetic counterpart of an
    equality "within floating-point tolerance".  The only non-finite value
    the code builds on purpose, the [-inf] of the causal mask, is kept as a
    separate constructor.  Python exceptions are values of [exn]; a method
    that mutates [self] returns the object as it is left behind, also when
    it raises. *)

From Stdlib Require Import Reals Lra Lia ZArith List Bool Arith PeanoNat.
From Stdlib Require Import FunctionalExtensionality.
From Stdlib Require String Ascii.
Import ListNotations.

Set Implicit Arguments.

(** ** Exceptions and results *)

(** The Python exceptions the code can raise.  [OutsideModel] is not one of
    them: it marks the one result the embedding cannot hold, that of
    [rope] with a float tensor with an infinite entry in place of the
    complex table, which has NaN and infinite values. *)
Inductive exn : Type :=
| AssertionError
| RuntimeError
| IndexError
| AttributeError
| ZeroDivisionError
| OutsideModel.

Inductive res (A : Type) : Type :=
| Ok (a : A)
| Raise (e : exn).

Arguments Ok {A} a.
Arguments Raise {A} e.

Definition bind {A B : Type} (r : res A) (k : A -> res B) : res B :=
  match r with
  | Ok a => k a
  | Raise e => Raise e
  end.

Notation "x <- r ;; k" := (bind r (fun x => k))
  (at level 61, r at next level, right associativity).

Definition is_ok {A : Type} (r : res A) : bool :=
  match r with Ok _ => true | Raise _ => false end.

(** ** Scalars *)

(** Complex numbers, as [torch.view_as_complex] pairs them: (real, imaginary). *)
Definition C : Type := (R * R)%type.

Definition cmul (a b : C) : C :=
  (fst a * fst b - snd a * snd b, fst a * snd b + snd a * fst b)%R.

(** [torch.polar(abs, angle)]. *)
Definition polar (ab angle : R) : C := (ab * cos angle, ab * sin angle)%R.

Definition cnorm2 (a : C) : R := (fst a * fst a + snd a * snd a)%R.

(** A float that is either finite or [float("-inf")]. *)
Inductive xreal : Type :=
| Fin (r : R)
| NegInf.

Definition xadd (a : R) (m : xreal) : xreal :=
  match m with
  | Fin r => Fin (a + r)
  | NegInf => NegInf
  end.

Definition xexp (x : xreal) : R :=
  match x with
  | Fin r => exp r
  | NegInf => 0%R
  end.

(** Sum of [f 0 .. f (n-1)]. *)
Fixpoint rsum (n : nat) (f : nat -> R) : R :=
  match n with
  | O => 0%R
  | S k => (rsum k f + f k)%R
  end.

(** ** Tensors *)

Record Tensor2 (A : Type) : Type := mkT2
  { rows : nat; cols : nat; at2 : nat -> nat -> A }.

Record Tensor3 (A : Type) : Type := mkT3
  { d3_0 : nat; d3_1 : nat; d3_2 : nat; at3 : nat -> nat -> nat -> A }.

Record Tensor4 (A : Type) : Type := mkT4
  { d4_0 : nat; d4_1 : nat; d4_2 : nat; d4_3 : nat;
    at4 : nat -> nat -> nat -> nat -> A }.

(** What a Python variable holding "a mask or the rotary table or None" can
    be bound to.  The notebook passes these positionally, so the same
    parameter receives values of either kind. *)
Inductive pyval : Type :=
| PyNone
| PyFloat (m : Tensor2 xreal)
| PyComplex (f : Tensor2 C).

(** Broadcasting of one dimension: equal extents, or one of them is 1. *)
Definition bdim (a b : nat) : option nat :=
  if a =? b then Some a
  else if a =? 1 then Some b
  else if b =? 1 then Some a
  else None.

(** Index into an operand of extent [size] under broadcasting. *)
Definition bidx (size i : nat) : nat := if size =? 1 then 0 else i.

(** [src.expand(...)]: an extent of 1 stretches to any extent, also to 0. *)
Definition expandable (src dst : nat) : bool := (src =? dst) || (src =? 1).

(** [x.view(B, T, n, h)] on a (B, T, n*h) tensor. *)
Definition view_heads (x : Tensor3 R) (n h : nat) : Tensor4 R :=
  mkT4 (d3_0 x) (d3_1 x) n h (fun b t hd i => at3 x b t (hd * h + i)).

(** [x.transpose(1, 2)]. *)
Definition transpose12 {A : Type} (x : Tensor4 A) : Tensor4 A :=
  mkT4 (d4_0 x) (d4_2 x) (d4_1 x) (d4_3 x) (fun b h t i => at4 x b t h i).

(** [x.transpose(-2, -1)]. *)
Definition transpose_last {A : Type} (x : Tensor4 A) : Tensor4 A :=
  mkT4 (d4_0 x) (d4_1 x) (d4_3 x) (d4_2 x) (fun b h i j => at4 x b h j i).

(** [torch.matmul] on rank-4 operands: matrix product over the last two
    dimensions, the two leading ones broadcast. *)
Definition matmul (a b : Tensor4 R) : res (Tensor4 R) :=
  if negb (d4_3 a =? d4_2 b) then Raise RuntimeError
  else
    match bdim (d4_0 a) (d4_0 b), bdim (d4_1 a) (d4_1 b) with
    | Some n0, Some n1 =>
        Ok (mkT4 n0 n1 (d4_2 a) (d4_3 b)
              (fun i0 i1 r c =>
                 rsum (d4_3 a)
                   (fun l =>
                      at4 a (bidx (d4_0 a) i0) (bidx (d4_1 a) i1) r l *
                      at4 b (bidx (d4_0 b) i0) (bidx (d4_1 b) i1) l c)%R))
    | _, _ => Raise RuntimeError
    end.

(** [x * c] for a Python float [c]. *)
Definition scale (x : Tensor4 R) (c : R) : Tensor4 R :=
  mkT4 (d4_0 x) (d4_1 x) (d4_2 x) (d4_3 x)
    (fun b h t j => (at4 x b h t j * c)%R).

(** [F.softmax(x, dim=-1)]; [exp(-inf)] is 0.  A row holding only [-inf]
    is NaN in torch and is outside this model. *)
Definition softmax (x : Tensor4 xreal) : Tensor4 R :=
  mkT4 (d4_0 x) (d4_1 x) (d4_2 x) (d4_3 x)
    (fun b h t j =>
       (xexp (at4 x b h t j) / rsum (d4_3 x) (fun k => xexp (at4 x b h t k)))%R).

(** [x.view(B, T, D)] on a contiguous rank-4 tensor: the same row-major
    sequence of elements, read with the new shape. *)
Definition view3 (x : Tensor4 R) (B T D : nat) : res (Tensor3 R) :=
  if d4_0 x * d4_1 x * d4_2 x * d4_3 x =? B * T * D then
    Ok (mkT3 B T D
          (fun b t d =>
             let f := (b * T + t) * D + d in
             at4 x (f / (d4_3 x * d4_2 x * d4_1 x))
                   ((f / (d4_3 x * d4_2 x)) mod d4_1 x)
                   ((f / d4_3 x) mod d4_2 x)
                   (f mod d4_3 x)))
  else Raise RuntimeError.

(** [cache[:B, start:stop] = src]: the slice bounds are clamped to the
    extents of [cache], [src] is expanded to the shape of the slice, and
    the elements of the slice are overwritten in place. *)
Definition slice_assign (cache : Tensor4 R) (B start stop : nat)
    (src : Tensor4 R) : res (Tensor4 R) :=
  let n0 := Nat.min B (d4_0 cache) in
  let lo := Nat.min start (d4_1 cache) in
  let hi := Nat.min stop (d4_1 cache) in
  if expandable (d4_0 src) n0 && expandable (d4_1 src) (hi - lo) &&
     expandable (d4_2 src) (d4_2 cache) && expandable (d4_3 src) (d4_3 cache)
  then
    Ok (mkT4 (d4_0 cache) (d4_1 cache) (d4_2 cache) (d4_3 cache)
          (fun b j hd i =>
             if (b <? n0) && (lo <=? j) && (j <? hi) then
               at4 src (bidx (d4_0 src) b) (bidx (d4_1 src) (j - lo))
                       (bidx (d4_2 src) hd) (bidx (d4_3 src) i)
             else at4 cache b j hd i))
  else Raise RuntimeError.

(** [cache[:B, :stop]]. *)
Definition slice_read {A : Type} (cache : Tensor4 A) (B stop : nat) : Tensor4 A :=
  mkT4 (Nat.min B (d4_0 cache)) (Nat.min stop (d4_1 cache))
       (d4_2 cache) (d4_3 cache) (at4 cache).

(** [t[start:stop]] on the rows of a rank-2 tensor. *)
Definition slice_rows {A : Type} (t : Tensor2 A) (start stop : nat) : Tensor2 A :=
  let lo := Nat.min start (rows t) in
  let hi := Nat.min stop (rows t) in
  mkT2 (hi - lo) (cols t) (fun r c => at2 t (lo + r) c).

(** ** Configuration *)

Module Args.
Record t : Type := mk
  { dim : nat;
    n_layers : nat;
    n_heads : nat;
    n_kv_heads : option nat;
    vocab_size : nat;
    multiple_of : nat;
    ffn_dim_multiplier : option nat;
    norm_eps : R;
    batch_size : nat;
    seq_len : nat }.
End Args.

(** ** Rotary position encoding *)

(** [precomputed_freqs(dim, seqlen, device, theta)]: row [m], column [i]
    holds the unit complex number of angle [m / theta^(2i/dim)]. *)
Definition precomputed_freqs (dim seqlen : nat) (theta : R) : res (Tensor2 C) :=
  if negb (dim mod 2 =? 0) then Raise AssertionError
  else
    Ok (mkT2 seqlen (dim / 2)
          (fun m i =>
             let I := INR (2 * i) in
             let th := (1 / Rpower theta (I / INR dim))%R in
             polar 1 (INR m * th)%R)).

(** One element of [view_as_real(view_as_complex(x) * freqs)]: the pair
    (2j, 2j+1) of the last dimension is one complex number, multiplied by
    the factor of its position and pair index [j]. *)
Definition rotated (x : Tensor4 R) (f : Tensor2 C) (b p hd i : nat) : R :=
  let xc := (at4 x b p hd (2 * (i / 2)), at4 x b p hd (2 * (i / 2) + 1)) in
  let r := cmul xc (at2 f (bidx (rows f) p) (bidx (cols f) (i / 2))) in
  if Nat.even i then fst r else snd r.

(** One element of [view_as_real(view_as_complex(x) * freqs)] when
    [freqs] is a real tensor with finite entries: both halves of a pair
    are scaled by the entry of its position and pair index. *)
Definition fin_val (v : xreal) : R :=
  match v with Fin r => r | NegInf => 0%R end.

Definition scaled (x : Tensor4 R) (m : Tensor2 xreal) (b p hd i : nat) : R :=
  (at4 x b p hd i * fin_val (at2 m (bidx (rows m) p) (bidx (cols m) (i / 2))))%R.

(** Whether the entries of [m] that meet the (T, c) pairs of a tensor are
    all finite. *)
Definition all_finite (m : Tensor2 xreal) (T c : nat) : bool :=
  forallb
    (fun p =>
       forallb
         (fun j =>
            match at2 m (bidx (rows m) p) (bidx (cols m) j) with
            | Fin _ => true
            | NegInf => false
            end)
         (seq 0 c))
    (seq 0 T).

(** [rope(x, freqs)] for [x] of shape (B, T, n, h).  The reshape of [x]
    comes first; [freqs] is looked at after it. *)
Definition rope (x : Tensor4 R) (freqs : pyval) : res (Tensor4 R) :=
  let B := d4_0 x in
  let T := d4_1 x in
  let n := d4_2 x in
  let h := d4_3 x in
  (* x.reshape(.., -1, 2) keeps the leading extents: the inferred one
     is ambiguous when their product is 0, and h must be even otherwise *)
  if B * T * n =? 0 then Raise RuntimeError
  else if negb (Nat.even h) then Raise RuntimeError
  else
    match freqs with
    | PyNone =>
        (* None has no unsqueeze *)
        Raise AttributeError
    | PyFloat m =>
        (* a real tensor is promoted: x_cmplx * freqs scales both halves;
           an infinite entry would leave infinite or NaN values *)
        match bdim T (rows m), bdim (h / 2) (cols m) with
        | Some T', Some c' =>
            if B * T' * n * (c' * 2) =? B * T * n * h
            then
              if all_finite m T (h / 2)
              then Ok (mkT4 B T n h (scaled x m))
              else Raise OutsideModel
            else Raise RuntimeError
        | _, _ => Raise RuntimeError
        end
    | PyComplex f =>
        (* x_cmplx * freqs.unsqueeze(0).unsqueeze(2) *)
        match bdim T (rows f), bdim (h / 2) (cols f) with
        | Some T', Some c' =>
            (* torch.view_as_real(x_rotated), reshaped to the shape of x *)
            if B * T' * n * (c' * 2) =? B * T * n * h
            then Ok (mkT4 B T n h (rotated x f))
            else Raise RuntimeError
        | _, _ => Raise RuntimeError
        end
    end.

(** [rep_tensor(x, n_rep)]: [torch.repeat_interleave] along the head
    dimension. *)
Definition rep_tensor (x : Tensor4 R) (n_rep : nat) : Tensor4 R :=
  if n_rep =? 1 then x
  else
    mkT4 (d4_0 x) (d4_1 x) (d4_2 x * n_rep) (d4_3 x)
      (fun b j hd i => at4 x b j (hd / n_rep) i).

(** ** Linear layers *)

Module Linear.
(** An [nn.LazyLinear(out_features, bias=False)] once its weight exists
    (the notebook loads a checkpoint before any call); [weight] has shape
    (out_features, in_features).  The constructors below give each layer
    the input width its call site feeds it. *)
Record t : Type := mk
  { in_features : nat; out_features : nat; weight : nat -> nat -> R }.

Definition forward (self : t) (x : Tensor3 R) : res (Tensor3 R) :=
  if negb (d3_2 x =? in_features self) then Raise RuntimeError
  else
    Ok (mkT3 (d3_0 x) (d3_1 x) (out_features self)
          (fun b p o =>
             rsum (in_features self)
               (fun d => (at3 x b p d * weight self o d)%R))).
End Linear.

(** ** RMSNorm *)

Module RMSNorm.
Record t : Type := mk { dim : nat; w : nat -> R; eps : R }.

(** [(x * rsqrt(x.pow(2).mean(-1, keepdim=True) + eps)) * w]. *)
Definition forward (self : t) (x : Tensor3 R) : res (Tensor3 R) :=
  match bdim (d3_2 x) (dim self) with
  | Some n2 =>
      Ok (mkT3 (d3_0 x) (d3_1 x) n2
            (fun b p d =>
               let ms := (rsum (d3_2 x) (fun d' => at3 x b p d' * at3 x b p d')
                          / INR (d3_2 x))%R in
               (at3 x b p (bidx (d3_2 x) d) * (/ sqrt (ms + eps self))
                * w self (bidx (dim self) d))%R))
  | None => Raise RuntimeError
  end.
End RMSNorm.

(** Elementwise binary operation on rank-3 tensors, with broadcasting. *)
Definition tzip (op : R -> R -> R) (a b : Tensor3 R) : res (Tensor3 R) :=
  match bdim (d3_0 a) (d3_0 b), bdim (d3_1 a) (d3_1 b), bdim (d3_2 a) (d3_2 b) with
  | Some n0, Some n1, Some n2 =>
      Ok (mkT3 n0 n1 n2
            (fun i j k =>
               op (at3 a (bidx (d3_0 a) i) (bidx (d3_1 a) j) (bidx (d3_2 a) k))
                  (at3 b (bidx (d3_0 b) i) (bidx (d3_1 b) j) (bidx (d3_2 b) k))))
  | _, _, _ => Raise RuntimeError
  end.

(** [x.view(B, T, n, h)] on a rank-3 tensor whose two leading extents are
    (B, T). *)
Definition view4 (x : Tensor3 R) (n h : nat) : res (Tensor4 R) :=
  if d3_0 x * d3_1 x * d3_2 x =? d3_0 x * d3_1 x * (n * h)
  then Ok (view_heads x n h)
  else Raise RuntimeError.

(** [attn += mask]: in place, so [mask] is expanded to the shape of [attn]. *)
Definition add_mask (attn : Tensor4 R) (mask : pyval) : res (Tensor4 xreal) :=
  match mask with
  | PyNone =>
      Ok (mkT4 (d4_0 attn) (d4_1 attn) (d4_2 attn) (d4_3 attn)
            (fun b h t j => Fin (at4 attn b h t j)))
  | PyFloat m =>
      if expandable (rows m) (d4_2 attn) && expandable (cols m) (d4_3 attn)
      then
        Ok (mkT4 (d4_0 attn) (d4_1 attn) (d4_2 attn) (d4_3 attn)
              (fun b h t j =>
                 xadd (at4 attn b h t j)
                      (at2 m (bidx (rows m) t) (bidx (cols m) j))))
      else Raise RuntimeError
  | PyComplex _ => Raise RuntimeError
  end.

(** ** Grouped-query attention with a key/value cache *)

Module SelfAttention.
Record t : Type := mk
  { dim : nat;
    n_q_heads : nat;
    n_kv_heads : nat;
    n_rep : nat;
    h_size : nat;
    wq : Linear.t;
    wk : Linear.t;
    wv : Linear.t;
    wo : Linear.t;
    k_cache : Tensor4 R;
    v_cache : Tensor4 R }.

(** [__init__].  The projection matrices are those of the checkpoint;
    [k0] and [v0] are whatever [torch.empty] leaves in the caches. *)
Definition init (args : Args.t) (q k v o : nat -> nat -> R)
    (k0 v0 : nat -> nat -> nat -> nat -> R) : res t :=
  let n_q := Args.n_heads args in
  let n_kv := match Args.n_kv_heads args with
              | None => Args.n_heads args
              | Some n => n
              end in
  if n_kv =? 0 then Raise ZeroDivisionError
  else if negb (n_q mod n_kv =? 0) then Raise AssertionError
  else if Args.n_heads args =? 0 then Raise ZeroDivisionError
  else
    let h := Args.dim args / Args.n_heads args in
    Ok (mk (Args.dim args) n_q n_kv (n_q / n_kv) h
          (Linear.mk (Args.dim args) (n_q * h) q)
          (Linear.mk (Args.dim args) (n_kv * h) k)
          (Linear.mk (Args.dim args) (n_kv * h) v)
          (Linear.mk (n_q * h) (Args.dim args) o)
          (mkT4 (Args.batch_size args) (Args.seq_len args) n_kv h k0)
          (mkT4 (Args.batch_size args) (Args.seq_len args) n_kv h v0)).

Definition set_k_cache (self : t) (c : Tensor4 R) : t :=
  mk (dim self) (n_q_heads self) (n_kv_heads self) (n_rep self) (h_size self)
     (wq self) (wk self) (wv self) (wo self) c (v_cache self).

Definition set_v_cache (self : t) (c : Tensor4 R) : t :=
  mk (dim self) (n_q_heads self) (n_kv_heads self) (n_rep self) (h_size self)
     (wq self) (wk self) (wv self) (wo self) (k_cache self) c.

(** [forward], from the projections to the two [rope] calls. *)
Definition project (self : t) (x : Tensor3 R) (freqs : pyval)
    : res (Tensor4 R * Tensor4 R * Tensor4 R) :=
  q <- Linear.forward (wq self) x ;;
  _k <- Linear.forward (wk self) x ;;
  _v <- Linear.forward (wv self) x ;;
  q <- view4 q (n_q_heads self) (h_size self) ;;
  _k <- view4 _k (n_kv_heads self) (h_size self) ;;
  _v <- view4 _v (n_kv_heads self) (h_size self) ;;
  q <- rope q freqs ;;
  _k <- rope _k freqs ;;
  Ok (q, _k, _v).

(** [k = self.v_cache[:B, :start_pos + T]], as the notebook has it. *)
Definition keys (self : t) (B stop : nat) : Tensor4 R :=
  slice_read (v_cache self) B stop.

(** [v = self.v_cache[:B, :start_pos + T]]. *)
Definition values (self : t) (B stop : nat) : Tensor4 R :=
  slice_read (v_cache self) B stop.

(** [forward], from [rep_tensor] to [attn += mask]. *)
Definition scores (self : t) (q : Tensor4 R) (B stop : nat) (mask : pyval)
    : res (Tensor4 xreal) :=
  let k := rep_tensor (keys self B stop) (n_rep self) in
  let q := transpose12 q in
  let k := transpose12 k in
  attn <- matmul q (transpose_last k) ;;
  let attn := scale attn (sqrt (INR (h_size self))) in
  add_mask attn mask.

(** [attn = F.softmax(attn, dim=-1)]. *)
Definition weights (self : t) (q : Tensor4 R) (B stop : nat) (mask : pyval)
    : res (Tensor4 R) :=
  attn <- scores self q B stop mask ;;
  Ok (softmax attn).

(** [forward], from the cache reads to the output projection. *)
Definition attend (self : t) (q : Tensor4 R) (B T stop : nat) (mask : pyval)
    : res (Tensor3 R) :=
  attn <- weights self q B stop mask ;;
  let v := transpose12 (rep_tensor (values self B stop) (n_rep self)) in
  attn <- matmul attn v ;;
  attn <- view3 (transpose12 attn) B T (n_q_heads self * h_size self) ;;
  Linear.forward (wo self) attn.

(** [forward(self, x, start_pos, freqs, mask)]. *)
Definition forward (self : t) (x : Tensor3 R) (start_pos : nat)
    (freqs mask : pyval) : res (Tensor3 R) * t :=
  let B := d3_0 x in
  let T := d3_1 x in
  let D := d3_2 x in
  if negb (D =? dim self) then (Raise AssertionError, self)
  else if negb (D =? n_q_heads self * h_size self) then (Raise AssertionError, self)
  else
    match project self x freqs with
    | Raise e => (Raise e, self)
    | Ok (q, _k, _v) =>
        match slice_assign (k_cache self) B start_pos (start_pos + T) _k with
        | Raise e => (Raise e, self)
        | Ok kc =>
            let self1 := set_k_cache self kc in
            match slice_assign (v_cache self1) B start_pos (start_pos + T) _v with
            | Raise e => (Raise e, self1)
            | Ok vc =>
                let self2 := set_v_cache self1 vc in
                (attend self2 q B T (start_pos + T) mask, self2)
            end
        end
    end.
End SelfAttention.

(** ** Feed-forward block *)

(** [F.silu]. *)
Definition silu (z : R) : R := (z * (1 / (1 + exp (- z))))%R.

Definition tmap (f : R -> R) (x : Tensor3 R) : Tensor3 R :=
  mkT3 (d3_0 x) (d3_1 x) (d3_2 x) (fun b p d => f (at3 x b p d)).

Module FFN.
(** The hidden width computed by [__init__].  [int(2 * hidden_dim / 3)]
    goes through a float; the quotient is exact as long as it stays
    below 2^52, which holds for [dim < 2^49]. *)
Definition hidden_dim (dim multiple_of : nat) (ffn_dim_multiplier : option nat)
    : res nat :=
  let hidden_dim := 4 * dim in
  let hidden_dim := (2 * hidden_dim) / 3 in
  let hidden_dim := match ffn_dim_multiplier with
                    | Some k => k * hidden_dim
                    | None => hidden_dim
                    end in
  if multiple_of =? 0 then Raise ZeroDivisionError
  else Ok (multiple_of * ((hidden_dim + multiple_of - 1) / multiple_of)).

Record t : Type := mk { w1 : Linear.t; w2 : Linear.t; w3 : Linear.t }.

Definition init (dim multiple_of : nat) (ffn_dim_multiplier : option nat)
    (m1 m2 m3 : nat -> nat -> R) : res t :=
  hd <- hidden_dim dim multiple_of ffn_dim_multiplier ;;
  Ok (mk (Linear.mk dim hd m1) (Linear.mk hd dim m2) (Linear.mk dim hd m3)).

(** [self.w2(F.silu(self.w1(x)) * self.w3(x))]. *)
Definition forward (self : t) (x : Tensor3 R) : res (Tensor3 R) :=
  a <- Linear.forward (w1 self) x ;;
  b <- Linear.forward (w3 self) x ;;
  g <- tzip Rmult (tmap silu a) b ;;
  Linear.forward (w2 self) g.
End FFN.

(** ** Transformer block *)

Module TransformerBlock.
Record t : Type := mk
  { attention : SelfAttention.t;
    attn_norm : RMSNorm.t;
    ffn : FFN.t;
    ffn_norm : RMSNorm.t }.

(** The parameters of one block, as a checkpoint provides them. *)
Record params : Type := mk_params
  { p_wq : nat -> nat -> R; p_wk : nat -> nat -> R;
    p_wv : nat -> nat -> R; p_wo : nat -> nat -> R;
    p_k0 : nat -> nat -> nat -> nat -> R;
    p_v0 : nat -> nat -> nat -> nat -> R;
    p_attn_norm : nat -> R; p_ffn_norm : nat -> R;
    p_w1 : nat -> nat -> R; p_w2 : nat -> nat -> R; p_w3 : nat -> nat -> R }.

(** [__init__]: note [FFN(args.dim, args.multiple_of)] without the
    multiplier, and the default [eps] of [RMSNorm]. *)
Definition init (args : Args.t) (p : params) : res t :=
  a <- SelfAttention.init args (p_wq p) (p_wk p) (p_wv p) (p_wo p)
         (p_k0 p) (p_v0 p) ;;
  f <- FFN.init (Args.dim args) (Args.multiple_of args) None
         (p_w1 p) (p_w2 p) (p_w3 p) ;;
  Ok (mk a (RMSNorm.mk (Args.dim args) (p_attn_norm p) (1 / 1000000)%R)
           f (RMSNorm.mk (Args.dim args) (p_ffn_norm p) (1 / 1000000)%R)).

Definition set_attention (self : t) (a : SelfAttention.t) : t :=
  mk a (attn_norm self) (ffn self) (ffn_norm self).

(** [forward(self, x, start_pos, freqs, mask)].  The attention is called
    as [self.attention(self.attn_norm(x), start_pos, mask, freqs)]. *)
Definition forward (self : t) (x : Tensor3 R) (start_pos : nat)
    (freqs mask : pyval) : res (Tensor3 R) * t :=
  match RMSNorm.forward (attn_norm self) x with
  | Raise e => (Raise e, self)
  | Ok n =>
      let (r, a') := SelfAttention.forward (attention self) n start_pos mask freqs in
      let self' := set_attention self a' in
      (a <- r ;;
       x_ <- tzip Rplus x a ;;
       n2 <- RMSNorm.forward (ffn_norm self') x_ ;;
       f <- FFN.forward (ffn self') n2 ;;
       tzip Rplus x_ f, self')
  end.
End TransformerBlock.

(** ** The model *)

(** [torch.triu(torch.full((T, T), -inf), diagonal=1)] stacked to the right
    of [torch.zeros((T, start_pos))]. *)
Definition causal_mask (T start_pos : nat) : Tensor2 xreal :=
  mkT2 T (start_pos + T)
    (fun i j =>
       if j <? start_pos then Fin 0
       else if i + 1 <=? j - start_pos then NegInf else Fin 0).

Module Transformer.
Record t : Type := mk
  { args : Args.t;
    n_layers : nat;
    vocab_size : nat;
    tok_embeddings : nat -> nat -> R;
    layers : list TransformerBlock.t;
    norm : RMSNorm.t;
    out : Linear.t;
    freqs : Tensor2 C }.

Fixpoint init_layers (a : Args.t) (p : nat -> TransformerBlock.params)
    (layer n : nat) : res (list TransformerBlock.t) :=
  match n with
  | O => Ok []
  | S n' =>
      b <- TransformerBlock.init a (p layer) ;;
      rest <- init_layers a p (S layer) n' ;;
      Ok (b :: rest)
  end.

(** [__init__]. *)
Definition init (a : Args.t) (emb : nat -> nat -> R)
    (p : nat -> TransformerBlock.params) (norm_w : nat -> R)
    (out_w : nat -> nat -> R) : res t :=
  ls <- init_layers a p 0 (Args.n_layers a) ;;
  if Args.n_heads a =? 0 then Raise ZeroDivisionError
  else
    fr <- precomputed_freqs (Args.dim a / Args.n_heads a)
            (Args.seq_len a * 2) 10000 ;;
    Ok (mk a (Args.n_layers a) (Args.vocab_size a) emb ls
           (RMSNorm.mk (Args.dim a) norm_w (Args.norm_eps a))
           (Linear.mk (Args.dim a) (Args.vocab_size a) out_w) fr).

Definition set_layers (self : t) (ls : list TransformerBlock.t) : t :=
  mk (args self) (n_layers self) (vocab_size self) (tok_embeddings self)
     ls (norm self) (out self) (freqs self).

(** [self.tok_embeddings(x)]. *)
Definition embed (self : t) (x : Tensor2 nat) : res (Tensor3 R) :=
  if forallb (fun b => forallb (fun p => at2 x b p <? vocab_size self)
                         (seq 0 (cols x)))
             (seq 0 (rows x))
  then Ok (mkT3 (rows x) (cols x) (Args.dim (args self))
             (fun b p d => tok_embeddings self (at2 x b p) d))
  else Raise IndexError.

(** The mask built by [forward]. *)
Definition build_mask (T start_pos : nat) : pyval :=
  if 1 <? T then PyFloat (causal_mask T start_pos) else PyNone.

(** [for layer in self.layers: x_embd = layer(x_embd, start_pos, mask, freqs)].
    A layer that has run keeps what it wrote, also when a later one
    raises. *)
Fixpoint run_layers (ls : list TransformerBlock.t) (x_embd : Tensor3 R)
    (start_pos : nat) (mask freqs : pyval)
    : res (Tensor3 R) * list TransformerBlock.t :=
  match ls with
  | [] => (Ok x_embd, [])
  | layer :: rest =>
      match TransformerBlock.forward layer x_embd start_pos mask freqs with
      | (Ok x', layer') =>
          let (r, rest') := run_layers rest x' start_pos mask freqs in
          (r, layer' :: rest')
      | (Raise e, layer') => (Raise e, layer' :: rest)
      end
  end.

(** [forward(self, x, start_pos)]. *)
Definition forward (self : t) (x : Tensor2 nat) (start_pos : nat)
    : res (Tensor3 R) * t :=
  let T := cols x in
  match embed self x with
  | Raise e => (Raise e, self)
  | Ok x_embd =>
      let freqs := PyComplex (slice_rows (freqs self) start_pos (start_pos + T)) in
      let mask := build_mask T start_pos in
      let (r, ls) := run_layers (layers self) x_embd start_pos mask freqs in
      (x_embd <- r ;;
       x_embd <- RMSNorm.forward (norm self) x_embd ;;
       Linear.forward (out self) x_embd, set_layers self ls)
  end.
End Transformer.

(** ** The call chain with arguments handed over by name *)

(** The same computation as [Transformer.forward], except that the rotary
    table and the mask reach each callee under their parameter names
    ([freqs=..., mask=...]) instead of by position. *)
Module ByName.
Definition block_forward (self : TransformerBlock.t) (x : Tensor3 R)
    (start_pos : nat) (freqs mask : pyval)
    : res (Tensor3 R) * TransformerBlock.t :=
  match RMSNorm.forward (TransformerBlock.attn_norm self) x with
  | Raise e => (Raise e, self)
  | Ok n =>
      let (r, a') :=
        SelfAttention.forward (TransformerBlock.attention self) n start_pos
          freqs mask in
      let self' := TransformerBlock.set_attention self a' in
      (a <- r ;;
       x_ <- tzip Rplus x a ;;
       n2 <- RMSNorm.forward (TransformerBlock.ffn_norm self') x_ ;;
       f <- FFN.forward (TransformerBlock.ffn self') n2 ;;
       tzip Rplus x_ f, self')
  end.

Fixpoint run_layers (ls : list TransformerBlock.t) (x_embd : Tensor3 R)
    (start_pos : nat) (freqs mask : pyval)
    : res (Tensor3 R) * list TransformerBlock.t :=
  match ls with
  | [] => (Ok x_embd, [])
  | layer :: rest =>
      match block_forward layer x_embd start_pos freqs mask with
      | (Ok x', layer') =>
          let (r, rest') := run_layers rest x' start_pos freqs mask in
          (r, layer' :: rest')
      | (Raise e, layer') => (Raise e, layer' :: rest)
      end
  end.

Definition forward (self : Transformer.t) (x : Tensor2 nat) (start_pos : nat)
    : res (Tensor3 R) * Transformer.t :=
  let T := cols x in
  match Transformer.embed self x with
  | Raise e => (Raise e, self)
  | Ok x_embd =>
      let freqs :=
        PyComplex (slice_rows (Transformer.freqs self) start_pos (start_pos + T)) in
      let mask := Transformer.build_mask T start_pos in
      let (r, ls) :=
        run_layers (Transformer.layers self) x_embd start_pos freqs mask in
      (x_embd <- r ;;
       x_embd <- RMSNorm.forward (Transformer.norm self) x_embd ;;
       Linear.forward (Transformer.out self) x_embd,
       Transformer.set_layers self ls)
  end.
End ByName.

(** ** Standard multi-head attention, after the specification *)

(** Non-grouped multi-head causal attention as the specification words it:
    each query head scores its rotated queries against the cached rotated
    keys of the same head (read from the key cache), scaled by [c]; the
    mask is added, the scores are softmaxed over the keys, applied to the
    cached values of the same head, and output-projected. *)
Module Standard.
Definition keys (self : SelfAttention.t) (B stop : nat) : Tensor4 R :=
  slice_read (SelfAttention.k_cache self) B stop.

Definition values (self : SelfAttention.t) (B stop : nat) : Tensor4 R :=
  slice_read (SelfAttention.v_cache self) B stop.

Definition attend (c : R) (self : SelfAttention.t) (q : Tensor4 R)
    (B T stop : nat) (mask : pyval) : res (Tensor3 R) :=
  attn <- matmul (transpose12 q)
            (transpose_last (transpose12 (keys self B stop))) ;;
  attn <- add_mask (scale attn c) mask ;;
  attn <- matmul (softmax attn) (transpose12 (values self B stop)) ;;
  attn <- view3 (transpose12 attn) B T
            (SelfAttention.n_q_heads self * SelfAttention.h_size self) ;;
  Linear.forward (SelfAttention.wo self) attn.

Definition forward (c : R) (self : SelfAttention.t) (x : Tensor3 R)
    (start_pos : nat) (freqs mask : pyval) : res (Tensor3 R) :=
  let B := d3_0 x in
  let T := d3_1 x in
  match SelfAttention.project self x freqs with
  | Raise e => Raise e
  | Ok (q, _k, _v) =>
      kc <- slice_assign (SelfAttention.k_cache self) B start_pos
              (start_pos + T) _k ;;
      vc <- slice_assign (SelfAttention.v_cache self) B start_pos
              (start_pos + T) _v ;;
      attend c (SelfAttention.set_v_cache (SelfAttention.set_k_cache self kc) vc)
        q B T (start_pos + T) mask
  end.
End Standard.

(** ** Worked examples *)

Module Ex.
Definition ident (o d : nat) : R := if o =? d then 1%R else 0%R.
Definition swap (o d : nat) : R := if o + d =? 1 then 1%R else 0%R.
Definition zeros4 (b j hd i : nat) : R := 0%R.

Definition args : Args.t :=
  Args.mk 2 1 1 None 4 1 None (1 / 100000)%R 1 2.

(** One head of width 2; queries, keys and the output projection are the
    identity, the value projection swaps the two coordinates. *)
Definition attn : SelfAttention.t :=
  SelfAttention.mk 2 1 1 1 2
    (Linear.mk 2 2 ident) (Linear.mk 2 2 ident)
    (Linear.mk 2 2 swap) (Linear.mk 2 2 ident)
    (mkT4 1 2 1 2 zeros4) (mkT4 1 2 1 2 zeros4).

(** Two tokens: (1, 0) then (0, 1). *)
Definition x : Tensor3 R := mkT3 1 2 2 (fun b p d => ident p d).

(** Rotation by the angle 0 at both positions. *)
Definition freqs : pyval := PyComplex (mkT2 2 1 (fun p j => (1%R, 0%R))).

Definition mask : pyval := Transformer.build_mask 2 0.

Definition run : res (Tensor3 R) * SelfAttention.t :=
  SelfAttention.forward attn x 0 freqs mask.

Definition empty3 : Tensor3 R := mkT3 0 0 0 (fun b p d => 0%R).

(** What [run] returns and the object it leaves, evaluated. *)
Definition out : Tensor3 R :=
  Eval cbv -[Rplus Rmult Rminus Rdiv Rinv Ropp sqrt exp INR IZR] in
  match fst run with Ok o => o | Raise _ => empty3 end.

Definition after : SelfAttention.t :=
  Eval cbv -[Rplus Rmult Rminus Rdiv Rinv Ropp sqrt exp INR IZR] in snd run.

(** What standard attention with scale [c] returns on the same call. *)
Definition std_out (c : R) : Tensor3 R :=
  Eval cbv -[Rplus Rmult Rminus Rdiv Rinv Ropp sqrt exp INR IZR] in
  match Standard.forward c attn x 0 freqs mask with
  | Ok o => o
  | Raise _ => empty3
  end.
End Ex.

Module Ex8.
(** A table for head width 2 and two positions, and a (1, 1, 1, 2) input. *)
Definition tbl : Tensor2 C :=
  mkT2 2 (2 / 2)
    (fun m i => polar 1 (INR m * (1 / Rpower 10000 (INR (2 * i) / INR 2)))%R).
Definition x : Tensor4 R := mkT4 1 1 1 2 (fun b p hd i => (INR i + 3)%R).
Definition y : Tensor4 R := mkT4 1 1 1 2 (rotated x (slice_rows tbl 1 2)).
End Ex8.

(** ** Cache contents *)

(** Two tensors have the same shape and the same element at every index. *)
Definition same4 (a b : Tensor4 R) : Prop :=
  d4_0 a = d4_0 b /\ d4_1 a = d4_1 b /\ d4_2 a = d4_2 b /\ d4_3 a = d4_3 b /\
  forall i0 i1 i2 i3, at4 a i0 i1 i2 i3 = at4 b i0 i1 i2 i3.

Module Ex4.
(** A one-token call at position 2 on the object [Ex.after], whose caches
    hold 2 positions. *)
Definition x : Tensor3 R := mkT3 1 1 2 (fun b p d => 1%R).
Definition freqs : pyval := PyComplex (mkT2 1 1 (fun p j => (1%R, 0%R))).
Definition run : res (Tensor3 R) * SelfAttention.t :=
  SelfAttention.forward Ex.after x 2 freqs PyNone.

Definition out : Tensor3 R :=
  Eval cbv -[Rplus Rmult Rminus Rdiv Rinv Ropp sqrt exp INR IZR] in
  match fst run with Ok o => o | Raise _ => Ex.empty3 end.

Definition after : SelfAttention.t :=
  Eval cbv -[Rplus Rmult Rminus Rdiv Rinv Ropp sqrt exp INR IZR] in snd run.
End Ex4.

(** ** Incremental decoding, the caller's side *)

(** [tokens[:, start : start + len]]. *)
Definition token_slice (toks : Tensor2 nat) (start len : nat) : Tensor2 nat :=
  mkT2 (rows toks) len (fun b p => at2 toks b (start + p)).

(** [n] single-token calls of [forward] at the successive positions
    [pos], [pos + 1], ...; the logits of each call are collected. *)
Fixpoint decode (m : Transformer.t) (toks : Tensor2 nat) (pos n : nat)
    : res (list (Tensor3 R)) * Transformer.t :=
  match n with
  | O => (Ok [], m)
  | S n' =>
      match Transformer.forward m (token_slice toks pos 1) pos with
      | (Ok lg, m') =>
          let (r, m'') := decode m' toks (S pos) n' in
          (l <- r ;; Ok (lg :: l), m'')
      | (Raise e, m') => (Raise e, m')
      end
  end.

(** ** Shapes of a constructed model *)

Module WF.
Definition linear (l : Linear.t) (i o : nat) : Prop :=
  Linear.in_features l = i /\ Linear.out_features l = o.

Definition cache (c : Tensor4 R) (bs L n h : nat) : Prop :=
  d4_0 c = bs /\ d4_1 c = L /\ d4_2 c = n /\ d4_3 c = h.

(** An attention of width [D] whose caches hold [bs] rows of [L]
    positions and whose heads have [2 * c] channels. *)
Definition attention (bs L D c : nat) (a : SelfAttention.t) : Prop :=
  SelfAttention.dim a = D /\
  D = SelfAttention.n_q_heads a * SelfAttention.h_size a /\
  SelfAttention.h_size a = 2 * c /\
  SelfAttention.n_q_heads a = SelfAttention.n_kv_heads a * SelfAttention.n_rep a /\
  0 < SelfAttention.n_kv_heads a /\
  0 < SelfAttention.n_rep a /\
  linear (SelfAttention.wq a) D (SelfAttention.n_q_heads a * SelfAttention.h_size a) /\
  linear (SelfAttention.wk a) D (SelfAttention.n_kv_heads a * SelfAttention.h_size a) /\
  linear (SelfAttention.wv a) D (SelfAttention.n_kv_heads a * SelfAttention.h_size a) /\
  linear (SelfAttention.wo a) (SelfAttention.n_q_heads a * SelfAttention.h_size a) D /\
  cache (SelfAttention.k_cache a) bs L (SelfAttention.n_kv_heads a) (SelfAttention.h_size a) /\
  cache (SelfAttention.v_cache a) bs L (SelfAttention.n_kv_heads a) (SelfAttention.h_size a).

Definition ffn (D : nat) (f : FFN.t) : Prop :=
  linear (FFN.w1 f) D (Linear.out_features (FFN.w1 f)) /\
  linear (FFN.w3 f) D (Linear.out_features (FFN.w1 f)) /\
  linear (FFN.w2 f) (Linear.out_features (FFN.w1 f)) D.

Definition block (bs L D c : nat) (b : TransformerBlock.t) : Prop :=
  attention bs L D c (TransformerBlock.attention b) /\
  RMSNorm.dim (TransformerBlock.attn_norm b) = D /\
  RMSNorm.dim (TransformerBlock.ffn_norm b) = D /\
  ffn D (TransformerBlock.ffn b).

(** A model whose caches hold [bs] rows of [L] positions. *)
Definition model (bs L : nat) (m : Transformer.t) : Prop :=
  let D := Args.dim (Transformer.args m) in
  Forall (block bs L D (cols (Transformer.freqs m))) (Transformer.layers m) /\
  RMSNorm.dim (Transformer.norm m) = D /\
  linear (Transformer.out m) D (Transformer.vocab_size m) /\
  L <= rows (Transformer.freqs m).
End WF.

(** ** What a forward call computes, position by position *)

(** The value of each output element as a closed expression in the
    weights and in the inputs of one batch row, [X p d] being channel [d]
    of position [p].  Position [p] attends to positions [0 .. p]. *)
Module Ref.
Definition lin (l : Linear.t) (xv : nat -> R) (o : nat) : R :=
  rsum (Linear.in_features l) (fun d => (xv d * Linear.weight l o d)%R).

Definition rms (n : RMSNorm.t) (D : nat) (xv : nat -> R) (d : nat) : R :=
  let ms := (rsum D (fun d' => xv d' * xv d') / INR D)%R in
  (xv d * (/ sqrt (ms + RMSNorm.eps n)) * RMSNorm.w n d)%R.

Definition ffn (f : FFN.t) (xv : nat -> R) (o : nat) : R :=
  lin (FFN.w2 f)
      (fun c => (silu (lin (FFN.w1 f) xv c) * lin (FFN.w3 f) xv c)%R) o.

Definition rot (tbl : Tensor2 C) (p : nat) (v : nat -> R) (i : nat) : R :=
  let xc := (v (2 * (i / 2)), v (2 * (i / 2) + 1)) in
  let r := cmul xc (at2 tbl p (i / 2)) in
  if Nat.even i then fst r else snd r.

Section Attention.
Variable a : SelfAttention.t.
Variable tbl : Tensor2 C.
Variable X : nat -> nat -> R.

Let h := SelfAttention.h_size a.

Definition query (p hd i : nat) : R :=
  rot tbl p (fun i' => lin (SelfAttention.wq a) (X p) (hd * h + i')) i.

Definition value (j kvh i : nat) : R :=
  lin (SelfAttention.wv a) (X j) (kvh * h + i).

Definition score (hd p j : nat) : R :=
  (rsum h (fun l => query p hd l * value j (hd / SelfAttention.n_rep a) l)
   * sqrt (INR h))%R.

Definition ctx (hd p i : nat) : R :=
  rsum (S p)
    (fun j =>
       (exp (score hd p j) / rsum (S p) (fun k => exp (score hd p k))
        * value j (hd / SelfAttention.n_rep a) i)%R).

Definition attention (p d : nat) : R :=
  rsum (SelfAttention.n_q_heads a * h)
    (fun c => (ctx (c / h) p (c mod h)
               * Linear.weight (SelfAttention.wo a) d c)%R).
End Attention.

Definition block (b : TransformerBlock.t) (tbl : Tensor2 C)
    (X : nat -> nat -> R) (p d : nat) : R :=
  let D := RMSNorm.dim (TransformerBlock.attn_norm b) in
  let xn := fun p' => rms (TransformerBlock.attn_norm b) D (X p') in
  let x_ := fun d' =>
    (X p d' + attention (TransformerBlock.attention b) tbl xn p d')%R in
  (x_ d + ffn (TransformerBlock.ffn b)
              (rms (TransformerBlock.ffn_norm b) D x_) d)%R.

Fixpoint layers (ls : list TransformerBlock.t) (tbl : Tensor2 C)
    (X : nat -> nat -> R) : nat -> nat -> R :=
  match ls with
  | [] => X
  | l :: rest => layers rest tbl (block l tbl X)
  end.

Definition logits (m : Transformer.t) (toks : nat -> nat) (p v : nat) : R :=
  let D := Args.dim (Transformer.args m) in
  let X0 := fun p' d => Transformer.tok_embeddings m (toks p') d in
  lin (Transformer.out m)
      (rms (Transformer.norm m) D
           (layers (Transformer.layers m) (Transformer.freqs m) X0 p)) v.
End Ref.

(** [x] is the window of [T] positions starting at [s] of the sequence
    [X], for [B] batch rows and [D] channels. *)
Definition window (x : Tensor3 R) (B T D s : nat) (X : nat -> nat -> nat -> R)
    : Prop :=
  d3_0 x = B /\ d3_1 x = T /\ d3_2 x = D /\
  forall b p d, b < B -> p < T -> d < D -> at3 x b p d = X b (s + p) d.

(** The first [s] positions of the value cache hold the value projections
    of the sequence [X]. *)
Definition cached (a : SelfAttention.t) (B s : nat) (X : nat -> nat -> nat -> R)
    : Prop :=
  forall b j kvh i,
    b < B -> j < s ->
    kvh < SelfAttention.n_kv_heads a -> i < SelfAttention.h_size a ->
    at4 (SelfAttention.v_cache a) b j kvh i = Ref.value a (X b) j kvh i.

(** Two attention objects differ at most in their caches. *)
Definition same_weights (a a' : SelfAttention.t) : Prop :=
  SelfAttention.dim a' = SelfAttention.dim a /\
  SelfAttention.n_q_heads a' = SelfAttention.n_q_heads a /\
  SelfAttention.n_kv_heads a' = SelfAttention.n_kv_heads a /\
  SelfAttention.n_rep a' = SelfAttention.n_rep a /\
  SelfAttention.h_size a' = SelfAttention.h_size a /\
  SelfAttention.wq a' = SelfAttention.wq a /\
  SelfAttention.wk a' = SelfAttention.wk a /\
  SelfAttention.wv a' = SelfAttention.wv a /\
  SelfAttention.wo a' = SelfAttention.wo a.

Definition same_weights_block (b b' : TransformerBlock.t) : Prop :=
  same_weights (TransformerBlock.attention b) (TransformerBlock.attention b') /\
  TransformerBlock.attn_norm b' = TransformerBlock.attn_norm b /\
  TransformerBlock.ffn b' = TransformerBlock.ffn b /\
  TransformerBlock.ffn_norm b' = TransformerBlock.ffn_norm b.

(** The layers [ls] are the layers [ls0] after some calls that have
    cached the first [s] positions of the sequence whose embeddings are
    [X]. *)
Fixpoint session (bs L D : nat) (tbl : Tensor2 C)
    (ls0 ls : list TransformerBlock.t) (B s : nat)
    (X : nat -> nat -> nat -> R) : Prop :=
  match ls0, ls with
  | [], [] => True
  | l0 :: r0, l :: r =>
      same_weights_block l0 l /\
      WF.block bs L D (cols tbl) l /\
      cached (TransformerBlock.attention l) B s
        (fun b p => Ref.rms (TransformerBlock.attn_norm l0) D (X b p)) /\
      session bs L D tbl r0 r B s (fun b => Ref.block l0 tbl (X b))
  | _, _ => False
  end.

Module ExM.
(** A one-layer model of width 2 with one head, a vocabulary of 3
    tokens, and caches of 1 row and 3 positions. *)
Definition args : Args.t :=
  Args.mk 2 1 1 None 3 1 None (1 / 100000)%R 1 3.

Definition ones1 (d : nat) : R := 1%R.
Definition ones2 (o d : nat) : R := 1%R.

Definition params (layer : nat) : TransformerBlock.params :=
  TransformerBlock.mk_params Ex.ident Ex.ident Ex.swap Ex.ident
    Ex.zeros4 Ex.zeros4 ones1 ones1 ones2 ones2 ones2.

Definition emb (tok d : nat) : R := INR (tok + d).

Definition empty : Transformer.t :=
  Transformer.mk args 0 0 (fun tok d => 0%R) []
    (RMSNorm.mk 0 (fun d => 0%R) 0%R) (Linear.mk 0 0 (fun o d => 0%R))
    (mkT2 0 0 (fun p j => (0%R, 0%R))).

Definition model : Transformer.t :=
  Eval cbv -[Rplus Rmult Rminus Rdiv Rinv Ropp sqrt exp cos sin Rpower
             INR IZR Ex.ident Ex.swap Ex.zeros4 ones1 ones2 emb polar] in
  match Transformer.init args emb params ones1 Ex.ident with
  | Ok m => m
  | Raise _ => empty
  end.

(** One batch row holding the tokens 0, 1, 2. *)
Definition toks : Tensor2 nat := mkT2 1 3 (fun b p => p).
End ExM.

Module Ex6.
(** The rotated queries of the call [Ex.run] and the softmax output of
    that call. *)
Definition q : Tensor4 R := mkT4 1 2 1 2 (fun b p hd i => Ex.ident p i).

Definition empty4 : Tensor4 R := mkT4 0 0 0 0 (fun b h p j => 0%R).

Definition w : Tensor4 R :=
  Eval cbv -[Rplus Rmult Rminus Rdiv Rinv Ropp sqrt exp INR IZR] in
  match SelfAttention.weights Ex.after q 1 (0 + 2) (Transformer.build_mask 2 0) with
  | Ok w => w
  | Raise _ => empty4
  end.
End Ex6.

(** ** Evaluation of the worked examples *)

(** Unfolds everything except the operations on real numbers. *)
Ltac reval :=
  cbv -[Rplus Rmult Rminus Rdiv Rinv Ropp Rlt Rle Rgt Rge
        sqrt exp cos sin INR IZR Rpower].

(** Brings every argument of [exp] to [0] or to [c]. *)
Ltac norm_exp c :=
  repeat match goal with
         | |- context [exp ?a] =>
             first [ progress (replace a with 0%R by ring); rewrite exp_0
                   | progress (replace a with c by ring) ]
         end.

(** ** Checkpoint keys *)

(** The helpers that turn a Hugging Face state dict into one of this
    model.  Keys are strings; a [dict] is an insertion-ordered list of
    entries with distinct keys; [None] stands for a [KeyError]. *)
Module StateDict.
Import String.
Local Open Scope string_scope.

Definition dict (V : Type) : Type := list (string * V).

(** [sub in s]. *)
Fixpoint contains (sub s : string) : bool :=
  prefix sub s ||
  match s with
  | EmptyString => false
  | String _ s' => contains sub s'
  end.

(** [s.replace(old, new)] for a non-empty [old]: the occurrences are
    replaced from left to right, without overlap.  [skip] counts the
    characters of a replaced occurrence that are still to be dropped. *)
Fixpoint replace_from (skip : nat) (old new s : string) : string :=
  match s with
  | EmptyString => EmptyString
  | String c s' =>
      match skip with
      | S k => replace_from k old new s'
      | O =>
          if prefix old s
          then new ++ replace_from (String.length old - 1) old new s'
          else String c (replace_from 0 old new s')
      end
  end.

(** [s.replace("", new)] puts [new] before every character and at the
    end. *)
Fixpoint intersperse (new s : string) : string :=
  match s with
  | EmptyString => new
  | String c s' => new ++ String c (intersperse new s')
  end.

Definition replace (old new s : string) : string :=
  match old with
  | EmptyString => intersperse new s
  | _ => replace_from 0 old new s
  end.

Definition keys {V : Type} (d : dict V) : list string := map fst d.

(** [d.get(k)]. *)
Fixpoint lookup {V : Type} (d : dict V) (k : string) : option V :=
  match d with
  | [] => None
  | (k', v) :: r => if (k' =? k)%string then Some v else lookup r k
  end.

(** [d.pop(k)]. *)
Fixpoint pop {V : Type} (d : dict V) (k : string) : option (V * dict V) :=
  match d with
  | [] => None
  | (k', v) :: r =>
      if (k' =? k)%string then Some (v, r)
      else match pop r k with
           | Some (w, r') => Some (w, (k', v) :: r')
           | None => None
           end
  end.

(** [del d[k]]. *)
Definition del {V : Type} (d : dict V) (k : string) : option (dict V) :=
  match pop d k with
  | Some (_, d') => Some d'
  | None => None
  end.

(** [d[k] = v]: an existing key keeps its place, a new one goes last. *)
Fixpoint setitem {V : Type} (d : dict V) (k : string) (v : V) : dict V :=
  match d with
  | [] => [(k, v)]
  | (k', w) :: r =>
      if (k' =? k)%string then (k', v) :: r else (k', w) :: setitem r k v
  end.

(** The loop of [remove_rot_emb] over the snapshot [ks] of the keys. *)
Fixpoint remove_rot_emb_loop {V : Type} (ks : list string) (state_dict : dict V)
    : option (dict V) :=
  match ks with
  | [] => Some state_dict
  | k :: rest =>
      if contains "inv_freq" k
      then match del state_dict k with
           | Some d' => remove_rot_emb_loop rest d'
           | None => None
           end
      else remove_rot_emb_loop rest state_dict
  end.

(** [remove_rot_emb(state_dict)]. *)
Definition remove_rot_emb {V : Type} (state_dict : dict V) : option (dict V) :=
  remove_rot_emb_loop (keys state_dict) state_dict.

Definition patterns : list (string * string) :=
  [ ("input_layernorm.weight", "ffn_norm.w");
    ("post_attention_layernorm.weight", "attn_norm.w");
    ("self_attn.k_proj", "attention.wk");
    ("self_attn.o_proj", "attention.wo");
    ("self_attn.q_proj", "attention.wq");
    ("self_attn.v_proj", "attention.wv");
    ("mlp.down_proj", "ffn.w2");
    ("mlp.gate_proj", "ffn.w3");
    ("mlp.up_proj", "ffn.w1");
    ("norm.weight", "norm.w");
    ("lm_head", "out");
    ("embed_tokens", "tok_embeddings") ].

(** The loop of [transform_key]: the first pattern found in [key] is
    replaced and the result returned. *)
Fixpoint transform_key_loop (ps : list (string * string)) (key : string) : string :=
  match ps with
  | [] => key
  | (old_pattern, new_pattern) :: rest =>
      if contains old_pattern key
      then replace old_pattern new_pattern key
      else transform_key_loop rest key
  end.

(** [transform_key(key)]. *)
Definition transform_key (key : string) : string :=
  transform_key_loop patterns key.

(** The name [rename_state_dict_keys] gives to [key]. *)
Definition new_key (key : string) : string :=
  let new_key := transform_key key in
  if contains "model." new_key then replace "model." "" new_key else new_key.

(** The loop of [rename_state_dict_keys] over the snapshot [ks] of the
    keys: [state_dict[new_key] = state_dict.pop(key)]. *)
Fixpoint rename_loop {V : Type} (ks : list string) (state_dict : dict V)
    : option (dict V) :=
  match ks with
  | [] => Some state_dict
  | key :: rest =>
      match pop state_dict key with
      | Some (v, d') => rename_loop rest (setitem d' (new_key key) v)
      | None => None
      end
  end.

(** [rename_state_dict_keys(state_dict)]. *)
Definition rename_state_dict_keys {V : Type} (state_dict : dict V)
    : option (dict V) :=
  rename_loop (keys state_dict) state_dict.

(** The entries [remove_rot_emb] keeps. *)
Definition keeps {V : Type} (kv : string * V) : bool :=
  negb (contains "inv_freq" (fst kv)).

(** An entry under its new name. *)
Definition renamed {V : Type} (kv : string * V) : string * V :=
  (new_key (fst kv), snd kv).

(** A small Hugging Face state dict, the values standing for tensors. *)
Definition hf : dict nat :=
  [ ("model.layers.0.self_attn.q_proj.weight", 1);
    ("model.layers.0.self_attn.rotary_emb.inv_freq", 2);
    ("model.norm.weight", 3);
    ("lm_head.weight", 4) ].
End StateDict.

Module ExN.
(** An [RMSNorm] of width 2 with unit weight and [eps = 0], applied to the
    row (3, 4). *)
Definition norm : RMSNorm.t := RMSNorm.mk 2 (fun d => 1%R) 0%R.
Definition x : Tensor3 R := mkT3 1 1 2 (fun b p d => (INR d + 3)%R).
Definition y : Tensor3 R :=
  Eval cbv -[Rplus Rmult Rminus Rdiv Rinv Ropp sqrt exp INR IZR] in
  match RMSNorm.forward norm x with Ok y => y | Raise _ => Ex.empty3 end.
End ExN.

Module ExR.
(** The table for head width 2 and 4 positions, a query and a key of
    shape (1, 2, 1, 2), and their rotations by the windows of two
    positions that start at 0 and at 1. *)
Definition tbl : Tensor2 C :=
  mkT2 4 (2 / 2)
    (fun m i => polar 1 (INR m * (1 / Rpower 10000 (INR (2 * i) / INR 2)))%R).
Definition q : Tensor4 R := mkT4 1 2 1 2 (fun b p hd i => (INR (p + i) + 1)%R).
Definition k : Tensor4 R := mkT4 1 2 1 2 (fun b p hd i => (INR (2 * p + i) - 2)%R).
Definition q1 : Tensor4 R := mkT4 1 2 1 2 (rotated q (slice_rows tbl 0 (0 + 2))).
Definition k1 : Tensor4 R := mkT4 1 2 1 2 (rotated k (slice_rows tbl 0 (0 + 2))).
Definition q2 : Tensor4 R :=
  mkT4 1 2 1 2 (rotated q (slice_rows tbl (0 + 1) (0 + 1 + 2))).
Definition k2 : Tensor4 R :=
  mkT4 1 2 1 2 (rotated k (slice_rows tbl (0 + 1) (0 + 1 + 2))).
End ExR.

(** ** What a call may change *)

(** [a'] is [a] except for cache entries of batch rows below [B] at the
    positions [s .. s + T - 1]. *)
Definition touched_only (B s T : nat) (a a' : SelfAttention.t) : Prop :=
  same_weights a a' /\
  (d4_0 (SelfAttention.k_cache a') = d4_0 (SelfAttention.k_cache a) /\
   d4_1 (SelfAttention.k_cache a') = d4_1 (SelfAttention.k_cache a) /\
   d4_2 (SelfAttention.k_cache a') = d4_2 (SelfAttention.k_cache a) /\
   d4_3 (SelfAttention.k_cache a') = d4_3 (SelfAttention.k_cache a)) /\
  (d4_0 (SelfAttention.v_cache a') = d4_0 (SelfAttention.v_cache a) /\
   d4_1 (SelfAttention.v_cache a') = d4_1 (SelfAttention.v_cache a) /\
   d4_2 (SelfAttention.v_cache a') = d4_2 (SelfAttention.v_cache a) /\
   d4_3 (SelfAttention.v_cache a') = d4_3 (SelfAttention.v_cache a)) /\
  forall b j hd i,
    ~ (b < B /\ s <= j < s + T) ->
    at4 (SelfAttention.k_cache a') b j hd i
      = at4 (SelfAttention.k_cache a) b j hd i /\
    at4 (SelfAttention.v_cache a') b j hd i
      = at4 (SelfAttention.v_cache a) b j hd i.

Definition block_touched_only (B s T : nat) (l l' : TransformerBlock.t) : Prop :=
  touched_only B s T (TransformerBlock.attention l) (TransformerBlock.attention l') /\
  TransformerBlock.attn_norm l' = TransformerBlock.attn_norm l /\
  TransformerBlock.ffn l' = TransformerBlock.ffn l /\
  TransformerBlock.ffn_norm l' = TransformerBlock.ffn_norm l.


Module ExH.
(** Width 5 with two heads: [5 // 2 = 2], so the heads cover only four of
    the five channels. *)
Definition args : Args.t :=
  Args.mk 5 1 2 None 3 1 None (1 / 100000)%R 1 3.
End ExH.

(** [a'] is [a] with other contents in caches of the same shape. *)
Definition recached (a a' : SelfAttention.t) : Prop :=
  same_weights a a' /\
  (d4_0 (SelfAttention.k_cache a') = d4_0 (SelfAttention.k_cache a) /\
   d4_1 (SelfAttention.k_cache a') = d4_1 (SelfAttention.k_cache a) /\
   d4_2 (SelfAttention.k_cache a') = d4_2 (SelfAttention.k_cache a) /\
   d4_3 (SelfAttention.k_cache a') = d4_3 (SelfAttention.k_cache a)) /\
  (d4_0 (SelfAttention.v_cache a') = d4_0 (SelfAttention.v_cache a) /\
   d4_1 (SelfAttention.v_cache a') = d4_1 (SelfAttention.v_cache a) /\
   d4_2 (SelfAttention.v_cache a') = d4_2 (SelfAttention.v_cache a) /\
   d4_3 (SelfAttention.v_cache a') = d4_3 (SelfAttention.v_cache a)).

Definition block_recached (l l' : TransformerBlock.t) : Prop :=
  recached (TransformerBlock.attention l) (TransformerBlock.attention l') /\
  TransformerBlock.attn_norm l' = TransformerBlock.attn_norm l /\
  TransformerBlock.ffn l' = TransformerBlock.ffn l /\
  TransformerBlock.ffn_norm l' = TransformerBlock.ffn_norm l.

Module ExD.
(** The layers of [ExM.model] with caches full of ones. *)
Definition ones4 (b j hd i : nat) : R := 1%R.
Definition layers : list TransformerBlock.t :=
  map (fun l =>
         TransformerBlock.set_attention l
           (SelfAttention.set_v_cache
              (SelfAttention.set_k_cache (TransformerBlock.attention l)
                 (mkT4 1 3 1 2 ones4))
              (mkT4 1 3 1 2 ones4)))
      (Transformer.layers ExM.model).
End ExD.

(** The number of key/value heads [SelfAttention.__init__] uses. *)
Definition kv_heads (a : Args.t) : nat :=
  match Args.n_kv_heads a with
  | None => Args.n_heads a
  | Some n => n
  end.

(** [a'] is [a] with another key projection (and any caches). *)
Definition rekeyed (a a' : SelfAttention.t) : Prop :=
  SelfAttention.dim a' = SelfAttention.dim a /\
  SelfAttention.n_q_heads a' = SelfAttention.n_q_heads a /\
  SelfAttention.n_kv_heads a' = SelfAttention.n_kv_heads a /\
  SelfAttention.n_rep a' = SelfAttention.n_rep a /\
  SelfAttention.h_size a' = SelfAttention.h_size a /\
  SelfAttention.wq a' = SelfAttention.wq a /\
  SelfAttention.wv a' = SelfAttention.wv a /\
  SelfAttention.wo a' = SelfAttention.wo a.

Definition block_rekeyed (l l' : TransformerBlock.t) : Prop :=
  rekeyed (TransformerBlock.attention l) (TransformerBlock.attention l') /\
  TransformerBlock.attn_norm l' = TransformerBlock.attn_norm l /\
  TransformerBlock.ffn l' = TransformerBlock.ffn l /\
  TransformerBlock.ffn_norm l' = TransformerBlock.ffn_norm l.

(** [m'] is [m] with other key projections in its layers. *)
Definition model_rekeyed (m m' : Transformer.t) : Prop :=
  Transformer.args m' = Transformer.args m /\
  Transformer.vocab_size m' = Transformer.vocab_size m /\
  Transformer.tok_embeddings m' = Transformer.tok_embeddings m /\
  Transformer.norm m' = Transformer.norm m /\
  Transformer.out m' = Transformer.out m /\
  Transformer.freqs m' = Transformer.freqs m /\
  Forall2 block_rekeyed (Transformer.layers m) (Transformer.layers m').

Module ExK.
(** [ExM.model] with the key projection of every layer replaced by the
    matrix of ones. *)
Definition rekey (l : TransformerBlock.t) : TransformerBlock.t :=
  let a := TransformerBlock.attention l in
  TransformerBlock.set_attention l
    (SelfAttention.mk (SelfAttention.dim a) (SelfAttention.n_q_heads a)
       (SelfAttention.n_kv_heads a) (SelfAttention.n_rep a)
       (SelfAttention.h_size a) (SelfAttention.wq a)
       (Linear.mk (Linear.in_features (SelfAttention.wk a))
          (Linear.out_features (SelfAttention.wk a)) ExM.ones2)
       (SelfAttention.wv a) (SelfAttention.wo a)
       (SelfAttention.k_cache a) (SelfAttention.v_cache a)).
Definition model : Transformer.t :=
  Transformer.set_layers ExM.model (map rekey (Transformer.layers ExM.model)).
End ExK.

Module Ex10.
(** An attention like [Ex.attn] with caches of 2 rows and 3 positions,
    called with one row of one token at position 1, and an input of
    width 3. *)
Definition attn : SelfAttention.t :=
  SelfAttention.mk 2 1 1 1 2
    (Linear.mk 2 2 Ex.ident) (Linear.mk 2 2 Ex.ident)
    (Linear.mk 2 2 Ex.swap) (Linear.mk 2 2 Ex.ident)
    (mkT4 2 3 1 2 Ex.zeros4) (mkT4 2 3 1 2 Ex.zeros4).

Definition x : Tensor3 R := mkT3 1 1 2 (fun b p d => 1%R).
Definition wide : Tensor3 R := mkT3 1 1 3 (fun b p d => 1%R).
Definition freqs : pyval := PyComplex (mkT2 1 1 (fun p j => (1%R, 0%R))).

Definition run : res (Tensor3 R) * SelfAttention.t :=
  SelfAttention.forward attn x 1 freqs PyNone.

Definition out : Tensor3 R :=
  Eval cbv -[Rplus Rmult Rminus Rdiv Rinv Ropp sqrt exp INR IZR] in
  match fst run with Ok o => o | Raise _ => Ex.empty3 end.

Definition after : SelfAttention.t :=
  Eval cbv -[Rplus Rmult Rminus Rdiv Rinv Ropp sqrt exp INR IZR] in snd run.
End Ex10.

(* ================================================================== *)
(** * Properties *)

Unset Implicit Arguments.

(** ** Arithmetic helpers *)

Lemma bidx_in (size i : nat) : i < size -> bidx size i = i.
Proof.
  unfold bidx. destruct (Nat.eqb_spec size 1); lia.
Qed.

Lemma rsum_ext (n : nat) (f g : nat -> R) :
  (forall k, k < n -> f k = g k) -> rsum n f = rsum n g.
Proof.
  induction n as [|n IH]; intros H; simpl.
  - reflexivity.
  - rewrite IH by (intros; apply H; lia). rewrite H by lia. reflexivity.
Qed.

(** ** Feed-forward width *)

(** C7: the hidden width starts from floor(8/3 * dim), computed as
    [int(2 * (4 * dim) / 3)], is optionally multiplied by
    [ffn_dim_multiplier], and is then rounded up to the next multiple of
    [multiple_of]; for dim = 4096 and multiple_of = 256 without a
    multiplier it is 11008. *)
Theorem C7_ffn_hidden_dim :
  forall (dim multiple_of : nat) (mult : option nat),
    0 < multiple_of ->
    (Z.of_nat dim < 2 ^ 49)%Z ->
    let base := (2 * (4 * dim)) / 3 in
    let scaled := match mult with Some k => k * base | None => base end in
    (3 * base <= 8 * dim < 3 * base + 3) /\
    (exists hd,
        FFN.hidden_dim dim multiple_of mult = Ok hd /\
        (exists q, hd = q * multiple_of) /\
        scaled <= hd < scaled + multiple_of) /\
    FFN.hidden_dim 4096 256 None = Ok 11008.
Proof.
  intros dim mo mult Hmo _ base scaled.
  split; [|split].
  - subst base.
    pose proof (Nat.div_mod_eq (2 * (4 * dim)) 3) as E.
    pose proof (Nat.mod_upper_bound (2 * (4 * dim)) 3 ltac:(lia)) as U.
    lia.
  - unfold FFN.hidden_dim. fold base. fold scaled.
    destruct (Nat.eqb_spec mo 0) as [->|_]; [lia|].
    eexists. split; [reflexivity|]. split.
    + exists ((scaled + mo - 1) / mo). lia.
    + pose proof (Nat.div_mod_eq (scaled + mo - 1) mo) as E.
      pose proof (Nat.mod_upper_bound (scaled + mo - 1) mo ltac:(lia)) as U.
      nia.
  - reflexivity.
Qed.

Lemma C7_ffn_hidden_dim_witness :
  FFN.hidden_dim 4096 256 None = Ok 11008.
Proof.
  apply (C7_ffn_hidden_dim 4096 256 None).
  - lia.
  - vm_compute. reflexivity.
Defined.

(** ** The causal mask *)

(** C5: for T > 1 the mask built by the model's [forward] has shape
    (T, start_pos + T), is zero in its first [start_pos] columns, and over
    the trailing T x T block is zero on and below the diagonal and [-inf]
    strictly above it; for T = 1 no mask is built ([None] is passed on). *)
Theorem C5_causal_mask :
  forall T start_pos : nat,
    (1 < T ->
     exists m,
       Transformer.build_mask T start_pos = PyFloat m /\
       rows m = T /\ cols m = start_pos + T /\
       (forall i j, i < T -> j < start_pos -> at2 m i j = Fin 0) /\
       (forall i j, i < T -> j < T -> j <= i ->
                    at2 m i (start_pos + j) = Fin 0) /\
       (forall i j, i < T -> j < T -> i < j ->
                    at2 m i (start_pos + j) = NegInf)) /\
    (T = 1 -> Transformer.build_mask T start_pos = PyNone).
Proof.
  intros T s. unfold Transformer.build_mask. split.
  - intros HT. apply Nat.ltb_lt in HT. rewrite HT.
    exists (causal_mask T s). repeat split; simpl; intros i j Hi Hj.
    + apply Nat.ltb_lt in Hj. rewrite Hj. reflexivity.
    + intros Hle.
      destruct (Nat.ltb_spec (s + j) s); [reflexivity|].
      destruct (Nat.leb_spec (i + 1) (s + j - s)); [lia|reflexivity].
    + intros Hlt.
      destruct (Nat.ltb_spec (s + j) s); [lia|].
      destruct (Nat.leb_spec (i + 1) (s + j - s)); [reflexivity|lia].
  - intros ->. reflexivity.
Qed.

Lemma C5_causal_mask_witness :
  exists m,
    Transformer.build_mask 2 1 = PyFloat m /\
    rows m = 2 /\ cols m = 3 /\
    at2 m 0 0 = Fin 0 /\ at2 m 0 1 = Fin 0 /\ at2 m 0 2 = NegInf /\
    at2 m 1 0 = Fin 0 /\ at2 m 1 1 = Fin 0 /\ at2 m 1 2 = Fin 0.
Proof.
  destruct (C5_causal_mask 2 1) as [H _].
  destruct (H ltac:(lia)) as (m & E & Hr & Hc & Hz & Hlo & Hup).
  exists m. repeat split; try assumption.
  - apply Hz; lia.
  - apply (Hlo 0 0); lia.
  - apply (Hup 0 1); lia.
  - apply Hz; lia.
  - apply (Hlo 1 0); lia.
  - apply (Hlo 1 1); lia.
Defined.

(** ** Rotary encoding *)

Lemma polar_unit (a : R) : cnorm2 (polar 1 a) = 1%R.
Proof.
  unfold cnorm2, polar. simpl.
  pose proof (sin2_cos2 a) as H. unfold Rsqr in H. lra.
Qed.

Lemma cmul_norm (x f : C) : cnorm2 f = 1%R -> cnorm2 (cmul x f) = cnorm2 x.
Proof.
  destruct x as [x0 x1], f as [c s]. unfold cnorm2, cmul. simpl. intros H.
  replace ((x0 * c - x1 * s) * (x0 * c - x1 * s)
           + (x0 * s + x1 * c) * (x0 * s + x1 * c))%R
    with ((x0 * x0 + x1 * x1) * (c * c + s * s))%R by ring.
  rewrite H. ring.
Qed.

(** C8: every entry of the precomputed table has unit magnitude, and
    [rope] applied with any slice of the table leaves the squared L2 norm
    of each consecutive pair of the last dimension unchanged. *)
Theorem C8_rope_preserves_pair_norm :
  forall (dim seqlen : nat) (theta : R) (tbl : Tensor2 C),
    precomputed_freqs dim seqlen theta = Ok tbl ->
    (forall m i, cnorm2 (at2 tbl m i) = 1%R) /\
    (forall (start stop : nat) (x y : Tensor4 R),
        rope x (PyComplex (slice_rows tbl start stop)) = Ok y ->
        forall b p hd i,
          cnorm2 (at4 y b p hd (2 * i), at4 y b p hd (2 * i + 1)) =
          cnorm2 (at4 x b p hd (2 * i), at4 x b p hd (2 * i + 1))).
Proof.
  intros dim seqlen theta tbl Htbl.
  assert (Hunit : forall m i, cnorm2 (at2 tbl m i) = 1%R).
  { unfold precomputed_freqs in Htbl.
    destruct (negb (dim mod 2 =? 0)); [discriminate|].
    injection Htbl as <-. intros m i. simpl. apply polar_unit. }
  split; [exact Hunit|].
  intros start stop x y Hy b p hd i.
  unfold rope in Hy.
  destruct (d4_0 x * d4_1 x * d4_2 x =? 0); [discriminate|].
  destruct (negb (Nat.even (d4_3 x))); [discriminate|].
  destruct (bdim _ _) as [T'|]; [|discriminate].
  destruct (bdim _ _) as [c'|]; [|discriminate].
  destruct (_ =? _); [|discriminate].
  injection Hy as <-. cbn [at4]. unfold rotated.
  assert (E0 : (2 * i) / 2 = i) by (rewrite Nat.mul_comm; apply Nat.div_mul; lia).
  assert (E1 : (2 * i + 1) / 2 = i).
  { rewrite Nat.mul_comm, Nat.div_add_l by lia. simpl. lia. }
  assert (V0 : Nat.even (2 * i) = true) by (rewrite Nat.even_mul; reflexivity).
  assert (V1 : Nat.even (2 * i + 1) = false).
  { rewrite Nat.even_add, Nat.even_mul. reflexivity. }
  rewrite E0, E1, V0, V1.
  set (f := at2 (slice_rows tbl start stop) _ _).
  set (xc := (at4 x b p hd (2 * i), at4 x b p hd (2 * i + 1))).
  transitivity (cnorm2 (cmul xc f)).
  { destruct (cmul xc f). reflexivity. }
  apply cmul_norm. subst f. cbn [slice_rows at2]. apply Hunit.
Qed.

Lemma C8_rope_preserves_pair_norm_witness :
  cnorm2 (at4 Ex8.y 0 0 0 0, at4 Ex8.y 0 0 0 1) =
  cnorm2 (at4 Ex8.x 0 0 0 0, at4 Ex8.x 0 0 0 1).
Proof.
  destruct (C8_rope_preserves_pair_norm 2 2 10000 Ex8.tbl) as [_ H].
  - reflexivity.
  - apply (H 1 2 Ex8.x Ex8.y ltac:(reflexivity) 0 0 0 0).
Defined.

(** ** Positional arguments *)

Lemma block_forward_by_name (self : TransformerBlock.t) (x : Tensor3 R)
    (start_pos : nat) (a b : pyval) :
  TransformerBlock.forward self x start_pos a b =
  ByName.block_forward self x start_pos b a.
Proof. reflexivity. Qed.

Lemma run_layers_by_name (ls : list TransformerBlock.t) :
  forall (x : Tensor3 R) (start_pos : nat) (mask freqs : pyval),
    Transformer.run_layers ls x start_pos mask freqs =
    ByName.run_layers ls x start_pos freqs mask.
Proof.
  induction ls as [|layer rest IH]; intros x s mask freqs; simpl.
  - reflexivity.
  - rewrite block_forward_by_name.
    destruct (ByName.block_forward layer x s freqs mask) as [[x'|e] layer'].
    + rewrite IH. reflexivity.
    + reflexivity.
Qed.

(** The positional call of the layers swaps the rotary table and the mask,
    and the positional call of the attention swaps them back: the model
    computes what the call chain with named arguments computes. *)
Lemma positional_arguments_cancel :
  forall (self : Transformer.t) (x : Tensor2 nat) (start_pos : nat),
    Transformer.forward self x start_pos = ByName.forward self x start_pos.
Proof.
  intros self x s. unfold Transformer.forward, ByName.forward.
  destruct (Transformer.embed self x) as [x_embd|e]; [|reflexivity].
  rewrite run_layers_by_name. reflexivity.
Qed.

(** ** The cache read *)

Lemma exp_pos_gt_1 (c : R) : (0 < c)%R -> (1 < exp c)%R.
Proof.
  intros H. assert (N : c <> 0%R) by lra. pose proof (exp_ineq1 c N). lra.
Qed.

Lemma two_way_softmax_small (e : R) : (1 < e)%R -> (1 / (e + 1) < 1 / 2)%R.
Proof.
  intros H. unfold Rdiv. rewrite !Rmult_1_l.
  apply Rinv_lt_contravar; lra.
Qed.

Lemma two_way_softmax_large (e : R) : (1 < e)%R -> (1 / 2 < e / (1 + e))%R.
Proof.
  intros H.
  replace (e / (1 + e))%R with (1 - 1 / (e + 1))%R by (field; lra).
  pose proof (two_way_softmax_small e H). lra.
Qed.

Lemma ex_run : Ex.run = (Ok Ex.out, Ex.after).
Proof. reflexivity. Qed.

Lemma ex_std (c : R) :
  Standard.forward c Ex.attn Ex.x 0 Ex.freqs Ex.mask = Ok (Ex.std_out c).
Proof. reflexivity. Qed.

Lemma sqrt2_pos : (0 < sqrt (INR 2))%R.
Proof. apply sqrt_lt_R0. simpl. lra. Qed.

Lemma ex_out_small : (at3 Ex.out 0 1 0 < 1 / 2)%R.
Proof.
  reval. norm_exp (sqrt (INR 2)).
  pose proof (exp_pos_gt_1 _ sqrt2_pos) as He.
  pose proof (two_way_softmax_small _ He) as Hl.
  replace (exp (sqrt (INR 2)) + 1)%R
    with (0 + exp (sqrt (INR 2)) + 1)%R in Hl by ring.
  lra.
Qed.

Lemma ex_std_large (c : R) : (0 < c)%R -> (1 / 2 < at3 (Ex.std_out c) 0 1 0)%R.
Proof.
  intros Hc. reval. norm_exp c.
  pose proof (exp_pos_gt_1 c Hc) as He.
  pose proof (two_way_softmax_large (exp c) He) as Hl.
  replace (1 + exp c)%R with (0 + 1 + exp c)%R in Hl by ring.
  lra.
Qed.

(** C3: the tensor used as keys is read from the value cache.  After the
    call [Ex.run] the first key the scores are computed with is the cached
    value (0, 1), while the key cache holds the rotated key (1, 0). *)
Theorem C3_keys_read_from_value_cache :
  (forall self B stop,
      SelfAttention.keys self B stop =
      slice_read (SelfAttention.v_cache self) B stop) /\
  Ex.run = (Ok Ex.out, Ex.after) /\
  at4 (SelfAttention.keys Ex.after 1 2) 0 0 0 0 = 0%R /\
  at4 (slice_read (SelfAttention.k_cache Ex.after) 1 2) 0 0 0 0 = 1%R.
Proof.
  split; [reflexivity|]. split; [exact ex_run|].
  reval. split; lra.
Qed.

(** C2: with [n_kv_heads = n_heads = 1] the call [Ex.run] does not compute
    standard multi-head attention.  The second query scores higher against
    the first cached value than against the second, so the notebook's
    output puts less than 1/2 on the second value; standard attention,
    scoring against the cached keys, puts more than 1/2 on it, whether the
    scores are scaled by 1/sqrt(h) or by sqrt(h). *)
Theorem C2_not_standard_attention :
  SelfAttention.n_kv_heads Ex.attn = SelfAttention.n_q_heads Ex.attn /\
  SelfAttention.n_rep Ex.attn = 1 /\
  fst Ex.run = Ok Ex.out /\
  Standard.forward (/ sqrt (INR 2)) Ex.attn Ex.x 0 Ex.freqs Ex.mask
    = Ok (Ex.std_out (/ sqrt (INR 2))) /\
  Standard.forward (sqrt (INR 2)) Ex.attn Ex.x 0 Ex.freqs Ex.mask
    = Ok (Ex.std_out (sqrt (INR 2))) /\
  (at3 Ex.out 0 1 0 < 1 / 2 < at3 (Ex.std_out (/ sqrt (INR 2))) 0 1 0)%R /\
  (at3 Ex.out 0 1 0 < 1 / 2 < at3 (Ex.std_out (sqrt (INR 2))) 0 1 0)%R.
Proof.
  split; [reflexivity|]. split; [reflexivity|].
  split; [reflexivity|]. split; [apply ex_std|]. split; [apply ex_std|].
  pose proof ex_out_small. pose proof sqrt2_pos as Hs.
  pose proof (ex_std_large _ Hs).
  pose proof (ex_std_large _ (Rinv_0_lt_compat _ Hs)).
  repeat split; assumption.
Qed.

(** ** Shapes along [SelfAttention.forward] *)

Lemma linear_dims (l : Linear.t) (x y : Tensor3 R) :
  Linear.forward l x = Ok y ->
  d3_0 y = d3_0 x /\ d3_1 y = d3_1 x /\ d3_2 y = Linear.out_features l.
Proof.
  unfold Linear.forward. destruct (negb _); [discriminate|].
  intros [= <-]. auto.
Qed.

Lemma view4_dims (x : Tensor3 R) (n h : nat) (y : Tensor4 R) :
  view4 x n h = Ok y ->
  d4_0 y = d3_0 x /\ d4_1 y = d3_1 x /\ d4_2 y = n /\ d4_3 y = h.
Proof.
  unfold view4. destruct (_ =? _); [|discriminate].
  intros [= <-]. auto.
Qed.

Lemma rope_dims (x : Tensor4 R) (f : pyval) (y : Tensor4 R) :
  rope x f = Ok y ->
  d4_0 y = d4_0 x /\ d4_1 y = d4_1 x /\ d4_2 y = d4_2 x /\ d4_3 y = d4_3 x /\
  d4_0 x * d4_1 x * d4_2 x <> 0.
Proof.
  unfold rope.
  destruct (Nat.eqb_spec (d4_0 x * d4_1 x * d4_2 x) 0); [discriminate|].
  destruct (negb _); [discriminate|].
  destruct f as [|m|f]; [discriminate| |].
  - destruct (bdim _ _); [|discriminate].
    destruct (bdim _ _); [|discriminate].
    destruct (_ =? _); [|discriminate].
    destruct (all_finite _ _ _); [|discriminate].
    intros [= <-]. auto.
  - destruct (bdim _ _); [|discriminate].
    destruct (bdim _ _); [|discriminate].
    destruct (_ =? _); [|discriminate].
    intros [= <-]. auto.
Qed.

Lemma project_dims (self : SelfAttention.t) (x : Tensor3 R) (f : pyval)
    (q k v : Tensor4 R) :
  SelfAttention.project self x f = Ok (q, k, v) ->
  (d4_0 q = d3_0 x /\ d4_1 q = d3_1 x) /\
  (d4_0 k = d3_0 x /\ d4_1 k = d3_1 x) /\
  (d4_0 v = d3_0 x /\ d4_1 v = d3_1 x) /\
  d3_0 x * d3_1 x <> 0.
Proof.
  unfold SelfAttention.project, bind.
  destruct (Linear.forward (SelfAttention.wq self) x) as [q0|] eqn:Eq0; [|discriminate].
  destruct (Linear.forward (SelfAttention.wk self) x) as [k0|] eqn:Ek0; [|discriminate].
  destruct (Linear.forward (SelfAttention.wv self) x) as [v0|] eqn:Ev0; [|discriminate].
  destruct (view4 q0 _ _) as [q1|] eqn:Eq1; [|discriminate].
  destruct (view4 k0 _ _) as [k1|] eqn:Ek1; [|discriminate].
  destruct (view4 v0 _ _) as [v1|] eqn:Ev1; [|discriminate].
  destruct (rope q1 f) as [q2|] eqn:Eq2; [|discriminate].
  destruct (rope k1 f) as [k2|] eqn:Ek2; [|discriminate].
  intros [= <- <- <-].
  apply linear_dims in Eq0, Ek0, Ev0.
  apply view4_dims in Eq1, Ek1, Ev1.
  apply rope_dims in Eq2, Ek2.
  destruct Eq0 as (Q0 & Q1 & _), Ek0 as (K0 & K1 & _), Ev0 as (V0 & V1 & _).
  destruct Eq1 as (Q0' & Q1' & _), Ek1 as (K0' & K1' & _),
           Ev1 as (V0' & V1' & _).
  destruct Eq2 as (Q0'' & Q1'' & _ & _ & NZ), Ek2 as (K0'' & K1'' & _).
  repeat split; try congruence.
  intros Hz. apply NZ.
  replace (d4_0 q1) with (d3_0 x) by congruence.
  replace (d4_1 q1) with (d3_1 x) by congruence.
  rewrite Hz. reflexivity.
Qed.

(** ** What a slice assignment touches *)

Lemma slice_assign_frame (c : Tensor4 R) (B s e : nat) (src c' : Tensor4 R) :
  slice_assign c B s e src = Ok c' ->
  d4_0 c' = d4_0 c /\ d4_1 c' = d4_1 c /\ d4_2 c' = d4_2 c /\ d4_3 c' = d4_3 c /\
  forall b j hd i,
    ~ (b < B /\ s <= j < e) -> at4 c' b j hd i = at4 c b j hd i.
Proof.
  unfold slice_assign. destruct (_ && _); [|discriminate].
  intros [= <-]. cbn [d4_0 d4_1 d4_2 d4_3 at4]. repeat split.
  intros b j hd i Hout.
  destruct (Nat.ltb_spec b (Nat.min B (d4_0 c))); [|reflexivity].
  destruct (Nat.leb_spec (Nat.min s (d4_1 c)) j); [|reflexivity].
  destruct (Nat.ltb_spec j (Nat.min e (d4_1 c))); [|reflexivity].
  exfalso. apply Hout. lia.
Qed.

Lemma slice_assign_overflow (c : Tensor4 R) (B s : nat) (src c' : Tensor4 R) :
  d4_1 c < s + d4_1 src ->
  slice_assign c B s (s + d4_1 src) src = Ok c' ->
  same4 c' c /\ (d4_1 src = 1 \/ d4_1 src = 0).
Proof.
  intros Hov. unfold slice_assign.
  destruct (expandable (d4_0 src) _); [|discriminate]. cbn [andb].
  destruct (expandable (d4_1 src) _) eqn:E1; [|discriminate]. cbn [andb].
  destruct (_ && _); [|discriminate].
  intros [= <-]. unfold expandable in E1.
  apply orb_true_iff in E1.
  assert (Hempty : Nat.min (s + d4_1 src) (d4_1 c) - Nat.min s (d4_1 c) = 0
                   /\ (d4_1 src = 1 \/ d4_1 src = 0)).
  { destruct E1 as [E1|E1]; apply Nat.eqb_eq in E1; lia. }
  destruct Hempty as [Hempty Hone].
  split; [|exact Hone].
  unfold same4. cbn [d4_0 d4_1 d4_2 d4_3 at4]. repeat split.
  intros b j hd i.
  destruct (Nat.ltb_spec b (Nat.min B (d4_0 c))); [|reflexivity].
  destruct (Nat.leb_spec (Nat.min s (d4_1 c)) j); [|reflexivity].
  destruct (Nat.ltb_spec j (Nat.min (s + d4_1 src) (d4_1 c))); [|reflexivity].
  lia.
Qed.

Lemma same4_refl (a : Tensor4 R) : same4 a a.
Proof. unfold same4. auto. Qed.

(** C10: a call of the attention's [forward] with batch B, length T and
    start position [start_pos] leaves every cache entry outside batch rows
    below B and positions [start_pos, start_pos + T) as it was, and keeps
    the shape of both caches; a call whose input's last dimension differs
    from [dim] fails on the first assertion with the object untouched. *)
Theorem C10_cache_frame :
  forall (self : SelfAttention.t) (x : Tensor3 R) (start_pos : nat)
         (freqs mask : pyval) (r : res (Tensor3 R)) (self' : SelfAttention.t),
    SelfAttention.forward self x start_pos freqs mask = (r, self') ->
    (forall b j hd i,
        ~ (b < d3_0 x /\ start_pos <= j < start_pos + d3_1 x) ->
        at4 (SelfAttention.k_cache self') b j hd i =
          at4 (SelfAttention.k_cache self) b j hd i /\
        at4 (SelfAttention.v_cache self') b j hd i =
          at4 (SelfAttention.v_cache self) b j hd i) /\
    (d4_0 (SelfAttention.k_cache self') = d4_0 (SelfAttention.k_cache self) /\
     d4_1 (SelfAttention.k_cache self') = d4_1 (SelfAttention.k_cache self) /\
     d4_0 (SelfAttention.v_cache self') = d4_0 (SelfAttention.v_cache self) /\
     d4_1 (SelfAttention.v_cache self') = d4_1 (SelfAttention.v_cache self)) /\
    (d3_2 x <> SelfAttention.dim self -> r = Raise AssertionError /\ self' = self).
Proof.
  intros self x s freqs mask r self'. unfold SelfAttention.forward.
  destruct (Nat.eqb_spec (d3_2 x) (SelfAttention.dim self)) as [HD|HD]; cbn [negb].
  2:{ intros [= <- <-]. repeat split; auto; congruence. }
  destruct (negb _).
  { intros [= <- <-]. repeat split; auto; congruence. }
  destruct (SelfAttention.project self x freqs) as [[[q k] v]|e].
  2:{ intros [= <- <-]. repeat split; auto; congruence. }
  destruct (slice_assign (SelfAttention.k_cache self) _ _ _ k) as [kc|e] eqn:Ek.
  2:{ intros [= <- <-]. repeat split; auto; congruence. }
  apply slice_assign_frame in Ek. destruct Ek as (K0 & K1 & K2 & K3 & Kf).
  cbn [SelfAttention.set_k_cache SelfAttention.v_cache].
  destruct (slice_assign (SelfAttention.v_cache self) _ _ _ v) as [vc|e] eqn:Ev.
  2:{ intros [= <- <-]. cbn. repeat split; auto; congruence. }
  apply slice_assign_frame in Ev. destruct Ev as (V0 & V1 & V2 & V3 & Vf).
  intros [= <- <-]. cbn. repeat split; auto; congruence.
Qed.

Lemma C10_cache_frame_witness :
  SelfAttention.forward Ex10.attn Ex10.x 1 Ex10.freqs PyNone
    = (Ok Ex10.out, Ex10.after) /\
  (at4 (SelfAttention.k_cache Ex10.after) 0 0 0 0 =
     at4 (SelfAttention.k_cache Ex10.attn) 0 0 0 0 /\
   at4 (SelfAttention.v_cache Ex10.after) 0 2 0 1 =
     at4 (SelfAttention.v_cache Ex10.attn) 0 2 0 1 /\
   at4 (SelfAttention.k_cache Ex10.after) 1 1 0 0 =
     at4 (SelfAttention.k_cache Ex10.attn) 1 1 0 0 /\
   at4 (SelfAttention.v_cache Ex10.after) 1 1 0 1 =
     at4 (SelfAttention.v_cache Ex10.attn) 1 1 0 1) /\
  (d4_0 (SelfAttention.k_cache Ex10.after) = 2 /\
   d4_1 (SelfAttention.k_cache Ex10.after) = 3) /\
  (at4 (SelfAttention.v_cache Ex10.attn) 0 1 0 0 = 0%R /\
   at4 (SelfAttention.v_cache Ex10.after) 0 1 0 0 = 1%R) /\
  fst (SelfAttention.forward Ex10.attn Ex10.wide 1 Ex10.freqs PyNone)
    = Raise AssertionError /\
  snd (SelfAttention.forward Ex10.attn Ex10.wide 1 Ex10.freqs PyNone)
    = Ex10.attn.
Proof.
  destruct (C10_cache_frame Ex10.attn Ex10.x 1 Ex10.freqs PyNone
              (Ok Ex10.out) Ex10.after) as (Hf & (K0 & K1 & _ & _) & _).
  { reflexivity. }
  destruct (C10_cache_frame Ex10.attn Ex10.wide 1 Ex10.freqs PyNone
              (fst (SelfAttention.forward Ex10.attn Ex10.wide 1 Ex10.freqs PyNone))
              (snd (SelfAttention.forward Ex10.attn Ex10.wide 1 Ex10.freqs PyNone)))
    as (_ & _ & Hbad).
  { apply surjective_pairing. }
  split; [reflexivity|].
  split; [|split; [|split; [split; [reflexivity|cbn; lra]|apply Hbad; simpl; lia]]].
  - split; [apply (Hf 0 0 0 0); simpl; lia|].
    split; [apply (Hf 0 2 0 1); simpl; lia|].
    split; [apply (Hf 1 1 0 0); simpl; lia|].
    apply (Hf 1 1 0 1); simpl; lia.
  - split; [rewrite K0; reflexivity|rewrite K1; reflexivity].
Defined.

(** ** Writing past the end of the cache *)

(** C4 as stated fails.  The object [Ex.after] has caches of 2 positions.  A one-token call of
    the attention at start position 2 writes position 2, beyond the last
    allocated one; it raises nothing and returns a tensor.  Likewise the
    model [ExM.model], whose caches hold 3 positions, returns logits for a
    one-token call at start position 3. *)
Lemma C4_counterexample :
  d4_1 (SelfAttention.k_cache Ex.after) < 2 + d3_1 Ex4.x /\
  SelfAttention.forward Ex.after Ex4.x 2 Ex4.freqs PyNone = (Ok Ex4.out, Ex4.after) /\
  Args.seq_len ExM.args < 3 + cols (token_slice ExM.toks 0 1) /\
  is_ok (fst (Transformer.forward ExM.model (token_slice ExM.toks 0 1) 3)) = true.
Proof.
  split; [simpl; lia|]. split; [reflexivity|].
  split; [simpl; lia|]. reflexivity.
Qed.

(** C4 (amended): a call of the attention's [forward] with
    [start_pos + T] beyond the allocated sequence length leaves the
    contents and the shape of both caches as they were.  When T is not 1
    the call raises an exception (at the latest the shape mismatch of the
    slice assignment); a one-token call may return normally. *)
Theorem C4_overflow_leaves_cache :
  forall (self : SelfAttention.t) (x : Tensor3 R) (start_pos : nat)
         (freqs mask : pyval) (r : res (Tensor3 R)) (self' : SelfAttention.t),
    d4_1 (SelfAttention.v_cache self) = d4_1 (SelfAttention.k_cache self) ->
    d4_1 (SelfAttention.k_cache self) < start_pos + d3_1 x ->
    SelfAttention.forward self x start_pos freqs mask = (r, self') ->
    same4 (SelfAttention.k_cache self') (SelfAttention.k_cache self) /\
    same4 (SelfAttention.v_cache self') (SelfAttention.v_cache self) /\
    (d3_1 x <> 1 -> is_ok r = false).
Proof.
  intros self x s freqs mask r self' Hkv Hov. unfold SelfAttention.forward.
  destruct (negb _).
  { intros [= <- <-]. auto using same4_refl. }
  destruct (negb _).
  { intros [= <- <-]. auto using same4_refl. }
  destruct (SelfAttention.project self x freqs) as [[[q k] v]|e] eqn:Ep.
  2:{ intros [= <- <-]. auto using same4_refl. }
  apply project_dims in Ep. destruct Ep as (_ & (_ & K1) & (_ & V1) & NZ).
  rewrite <- K1 at 1.
  destruct (slice_assign (SelfAttention.k_cache self) _ _ _ k) as [kc|e] eqn:Ek.
  2:{ intros [= <- <-]. auto using same4_refl. }
  apply slice_assign_overflow in Ek; [|lia]. destruct Ek as [Sk Tk].
  cbn [SelfAttention.set_k_cache SelfAttention.v_cache].
  rewrite <- V1 at 1.
  destruct (slice_assign (SelfAttention.v_cache self) _ _ _ v) as [vc|e] eqn:Ev.
  2:{ intros [= <- <-]. cbn. auto using same4_refl. }
  apply slice_assign_overflow in Ev; [|lia]. destruct Ev as [Sv Tv].
  intros [= <- <-]. cbn. repeat split; try apply Sk; try apply Sv.
  intros H1. exfalso. destruct Tk as [Tk|Tk]; [lia|].
  apply NZ. rewrite <- K1, Tk. lia.
Qed.

Lemma C4_overflow_leaves_cache_witness :
  same4 (SelfAttention.k_cache Ex4.after) (SelfAttention.k_cache Ex.after) /\
  same4 (SelfAttention.v_cache Ex4.after) (SelfAttention.v_cache Ex.after).
Proof.
  destruct (C4_overflow_leaves_cache Ex.after Ex4.x 2 Ex4.freqs PyNone
              (Ok Ex4.out) Ex4.after) as (Hk & Hv & _).
  - reflexivity.
  - simpl. lia.
  - reflexivity.
  - split; assumption.
Defined.

(** ** Element-wise description of the tensor operations *)

Lemma bdim_same (a : nat) : bdim a a = Some a.
Proof. unfold bdim. rewrite Nat.eqb_refl. reflexivity. Qed.

Lemma expandable_same (a : nat) : expandable a a = true.
Proof. unfold expandable. rewrite Nat.eqb_refl. reflexivity. Qed.

Lemma rsum_truncate (n m : nat) (f : nat -> R) :
  n <= m -> (forall k, n <= k < m -> f k = 0%R) -> rsum m f = rsum n f.
Proof.
  intros Hle. induction Hle as [|m Hle IH]; intros Hz.
  - reflexivity.
  - simpl. rewrite IH by (intros; apply Hz; lia).
    rewrite (Hz m) by lia. ring.
Qed.

Lemma flat_index (b p d B T n h : nat) :
  p < T -> d < n * h ->
  let f := (b * T + p) * (n * h) + d in
  f / (h * n * T) = b /\ (f / (h * n)) mod T = p /\
  (f / h) mod n = d / h /\ f mod h = d mod h.
Proof.
  intros Hp Hd f.
  assert (Hh : 0 < h) by nia.
  assert (Hn : 0 < n) by nia.
  pose proof (Nat.div_mod_eq d h) as Ed.
  pose proof (Nat.mod_upper_bound d h ltac:(lia)) as Ud.
  assert (Hq : d / h < n).
  { apply Nat.Div0.div_lt_upper_bound. lia. }
  assert (E1 : f / h = (b * T + p) * n + d / h).
  { symmetry. apply (Nat.div_unique f h _ (d mod h)); [lia|]. subst f. nia. }
  assert (E2 : f mod h = d mod h).
  { symmetry. apply (Nat.mod_unique f h ((b * T + p) * n + d / h)); [lia|].
    subst f. nia. }
  assert (E3 : f / (h * n) = b * T + p).
  { rewrite <- Nat.Div0.div_div, E1.
    symmetry. apply (Nat.div_unique _ n _ (d / h)); [lia|]. nia. }
  assert (E4 : (f / h) mod n = d / h).
  { rewrite E1. symmetry.
    apply (Nat.mod_unique _ n (b * T + p)); [lia|]. nia. }
  repeat split.
  - rewrite <- Nat.Div0.div_div, E3.
    symmetry. apply (Nat.div_unique _ T _ p); [lia|]. nia.
  - rewrite E3. symmetry. apply (Nat.mod_unique _ T b); [lia|]. nia.
  - exact E4.
  - exact E2.
Qed.

Lemma view3_ok (x : Tensor4 R) (B T n h : nat) :
  d4_0 x = B -> d4_1 x = T -> d4_2 x = n -> d4_3 x = h ->
  exists y,
    view3 x B T (n * h) = Ok y /\
    d3_0 y = B /\ d3_1 y = T /\ d3_2 y = n * h /\
    forall b p d, b < B -> p < T -> d < n * h ->
                  at3 y b p d = at4 x b p (d / h) (d mod h).
Proof.
  intros H0 H1 H2 H3. unfold view3. rewrite H0, H1, H2, H3.
  replace (B * T * n * h =? B * T * (n * h)) with true
    by (symmetry; apply Nat.eqb_eq; ring).
  eexists. split; [reflexivity|]. cbn [d3_0 d3_1 d3_2 at3]. repeat split.
  intros b p d Hb Hp Hd.
  destruct (flat_index b p d B T n h Hp Hd) as (E0 & E1 & E2 & E3).
  cbv zeta in E0, E1, E2, E3. rewrite E0, E1, E2, E3. reflexivity.
Qed.

Lemma matmul_ok (a b : Tensor4 R) :
  d4_3 a = d4_2 b -> d4_0 a = d4_0 b -> d4_1 a = d4_1 b ->
  exists y,
    matmul a b = Ok y /\
    d4_0 y = d4_0 a /\ d4_1 y = d4_1 a /\ d4_2 y = d4_2 a /\ d4_3 y = d4_3 b /\
    forall i0 i1 r c,
      i0 < d4_0 a -> i1 < d4_1 a ->
      at4 y i0 i1 r c =
      rsum (d4_3 a) (fun l => (at4 a i0 i1 r l * at4 b i0 i1 l c)%R).
Proof.
  intros H3 H0 H1. unfold matmul.
  rewrite H3, Nat.eqb_refl. cbn [negb]. rewrite H0, H1, !bdim_same.
  eexists. split; [reflexivity|]. cbn [d4_0 d4_1 d4_2 d4_3 at4]. repeat split.
  intros i0 i1 r c Hi0 Hi1.
  rewrite !bidx_in by lia. reflexivity.
Qed.

Lemma rep_tensor_at (x : Tensor4 R) (n : nat) :
  0 < n ->
  d4_0 (rep_tensor x n) = d4_0 x /\ d4_1 (rep_tensor x n) = d4_1 x /\
  d4_2 (rep_tensor x n) = d4_2 x * n /\ d4_3 (rep_tensor x n) = d4_3 x /\
  forall b j hd i, at4 (rep_tensor x n) b j hd i = at4 x b j (hd / n) i.
Proof.
  intros Hn. unfold rep_tensor.
  destruct (Nat.eqb_spec n 1) as [->|_].
  - repeat split; try lia. intros b j hd i. rewrite Nat.div_1_r. reflexivity.
  - repeat split.
Qed.

Lemma rope_ok (x : Tensor4 R) (f : Tensor2 C) (c : nat) :
  d4_0 x * d4_1 x * d4_2 x <> 0 ->
  d4_3 x = 2 * c -> rows f = d4_1 x -> cols f = c ->
  rope x (PyComplex f) =
  Ok (mkT4 (d4_0 x) (d4_1 x) (d4_2 x) (d4_3 x) (rotated x f)).
Proof.
  intros NZ Hh Hr Hc. unfold rope.
  destruct (Nat.eqb_spec (d4_0 x * d4_1 x * d4_2 x) 0); [contradiction|].
  rewrite Hh, Hr, Hc.
  replace (Nat.even (2 * c)) with true
    by (symmetry; rewrite Nat.even_mul; reflexivity).
  cbn [negb].
  replace (2 * c / 2) with c
    by (symmetry; rewrite Nat.mul_comm; apply Nat.div_mul; lia).
  rewrite !bdim_same.
  replace (d4_0 x * d4_1 x * d4_2 x * (c * 2) =? d4_0 x * d4_1 x * d4_2 x * (2 * c))
    with true by (symmetry; apply Nat.eqb_eq; ring).
  reflexivity.
Qed.

Lemma slice_assign_ok (c : Tensor4 R) (B s T : nat) (src : Tensor4 R)
    (bs L n h : nat) :
  WF.cache c bs L n h -> WF.cache src B T n h ->
  B <= bs -> s + T <= L ->
  exists c',
    slice_assign c B s (s + T) src = Ok c' /\
    WF.cache c' bs L n h /\
    (forall b j hd i,
        b < B -> s <= j < s + T -> hd < n -> i < h ->
        at4 c' b j hd i = at4 src b (j - s) hd i) /\
    (forall b j hd i,
        ~ (b < B /\ s <= j < s + T) -> at4 c' b j hd i = at4 c b j hd i).
Proof.
  intros (C0 & C1 & C2 & C3) (S0 & S1 & S2 & S3) HB HT.
  destruct (slice_assign c B s (s + T) src) as [c'|e] eqn:E.
  - exists c'. split; [reflexivity|].
    pose proof (slice_assign_frame _ _ _ _ _ _ E) as (F0 & F1 & F2 & F3 & Ff).
    split; [unfold WF.cache; repeat split; congruence|].
    split; [|exact Ff].
    unfold slice_assign in E. destruct (_ && _); [|discriminate].
    injection E as <-. cbn [at4].
    intros b j hd i Hb Hj Hhd Hi.
    rewrite C0, C1, S0, S1, S2, S3.
    replace (Nat.min B bs) with B by lia.
    replace (Nat.min s L) with s by lia.
    replace (Nat.min (s + T) L) with (s + T) by lia.
    destruct (Nat.ltb_spec b B); [|lia].
    destruct (Nat.leb_spec s j); [|lia].
    destruct (Nat.ltb_spec j (s + T)); [|lia].
    cbn [andb]. rewrite !bidx_in by lia. reflexivity.
  - exfalso. unfold slice_assign in E.
    rewrite C0, C1, C2, C3, S0, S1, S2, S3 in E.
    replace (Nat.min B bs) with B in E by lia.
    replace (Nat.min (s + T) L - Nat.min s L) with T in E by lia.
    rewrite !expandable_same in E. discriminate.
Qed.

(** ** Position-wise layers on a window of the sequence *)

Section Windows.
Variables B T s : nat.

Lemma linear_window (l : Linear.t) (x : Tensor3 R) (D O : nat)
    (X : nat -> nat -> nat -> R) :
  WF.linear l D O -> window x B T D s X ->
  exists y,
    Linear.forward l x = Ok y /\
    window y B T O s (fun b p => Ref.lin l (X b p)).
Proof.
  intros [Hi Ho] (H0 & H1 & H2 & Hx). unfold Linear.forward.
  rewrite H2, Hi, Nat.eqb_refl. cbn [negb].
  eexists. split; [reflexivity|].
  unfold window. cbn [d3_0 d3_1 d3_2 at3]. repeat split; try assumption.
  intros b p o Hb Hp Hoo. unfold Ref.lin. rewrite Hi.
  apply rsum_ext. intros d Hd. rewrite Hx by assumption. reflexivity.
Qed.

Lemma rms_window (n : RMSNorm.t) (x : Tensor3 R) (D : nat)
    (X : nat -> nat -> nat -> R) :
  RMSNorm.dim n = D -> window x B T D s X ->
  exists y,
    RMSNorm.forward n x = Ok y /\
    window y B T D s (fun b p => Ref.rms n D (X b p)).
Proof.
  intros Hn (H0 & H1 & H2 & Hx). unfold RMSNorm.forward.
  rewrite H2, Hn, bdim_same.
  eexists. split; [reflexivity|].
  unfold window. cbn [d3_0 d3_1 d3_2 at3]. repeat split; try assumption.
  intros b p d Hb Hp Hd. unfold Ref.rms. rewrite !bidx_in by assumption.
  rewrite Hx by assumption.
  rewrite (rsum_ext D (fun d' => (at3 x b p d' * at3 x b p d')%R)
             (fun d' => (X b (s + p)%nat d' * X b (s + p)%nat d')%R)).
  - reflexivity.
  - intros k Hk. rewrite Hx by assumption. reflexivity.
Qed.

Lemma tzip_window (op : R -> R -> R) (x y : Tensor3 R) (D : nat)
    (X Y : nat -> nat -> nat -> R) :
  window x B T D s X -> window y B T D s Y ->
  exists z,
    tzip op x y = Ok z /\
    window z B T D s (fun b p d => op (X b p d) (Y b p d)).
Proof.
  intros (H0 & H1 & H2 & Hx) (G0 & G1 & G2 & Hy). unfold tzip.
  rewrite H0, H1, H2, G0, G1, G2, !bdim_same.
  eexists. split; [reflexivity|].
  unfold window. cbn [d3_0 d3_1 d3_2 at3]. repeat split.
  intros b p d Hb Hp Hd. rewrite !bidx_in by assumption.
  rewrite Hx, Hy by assumption. reflexivity.
Qed.

Lemma tmap_window (f : R -> R) (x : Tensor3 R) (D : nat)
    (X : nat -> nat -> nat -> R) :
  window x B T D s X ->
  window (tmap f x) B T D s (fun b p d => f (X b p d)).
Proof.
  intros (H0 & H1 & H2 & Hx).
  unfold window, tmap. cbn [d3_0 d3_1 d3_2 at3]. repeat split; try assumption.
  intros b p d Hb Hp Hd. rewrite Hx by assumption. reflexivity.
Qed.

Lemma ffn_window (f : FFN.t) (x : Tensor3 R) (D : nat)
    (X : nat -> nat -> nat -> R) :
  WF.ffn D f -> window x B T D s X ->
  exists y,
    FFN.forward f x = Ok y /\
    window y B T D s (fun b p => Ref.ffn f (X b p)).
Proof.
  intros (W1 & W3 & W2) Hx. unfold FFN.forward, bind.
  destruct (linear_window _ _ _ _ _ W1 Hx) as (a & -> & Ha).
  destruct (linear_window _ _ _ _ _ W3 Hx) as (b & -> & Hb).
  pose proof (tmap_window silu a _ _ Ha) as Hs.
  destruct (tzip_window Rmult _ _ _ _ _ Hs Hb) as (g & -> & Hg).
  clear Hs Ha Hb Hx.
  destruct W2 as [Hi Ho]. destruct Hg as (G0 & G1 & G2 & Hg).
  unfold Linear.forward. rewrite G2, Hi, Nat.eqb_refl. cbn [negb].
  eexists. split; [reflexivity|].
  unfold window. cbn [d3_0 d3_1 d3_2 at3]. repeat split; try assumption.
  intros b0 p o Hb0 Hp Hoo. unfold Ref.ffn, Ref.lin at 1. rewrite Hi.
  apply rsum_ext. intros d Hd. rewrite Hg by assumption. reflexivity.
Qed.
End Windows.

(** ** One attention call on a window *)

Lemma masked_scores (attn : Tensor4 R) (T s : nat) :
  1 <= T -> d4_2 attn = T -> d4_3 attn = s + T ->
  exists y,
    add_mask attn (Transformer.build_mask T s) = Ok y /\
    d4_0 y = d4_0 attn /\ d4_1 y = d4_1 attn /\
    d4_2 y = d4_2 attn /\ d4_3 y = d4_3 attn /\
    forall b h p j,
      p < T -> j < s + T ->
      xexp (at4 y b h p j) =
      if j <=? s + p then exp (at4 attn b h p j) else 0%R.
Proof.
  intros HT H2 H3. unfold Transformer.build_mask.
  destruct (Nat.ltb_spec 1 T) as [Hgt|Hle].
  - unfold add_mask.
    change (rows (causal_mask T s)) with T.
    change (cols (causal_mask T s)) with (s + T).
    rewrite H2, H3, !expandable_same. cbn [andb].
    eexists. split; [reflexivity|]. cbn [d4_0 d4_1 d4_2 d4_3 at4].
    repeat split; try congruence.
    intros b h p j Hp Hj. rewrite !bidx_in by lia.
    unfold causal_mask. cbn [at2].
    destruct (Nat.ltb_spec j s).
    + destruct (Nat.leb_spec j (s + p)); [|lia].
      cbn [xadd xexp]. rewrite Rplus_0_r. reflexivity.
    + destruct (Nat.leb_spec (p + 1) (j - s));
        destruct (Nat.leb_spec j (s + p)); try lia.
      * reflexivity.
      * cbn [xadd xexp]. rewrite Rplus_0_r. reflexivity.
  - unfold add_mask.
    eexists. split; [reflexivity|]. cbn [d4_0 d4_1 d4_2 d4_3 at4].
    repeat split.
    intros b h p j Hp Hj.
    destruct (Nat.leb_spec j (s + p)); [|lia]. reflexivity.
Qed.

Lemma view4_ok (x : Tensor3 R) (n h : nat) :
  d3_2 x = n * h -> view4 x n h = Ok (view_heads x n h).
Proof.
  intros H. unfold view4. rewrite H, Nat.eqb_refl. reflexivity.
Qed.

Lemma slice_rows_in (tbl : Tensor2 C) (s T : nat) :
  s + T <= rows tbl ->
  rows (slice_rows tbl s (s + T)) = T /\
  cols (slice_rows tbl s (s + T)) = cols tbl /\
  forall p j, at2 (slice_rows tbl s (s + T)) p j = at2 tbl (s + p) j.
Proof.
  intros H. unfold slice_rows. cbn [rows cols at2].
  repeat split; try lia.
  intros p j. replace (Nat.min s (rows tbl)) with s by lia. reflexivity.
Qed.

Lemma pair_index (i c : nat) :
  i < 2 * c -> i / 2 < c /\ 2 * (i / 2) < 2 * c /\ 2 * (i / 2) + 1 < 2 * c.
Proof.
  intros H.
  assert (i / 2 < c) by (apply Nat.Div0.div_lt_upper_bound; lia).
  lia.
Qed.

Section AttentionCall.
Variables (bs L D c : nat) (a : SelfAttention.t) (tbl : Tensor2 C).
Variables (B T s : nat) (x : Tensor3 R) (X : nat -> nat -> nat -> R).

Hypothesis Hwf : WF.attention bs L D c a.
Hypothesis Hx : window x B T D s X.
Hypothesis HB : 1 <= B.
Hypothesis HT : 1 <= T.
Hypothesis Htbl : s + T <= rows tbl.
Hypothesis Hcols : cols tbl = c.

Let n_q := SelfAttention.n_q_heads a.
Let n_kv := SelfAttention.n_kv_heads a.
Let h := SelfAttention.h_size a.

Lemma project_window :
  exists q k v,
    SelfAttention.project a x (PyComplex (slice_rows tbl s (s + T)))
      = Ok (q, k, v) /\
    WF.cache q B T n_q h /\ WF.cache k B T n_kv h /\ WF.cache v B T n_kv h /\
    (forall b p hd i,
        b < B -> p < T -> hd < n_q -> i < h ->
        at4 q b p hd i = Ref.query a tbl (X b) (s + p) hd i) /\
    (forall b p kvh i,
        b < B -> p < T -> kvh < n_kv -> i < h ->
        at4 v b p kvh i = Ref.value a (X b) (s + p) kvh i).
Proof.
  destruct Hwf as (Hd & HD & Hh & Hq & Hkv & Hrep & Wq & Wk & Wv & Wo & Ck & Cv).
  fold n_q n_kv h in HD, Hh, Hq, Hkv, Wq, Wk, Wv, Wo, Ck, Cv.
  destruct (slice_rows_in tbl s T Htbl) as (Fr & Fc & Fat).
  unfold SelfAttention.project, bind.
  destruct (linear_window _ _ _ _ _ _ _ _ Wq Hx) as (q0 & -> & Q0).
  destruct (linear_window _ _ _ _ _ _ _ _ Wk Hx) as (k0 & -> & K0).
  destruct (linear_window _ _ _ _ _ _ _ _ Wv Hx) as (v0 & -> & V0).
  destruct Q0 as (Q00 & Q01 & Q02 & Qat).
  destruct K0 as (K00 & K01 & K02 & Kat).
  destruct V0 as (V00 & V01 & V02 & Vat).
  fold n_q n_kv h.
  rewrite (view4_ok q0 n_q h Q02), (view4_ok k0 n_kv h K02),
          (view4_ok v0 n_kv h V02).
  assert (Hnq : 0 < n_q) by nia.
  rewrite (rope_ok (view_heads q0 n_q h) (slice_rows tbl s (s + T)) c);
    cbn [view_heads d4_0 d4_1 d4_2 d4_3]; try congruence.
  2:{ rewrite Q00, Q01. nia. }
  rewrite (rope_ok (view_heads k0 n_kv h) (slice_rows tbl s (s + T)) c);
    cbn [view_heads d4_0 d4_1 d4_2 d4_3]; try congruence.
  2:{ rewrite K00, K01. nia. }
  eexists _, _, _. split; [reflexivity|].
  unfold WF.cache. cbn [d4_0 d4_1 d4_2 d4_3 at4].
  repeat split; try assumption.
  - intros b p hd i Hb Hp Hhd Hi.
    unfold rotated, Ref.query, Ref.rot. cbn [at4].
    destruct (pair_index i c ltac:(lia)) as (P0 & P1 & P2).
    rewrite Fr, Fc, Hcols, !bidx_in by lia. rewrite Fat.
    unfold view_heads. cbn [at4]. fold h.
    rewrite !Qat by (try assumption; nia).
    reflexivity.
  - intros b p kvh i Hb Hp Hkvh Hi.
    unfold Ref.value, view_heads. cbn [at4]. fold h.
    rewrite Vat by (try assumption; nia). reflexivity.
Qed.
End AttentionCall.

Lemma softmax_prefix (q m : nat) (e v : nat -> R) :
  q < m ->
  rsum m (fun j =>
            ((if j <=? q then e j else 0)
             / rsum m (fun k => if k <=? q then e k else 0) * v j)%R)
  = rsum (S q) (fun j => (e j / rsum (S q) e * v j)%R).
Proof.
  intros Hq.
  assert (Hden : rsum m (fun k => if k <=? q then e k else 0%R) = rsum (S q) e).
  { rewrite (rsum_truncate (S q) m).
    - apply rsum_ext. intros k Hk.
      destruct (Nat.leb_spec k q); [reflexivity|lia].
    - lia.
    - intros k Hk. destruct (Nat.leb_spec k q); [lia|reflexivity]. }
  rewrite Hden.
  rewrite (rsum_truncate (S q) m).
  - apply rsum_ext. intros j Hj.
    destruct (Nat.leb_spec j q); [reflexivity|lia].
  - lia.
  - intros k Hk. destruct (Nat.leb_spec k q); [lia|].
    unfold Rdiv. ring.
Qed.

Section Attend.
Variables (bs L D c : nat) (a : SelfAttention.t) (tbl : Tensor2 C).
Variables (B T s : nat) (q : Tensor4 R) (X : nat -> nat -> nat -> R).

Let n_q := SelfAttention.n_q_heads a.
Let n_kv := SelfAttention.n_kv_heads a.
Let h := SelfAttention.h_size a.

Hypothesis Hwf : WF.attention bs L D c a.
Hypothesis HB : 1 <= B <= bs.
Hypothesis HT : 1 <= T.
Hypothesis HL : s + T <= L.
Hypothesis Hq : WF.cache q B T n_q h.
Hypothesis Hqat :
  forall b p hd i,
    b < B -> p < T -> hd < n_q -> i < h ->
    at4 q b p hd i = Ref.query a tbl (X b) (s + p) hd i.
Hypothesis Hcached : cached a B (s + T) X.

Lemma attend_window :
  exists o,
    SelfAttention.attend a q B T (s + T) (Transformer.build_mask T s) = Ok o /\
    window o B T D s (fun b => Ref.attention a tbl (X b)).
Proof.
  destruct Hwf as (Hd & HD & Hh & Hnq & Hkv & Hrep & Wq & Wk & Wv & Wo & Ck & Cv).
  fold n_q n_kv h in HD, Hh, Hnq, Hkv, Wq, Wk, Wv, Wo, Ck, Cv.
  destruct Hq as (Q0 & Q1 & Q2 & Q3).
  destruct Cv as (V0 & V1 & V2 & V3).
  unfold SelfAttention.attend, SelfAttention.weights, SelfAttention.scores, bind.
  unfold SelfAttention.keys, SelfAttention.values.
  set (kv := slice_read (SelfAttention.v_cache a) B (s + T)).
  assert (KV : WF.cache kv B (s + T) n_kv h).
  { unfold WF.cache, kv, slice_read. cbn [d4_0 d4_1 d4_2 d4_3].
    rewrite V0, V1. repeat split; try assumption; lia. }
  destruct KV as (KV0 & KV1 & KV2 & KV3).
  destruct (rep_tensor_at kv _ Hrep) as (R0 & R1 & R2 & R3 & Rat).
  set (rep := rep_tensor kv (SelfAttention.n_rep a)) in *.
  (* scores *)
  destruct (matmul_ok (transpose12 q) (transpose_last (transpose12 rep)))
    as (attn0 & -> & A0 & A1 & A2 & A3 & Aat);
    cbn [transpose12 transpose_last d4_0 d4_1 d4_2 d4_3]; try congruence.
  cbn [transpose12 transpose_last d4_0 d4_1 d4_2 d4_3 at4] in A0, A1, A2, A3, Aat.
  destruct (masked_scores (scale attn0 (sqrt (INR (SelfAttention.h_size a)))) T s HT)
    as (y & -> & Y0 & Y1 & Y2 & Y3 & Yat);
    cbn [scale d4_0 d4_1 d4_2 d4_3]; try congruence.
  cbn [scale d4_0 d4_1 d4_2 d4_3 at4] in Y0, Y1, Y2, Y3, Yat.
  (* weights times values *)
  destruct (matmul_ok (softmax y) (transpose12 rep))
    as (m & -> & M0 & M1 & M2 & M3 & Mat);
    cbn [softmax transpose12 d4_0 d4_1 d4_2 d4_3]; try congruence.
  cbn [softmax transpose12 d4_0 d4_1 d4_2 d4_3 at4] in M0, M1, M2, M3, Mat.
  destruct (view3_ok (transpose12 m) B T n_q h)
    as (y3 & E3 & Z0 & Z1 & Z2 & Zat);
    cbn [transpose12 d4_0 d4_1 d4_2 d4_3]; try congruence.
  fold n_q h. rewrite E3.
  cbn [transpose12 at4] in Zat.
  destruct Wo as [Woi Woo].
  unfold Linear.forward. rewrite Z2, Woi, Nat.eqb_refl. cbn [negb].
  eexists. split; [reflexivity|].
  unfold window. cbn [d3_0 d3_1 d3_2 at3]. repeat split; try congruence.
  intros b p d Hb Hp Hdd.
  unfold Ref.attention. fold n_q h.
  apply rsum_ext. intros cc Hcc. f_equal.
  rewrite Zat by assumption.
  assert (Hh0 : 0 < h) by nia.
  assert (Hhd : cc / h < n_q) by (apply Nat.Div0.div_lt_upper_bound; lia).
  assert (Hi : cc mod h < h) by (apply Nat.mod_upper_bound; lia).
  set (hd := cc / h) in *. set (i := cc mod h) in *.
  assert (Hkvh : hd / SelfAttention.n_rep a < n_kv).
  { apply Nat.Div0.div_lt_upper_bound. lia. }
  assert (Hval : forall j l, j < s + T -> l < h ->
            at4 rep b j hd l =
            Ref.value a (X b) j (hd / SelfAttention.n_rep a) l).
  { intros j l Hj Hl. rewrite Rat. unfold kv, slice_read. cbn [at4].
    apply Hcached; assumption. }
  assert (Hsc : forall j, j < s + T ->
            (at4 attn0 b hd p j * sqrt (INR h))%R =
            Ref.score a tbl (X b) hd (s + p) j).
  { intros j Hj. rewrite Aat by lia. unfold Ref.score. fold h. f_equal.
    rewrite Q3. apply rsum_ext. intros l Hl.
    rewrite Hqat, Hval by assumption. reflexivity. }
  rewrite Mat by lia. rewrite Y3, A3, R1, KV1.
  rewrite (rsum_ext (s + T) _
             (fun j =>
                ((if j <=? s + p
                  then exp (Ref.score a tbl (X b) hd (s + p) j) else 0)
                 / rsum (s + T)
                     (fun k => if k <=? s + p
                               then exp (Ref.score a tbl (X b) hd (s + p) k)
                               else 0)
                 * Ref.value a (X b) j (hd / SelfAttention.n_rep a) i)%R)).
  - unfold Ref.ctx. fold h. apply softmax_prefix. lia.
  - intros j Hj. rewrite Hval by assumption.
    rewrite Yat by assumption. f_equal. f_equal.
    + destruct (j <=? s + p); [|reflexivity]. rewrite Hsc by assumption.
      reflexivity.
    + apply rsum_ext. intros k Hk. rewrite Yat by assumption.
      destruct (k <=? s + p); [|reflexivity]. rewrite Hsc by assumption.
      reflexivity.
Qed.
End Attend.

Section AttentionForward.
Variables (bs L D c : nat) (a : SelfAttention.t) (tbl : Tensor2 C).
Variables (B T s : nat) (x : Tensor3 R) (X : nat -> nat -> nat -> R).

Hypothesis Hwf : WF.attention bs L D c a.
Hypothesis Hx : window x B T D s X.
Hypothesis HB : 1 <= B <= bs.
Hypothesis HT : 1 <= T.
Hypothesis HL : s + T <= L.
Hypothesis Htbl : s + T <= rows tbl.
Hypothesis Hcols : cols tbl = c.
Hypothesis Hcached : cached a B s X.

Lemma attention_window :
  exists o a',
    SelfAttention.forward a x s (PyComplex (slice_rows tbl s (s + T)))
      (Transformer.build_mask T s) = (Ok o, a') /\
    window o B T D s (fun b => Ref.attention a tbl (X b)) /\
    same_weights a a' /\
    WF.attention bs L D c a' /\
    cached a' B (s + T) X.
Proof.
  destruct (project_window bs L D c a tbl B T s x X Hwf Hx ltac:(lia) HT Htbl Hcols)
    as (q & k & v & Ep & Cq & Ck & Cv & Qat & Vat).
  pose proof Hwf as
    (Hd & HD & Hh & Hnq & Hkv & Hrep & Wq & Wk & Wv & Wo & Kc & Vc).
  destruct Hx as (X0 & X1 & X2 & Xat).
  unfold SelfAttention.forward.
  rewrite X2, Hd, Nat.eqb_refl. cbn [negb].
  replace (D =? SelfAttention.n_q_heads a * SelfAttention.h_size a) with true
    by (symmetry; apply Nat.eqb_eq; exact HD).
  cbn [negb].
  rewrite Ep, X0, X1.
  destruct (slice_assign_ok _ B s T k bs L _ _ Kc Ck ltac:(lia) HL)
    as (kc & -> & Kc' & _ & _).
  cbn [SelfAttention.set_k_cache SelfAttention.v_cache].
  destruct (slice_assign_ok _ B s T v bs L _ _ Vc Cv ltac:(lia) HL)
    as (vc & -> & Vc' & Vin & Vout).
  set (a2 := SelfAttention.set_v_cache (SelfAttention.set_k_cache a kc) vc).
  assert (Hwf2 : WF.attention bs L D c a2).
  { unfold WF.attention, a2. cbn. repeat split; try assumption.
    all: try apply Wq; try apply Wk; try apply Wv; try apply Wo.
    all: try apply Kc'; try apply Vc'. }
  assert (Hc2 : cached a2 B (s + T) X).
  { intros b j kvh i Hb Hj Hkvh Hi. cbn in Hkvh, Hi |- *.
    destruct (Nat.lt_ge_cases j s) as [Hlt|Hge].
    - rewrite Vout by lia. apply Hcached; assumption.
    - rewrite Vin by (try assumption; lia). rewrite Vat by (try assumption; lia).
      replace (s + (j - s)) with j by lia. reflexivity. }
  destruct (attend_window bs L D c a2 tbl B T s q X Hwf2 HB HT HL Cq Qat Hc2)
    as (o & -> & Ho).
  exists o, a2.
  split; [reflexivity|]. split; [exact Ho|].
  split; [|split; assumption].
  unfold same_weights. cbn. repeat split.
Qed.
End AttentionForward.

Lemma ref_attention_same (a a' : SelfAttention.t) (tbl : Tensor2 C)
    (X : nat -> nat -> R) (p d : nat) :
  same_weights a a' -> Ref.attention a' tbl X p d = Ref.attention a tbl X p d.
Proof.
  intros (E0 & E1 & E2 & E3 & E4 & E5 & E6 & E7 & E8).
  unfold Ref.attention, Ref.ctx, Ref.score, Ref.query, Ref.value.
  rewrite E1, E3, E4, E5, E7, E8. reflexivity.
Qed.

Lemma ref_value_same (a a' : SelfAttention.t) (X : nat -> nat -> R)
    (j kvh i : nat) :
  same_weights a a' -> Ref.value a' X j kvh i = Ref.value a X j kvh i.
Proof.
  intros (E0 & E1 & E2 & E3 & E4 & E5 & E6 & E7 & E8).
  unfold Ref.value. rewrite E4, E7. reflexivity.
Qed.

Section BlockForward.
Variables (bs L D c : nat) (blk : TransformerBlock.t) (tbl : Tensor2 C).
Variables (B T s : nat) (x : Tensor3 R) (X : nat -> nat -> nat -> R).

Hypothesis Hwf : WF.block bs L D c blk.
Hypothesis Hx : window x B T D s X.
Hypothesis HB : 1 <= B <= bs.
Hypothesis HT : 1 <= T.
Hypothesis HL : s + T <= L.
Hypothesis Htbl : s + T <= rows tbl.
Hypothesis Hcols : cols tbl = c.
Hypothesis Hcached :
  cached (TransformerBlock.attention blk) B s
    (fun b p => Ref.rms (TransformerBlock.attn_norm blk) D (X b p)).

Lemma block_window :
  exists o blk',
    TransformerBlock.forward blk x s (Transformer.build_mask T s)
      (PyComplex (slice_rows tbl s (s + T))) = (Ok o, blk') /\
    window o B T D s (fun b => Ref.block blk tbl (X b)) /\
    same_weights_block blk blk' /\
    WF.block bs L D c blk' /\
    cached (TransformerBlock.attention blk') B (s + T)
      (fun b p => Ref.rms (TransformerBlock.attn_norm blk) D (X b p)).
Proof.
  destruct Hwf as (Wa & Wn1 & Wn2 & Wf).
  unfold TransformerBlock.forward.
  destruct (rms_window B T s _ x D X Wn1 Hx) as (n & -> & Hn).
  destruct (attention_window bs L D c _ tbl B T s n _ Wa Hn HB HT HL Htbl
              Hcols Hcached) as (o1 & a' & -> & Ho1 & Sw & Wa' & Hc').
  unfold bind. cbn [TransformerBlock.set_attention TransformerBlock.ffn_norm
                    TransformerBlock.ffn].
  destruct (tzip_window B T s Rplus x o1 D _ _ Hx Ho1) as (x_ & -> & Hx_).
  destruct (rms_window B T s _ x_ D _ Wn2 Hx_) as (n2 & -> & Hn2).
  destruct (ffn_window B T s _ n2 D _ Wf Hn2) as (f & -> & Hf).
  destruct (tzip_window B T s Rplus x_ f D _ _ Hx_ Hf) as (o & -> & Ho).
  eexists _, _. split; [reflexivity|].
  split; [|split; [|split]].
  - destruct Ho as (O0 & O1 & O2 & Oat).
    unfold window. repeat split; try assumption.
    intros b p d Hb Hp Hd. rewrite Oat by assumption.
    unfold Ref.block. rewrite Wn1. reflexivity.
  - unfold same_weights_block. cbn. auto.
  - unfold WF.block. cbn. auto.
  - cbn. intros b j kvh i Hb Hj Hkvh Hi.
    rewrite Hc' by assumption. reflexivity.
Qed.
End BlockForward.

(** ** The stack of layers and the whole model on a window *)

Lemma window_ext (x : Tensor3 R) (B T D s : nat)
    (X X' : nat -> nat -> nat -> R) :
  window x B T D s X ->
  (forall b p d, X b p d = X' b p d) ->
  window x B T D s X'.
Proof.
  intros (H0 & H1 & H2 & Hat) HX. unfold window. repeat split; try assumption.
  intros b p d Hb Hp Hd. rewrite Hat by assumption. apply HX.
Qed.

Lemma same_weights_refl (a : SelfAttention.t) : same_weights a a.
Proof. unfold same_weights. repeat split. Qed.

Lemma same_weights_trans (a b c : SelfAttention.t) :
  same_weights a b -> same_weights b c -> same_weights a c.
Proof.
  unfold same_weights.
  intros (E0 & E1 & E2 & E3 & E4 & E5 & E6 & E7 & E8)
         (F0 & F1 & F2 & F3 & F4 & F5 & F6 & F7 & F8).
  repeat split; congruence.
Qed.

Lemma same_weights_block_refl (b : TransformerBlock.t) : same_weights_block b b.
Proof. unfold same_weights_block. auto using same_weights_refl. Qed.

Lemma same_weights_block_trans (a b c : TransformerBlock.t) :
  same_weights_block a b -> same_weights_block b c -> same_weights_block a c.
Proof.
  intros (S1 & E1 & E2 & E3) (S2 & F1 & F2 & F3).
  unfold same_weights_block.
  split; [exact (same_weights_trans _ _ _ S1 S2)|].
  repeat split; congruence.
Qed.

Lemma ref_block_same (b b' : TransformerBlock.t) (tbl : Tensor2 C)
    (X : nat -> nat -> R) (p d : nat) :
  same_weights_block b b' -> Ref.block b' tbl X p d = Ref.block b tbl X p d.
Proof.
  intros (Sw & E1 & E2 & E3). unfold Ref.block. rewrite E1, E2, E3.
  set (xn := fun p' => Ref.rms (TransformerBlock.attn_norm b) _ (X p')).
  assert (E : (fun d' => (X p d' + Ref.attention (TransformerBlock.attention b')
                                     tbl xn p d')%R)
              = (fun d' => (X p d' + Ref.attention (TransformerBlock.attention b)
                                       tbl xn p d')%R)).
  { apply functional_extensionality. intros d'.
    rewrite (ref_attention_same _ _ _ _ _ _ Sw). reflexivity. }
  rewrite E. rewrite (ref_attention_same _ _ _ _ _ _ Sw). reflexivity.
Qed.

Lemma cached_same (a a' : SelfAttention.t) (B s : nat)
    (X : nat -> nat -> nat -> R) :
  same_weights a a' ->
  (forall b j kvh i,
      b < B -> j < s ->
      kvh < SelfAttention.n_kv_heads a -> i < SelfAttention.h_size a ->
      at4 (SelfAttention.v_cache a') b j kvh i = Ref.value a (X b) j kvh i) ->
  cached a' B s X.
Proof.
  intros Sw H b j kvh i Hb Hj Hkvh Hi.
  rewrite (ref_value_same a a') by exact Sw.
  destruct Sw as (_ & _ & E2 & _ & E4 & _).
  apply H; congruence.
Qed.

Section Layers.
Variables (bs L D : nat) (tbl : Tensor2 C) (B T : nat).
Hypothesis HB : 1 <= B <= bs.
Hypothesis HT : 1 <= T.

Lemma layers_window (ls0 : list TransformerBlock.t) :
  forall (ls : list TransformerBlock.t) (s : nat) (x : Tensor3 R)
         (X : nat -> nat -> nat -> R),
    s + T <= L -> s + T <= rows tbl ->
    session bs L D tbl ls0 ls B s X ->
    window x B T D s X ->
    exists o ls',
      Transformer.run_layers ls x s (Transformer.build_mask T s)
        (PyComplex (slice_rows tbl s (s + T))) = (Ok o, ls') /\
      window o B T D s (fun b => Ref.layers ls0 tbl (X b)) /\
      session bs L D tbl ls0 ls' B (s + T) X.
Proof.
  induction ls0 as [|l0 r0 IH]; intros [|l r] s x X HL Htbl Hs Hx;
    cbn [session] in Hs; try contradiction.
  - exists x, []. cbn. auto.
  - destruct Hs as (Sw & Wf & Hc & Hs).
    pose proof Sw as (_ & En & _ & _).
    rewrite <- En in Hc.
    destruct (block_window bs L D (cols tbl) l tbl B T s x X Wf Hx HB HT HL
                Htbl eq_refl Hc) as (o1 & l' & E1 & Ho1 & Sw' & Wf' & Hc').
    cbn [Transformer.run_layers]. rewrite E1.
    assert (Ho1' : window o1 B T D s (fun b => Ref.block l0 tbl (X b))).
    { apply (window_ext _ _ _ _ _ _ _ Ho1).
      intros b p d. apply ref_block_same. exact Sw. }
    destruct (IH r s o1 _ HL Htbl Hs Ho1') as (o & r' & -> & Ho & Hs').
    exists o, (l' :: r'). split; [reflexivity|]. split; [exact Ho|].
    cbn [session]. rewrite En in Hc'.
    split; [exact (same_weights_block_trans _ _ _ Sw Sw')|].
    split; [exact Wf'|]. split; [exact Hc'|exact Hs'].
Qed.
End Layers.

Lemma session_start (bs L D : nat) (tbl : Tensor2 C) (B : nat)
    (ls : list TransformerBlock.t) :
  Forall (WF.block bs L D (cols tbl)) ls ->
  forall X, session bs L D tbl ls ls B 0 X.
Proof.
  induction 1 as [|l r Hl Hr IH]; intros X; cbn [session].
  - exact I.
  - split; [apply same_weights_block_refl|].
    split; [exact Hl|]. split; [|apply IH].
    intros b j kvh i Hb Hj. lia.
Qed.

Lemma embed_window (m : Transformer.t) (toks : Tensor2 nat) (s T : nat) :
  (forall b p, b < rows toks -> p < T ->
               at2 toks b (s + p) < Transformer.vocab_size m) ->
  exists x,
    Transformer.embed m (token_slice toks s T) = Ok x /\
    window x (rows toks) T (Args.dim (Transformer.args m)) s
      (fun b p d => Transformer.tok_embeddings m (at2 toks b p) d).
Proof.
  intros Hin. unfold Transformer.embed.
  replace (forallb _ _) with true.
  - eexists. split; [reflexivity|].
    unfold window. cbn. repeat split.
  - symmetry. apply forallb_forall. intros b Hb. apply in_seq in Hb.
    apply forallb_forall. intros p Hp. apply in_seq in Hp.
    cbn in Hb, Hp |- *. apply Nat.ltb_lt. apply Hin; lia.
Qed.

Section ModelForward.
Variables (bs L : nat) (m0 : Transformer.t) (toks : Tensor2 nat).

Let D := Args.dim (Transformer.args m0).
Let V := Transformer.vocab_size m0.
Let B := rows toks.
Let X0 := fun b p d => Transformer.tok_embeddings m0 (at2 toks b p) d.

Hypothesis Hwf : WF.model bs L m0.
Hypothesis HB : 1 <= B <= bs.

Lemma forward_window (ls : list TransformerBlock.t) (s T : nat) :
  1 <= T -> s + T <= L ->
  (forall b p, b < B -> p < s + T -> at2 toks b p < V) ->
  session bs L D (Transformer.freqs m0) (Transformer.layers m0) ls B s X0 ->
  exists lg ls',
    Transformer.forward (Transformer.set_layers m0 ls) (token_slice toks s T) s
      = (Ok lg, Transformer.set_layers m0 ls') /\
    window lg B T V s (fun b => Ref.logits m0 (at2 toks b)) /\
    session bs L D (Transformer.freqs m0) (Transformer.layers m0) ls' B (s + T) X0.
Proof.
  intros HT HL Hin Hs.
  destruct Hwf as (Wl & Wn & Wo & Wr). fold D in Wl, Wn, Wo.
  unfold Transformer.forward.
  destruct (embed_window (Transformer.set_layers m0 ls) toks s T)
    as (x & -> & Hx).
  { intros b p Hb Hp. apply Hin; [exact Hb|lia]. }
  cbn [Transformer.set_layers Transformer.freqs Transformer.layers
       Transformer.norm Transformer.out Transformer.args
       Transformer.tok_embeddings token_slice cols] in Hx |- *.
  destruct (layers_window bs L D (Transformer.freqs m0) B T HB HT
              (Transformer.layers m0) ls s x X0 HL ltac:(lia) Hs Hx)
    as (o & ls' & -> & Ho & Hs').
  unfold bind.
  destruct (rms_window B T s _ o D _ Wn Ho) as (n & -> & Hn).
  destruct (linear_window B T s _ n D V _ Wo Hn) as (lg & -> & Hlg).
  exists lg, ls'. split; [reflexivity|]. split; [|exact Hs'].
  exact Hlg.
Qed.

Lemma decode_window (n : nat) :
  forall (ls : list TransformerBlock.t) (pos : nat),
    pos + n <= L ->
    (forall b p, b < B -> p < pos + n -> at2 toks b p < V) ->
    session bs L D (Transformer.freqs m0) (Transformer.layers m0) ls B pos X0 ->
    exists steps ls',
      decode (Transformer.set_layers m0 ls) toks pos n
        = (Ok steps, Transformer.set_layers m0 ls') /\
      length steps = n /\
      forall i, i < n ->
        exists lg,
          nth_error steps i = Some lg /\
          window lg B 1 V (pos + i) (fun b => Ref.logits m0 (at2 toks b)).
Proof.
  induction n as [|n IH]; intros ls pos HL Hin Hs.
  - exists [], ls. cbn. repeat split. intros i Hi. lia.
  - cbn [decode].
    destruct (forward_window ls pos 1 ltac:(lia) ltac:(lia)) as
      (lg & ls1 & -> & Hlg & Hs1); try assumption.
    { intros b p Hb Hp. apply Hin; [exact Hb|lia]. }
    replace (pos + 1) with (S pos) in Hs1 by lia.
    destruct (IH ls1 (S pos) ltac:(lia)) as (steps & ls' & -> & Hlen & Hst);
      try assumption.
    { intros b p Hb Hp. apply Hin; [exact Hb|lia]. }
    exists (lg :: steps), ls'. cbn. repeat split; [congruence|].
    intros [|i] Hi.
    + exists lg. split; [reflexivity|].
      replace (pos + 0) with pos by lia. exact Hlg.
    + destruct (Hst i ltac:(lia)) as (lg' & E & W).
      exists lg'. split; [exact E|].
      replace (pos + S i) with (S pos + i) by lia. exact W.
Qed.
End ModelForward.

(** ** Incremental decoding *)

Lemma set_layers_same (m : Transformer.t) :
  Transformer.set_layers m (Transformer.layers m) = m.
Proof. destruct m. reflexivity. Qed.

(** C1: for a model with caches of [bs] rows and [L] positions, a batch of
    [B <= bs] token rows, a prompt of [P >= 1] tokens and [n] further
    tokens with [P + n <= L]: one [forward] call on the whole sequence at
    start position 0, and a [forward] call on the prompt at start position
    0 followed by [n] one-token calls at the positions P, P+1, ..., all
    return, and the logits of the prompt call and of each one-token call
    are, position by position, those of the call on the whole sequence
    (equal as real numbers). *)
Theorem C1_incremental_decode_matches_full :
  forall (bs L : nat) (m : Transformer.t) (toks : Tensor2 nat) (P n : nat),
    WF.model bs L m ->
    1 <= rows toks <= bs ->
    1 <= P ->
    P + n <= L ->
    (forall b p, b < rows toks -> p < P + n ->
                 at2 toks b p < Transformer.vocab_size m) ->
    exists full m_full pre m1 steps m2,
      Transformer.forward m (token_slice toks 0 (P + n)) 0 = (Ok full, m_full) /\
      Transformer.forward m (token_slice toks 0 P) 0 = (Ok pre, m1) /\
      decode m1 toks P n = (Ok steps, m2) /\
      length steps = n /\
      (d3_0 full = rows toks /\ d3_1 full = P + n /\
       d3_2 full = Transformer.vocab_size m) /\
      (d3_0 pre = rows toks /\ d3_1 pre = P /\
       d3_2 pre = Transformer.vocab_size m) /\
      (forall b p v,
          b < rows toks -> p < P -> v < Transformer.vocab_size m ->
          at3 pre b p v = at3 full b p v) /\
      (forall i, i < n ->
         exists lg,
           nth_error steps i = Some lg /\
           (d3_0 lg = rows toks /\ d3_1 lg = 1 /\
            d3_2 lg = Transformer.vocab_size m) /\
           forall b v,
             b < rows toks -> v < Transformer.vocab_size m ->
             at3 lg b 0 v = at3 full b (P + i) v).
Proof.
  intros bs L m toks P n Hwf HB HP HL Hin.
  pose proof (proj1 Hwf) as Wl.
  pose proof (session_start bs L _ (Transformer.freqs m) (rows toks) _ Wl
                (fun b p d => Transformer.tok_embeddings m (at2 toks b p) d))
    as Hs0.
  destruct (forward_window bs L m toks Hwf HB (Transformer.layers m) 0 (P + n)
              ltac:(lia) ltac:(lia) Hin Hs0) as (full & lsf & Ef & Wf & _).
  destruct (forward_window bs L m toks Hwf HB (Transformer.layers m) 0 P
              HP ltac:(lia)) as (pre & ls1 & Ep & Wp & Hs1); try assumption.
  { intros b p Hb Hp. apply Hin; [exact Hb|lia]. }
  destruct (decode_window bs L m toks Hwf HB n ls1 P HL Hin Hs1)
    as (steps & ls2 & Ed & Hlen & Hst).
  rewrite set_layers_same in Ef, Ep.
  exists full, (Transformer.set_layers m lsf), pre,
         (Transformer.set_layers m ls1), steps, (Transformer.set_layers m ls2).
  destruct Wf as (F0 & F1 & F2 & Fat). destruct Wp as (P0 & P1 & P2 & Pat).
  repeat split; try assumption.
  - intros b p v Hb Hp Hv. rewrite Pat by assumption.
    rewrite Fat by (try assumption; lia). reflexivity.
  - intros i Hi. destruct (Hst i Hi) as (lg & E & (G0 & G1 & G2 & Gat)).
    exists lg. repeat split; try assumption.
    intros b v Hb Hv. rewrite Gat by (try assumption; lia).
    rewrite Fat by (try assumption; lia).
    replace (P + i + 0) with (0 + (P + i)) by lia. reflexivity.
Qed.

Lemma exm_wf : WF.model 1 3 ExM.model.
Proof.
  unfold WF.model, ExM.model. cbn -[INR].
  repeat split; try lia.
  repeat constructor.
Qed.

Lemma C1_incremental_decode_matches_full_witness :
  exists full m_full pre m1 steps m2,
    Transformer.forward ExM.model (token_slice ExM.toks 0 3) 0 = (Ok full, m_full) /\
    Transformer.forward ExM.model (token_slice ExM.toks 0 2) 0 = (Ok pre, m1) /\
    decode m1 ExM.toks 2 1 = (Ok steps, m2) /\
    (forall b p v, b < 1 -> p < 2 -> v < 3 -> at3 pre b p v = at3 full b p v) /\
    (exists lg,
        nth_error steps 0 = Some lg /\
        forall b v, b < 1 -> v < 3 -> at3 lg b 0 v = at3 full b 2 v).
Proof.
  destruct (C1_incremental_decode_matches_full 1 3 ExM.model ExM.toks 2 1)
    as (full & m_full & pre & m1 & steps & m2 & Ef & Ep & Ed & _ & _ & _ & Hpre & Hst).
  - unfold WF.model, ExM.model. cbn -[INR].
    repeat split; try lia. repeat constructor.
  - simpl. lia.
  - lia.
  - lia.
  - intros b p Hb Hp. simpl. exact Hp.
  - exists full, m_full, pre, m1, steps, m2.
    repeat split; try assumption.
    destruct (Hst 0 ltac:(lia)) as (lg & E & _ & Hlg).
    exists lg. split; [exact E|]. exact Hlg.
Defined.

(** ** Attention weights on later positions *)



(** ** Constructed models are well shaped *)

Lemma attention_init_wf (a : Args.t) (q k v o : nat -> nat -> R)
    (k0 v0 : nat -> nat -> nat -> nat -> R) (att : SelfAttention.t) :
  SelfAttention.init a q k v o k0 v0 = Ok att ->
  Args.dim a = Args.n_heads a * (Args.dim a / Args.n_heads a) ->
  (Args.dim a / Args.n_heads a) mod 2 = 0 ->
  WF.attention (Args.batch_size a) (Args.seq_len a) (Args.dim a)
    (Args.dim a / Args.n_heads a / 2) att.
Proof.
  unfold SelfAttention.init. intros E Hdim Heven.
  set (n_kv := match Args.n_kv_heads a with
               | Some n => n
               | None => Args.n_heads a
               end) in *.
  destruct (Nat.eqb_spec n_kv 0) as [|Hkv]; [discriminate|].
  destruct (Nat.eqb_spec (Args.n_heads a mod n_kv) 0) as [Hmod|]; [|discriminate].
  cbn [negb] in E.
  destruct (Nat.eqb_spec (Args.n_heads a) 0) as [|Hq]; [discriminate|].
  injection E as <-.
  pose proof (Nat.div_mod_eq (Args.n_heads a) n_kv) as Ediv.
  pose proof (Nat.div_mod_eq (Args.dim a / Args.n_heads a) 2) as Eh.
  unfold WF.attention, WF.linear, WF.cache. cbn -[Nat.div Nat.modulo Nat.mul].
  repeat split; try lia; try nia.
Qed.

Lemma block_init_wf (a : Args.t) (p : TransformerBlock.params)
    (b : TransformerBlock.t) :
  TransformerBlock.init a p = Ok b ->
  Args.dim a = Args.n_heads a * (Args.dim a / Args.n_heads a) ->
  (Args.dim a / Args.n_heads a) mod 2 = 0 ->
  WF.block (Args.batch_size a) (Args.seq_len a) (Args.dim a)
    (Args.dim a / Args.n_heads a / 2) b.
Proof.
  unfold TransformerBlock.init, bind. intros E Hdim Heven.
  destruct (SelfAttention.init _ _ _ _ _ _ _) as [att|] eqn:Ea; [|discriminate].
  destruct (FFN.init _ _ _ _ _ _) as [f|] eqn:Ef; [|discriminate].
  injection E as <-.
  unfold WF.block. cbn -[Nat.div Nat.modulo Nat.mul]. split.
  - exact (attention_init_wf _ _ _ _ _ _ _ _ Ea Hdim Heven).
  - repeat split.
    all: unfold FFN.init, bind in Ef;
      destruct (FFN.hidden_dim _ _ _); [|discriminate];
      injection Ef as <-; reflexivity.
Qed.

Lemma init_layers_wf (a : Args.t) (p : nat -> TransformerBlock.params) (n : nat) :
  Args.dim a = Args.n_heads a * (Args.dim a / Args.n_heads a) ->
  (Args.dim a / Args.n_heads a) mod 2 = 0 ->
  forall (layer : nat) (ls : list TransformerBlock.t),
    Transformer.init_layers a p layer n = Ok ls ->
    length ls = n /\
    Forall (WF.block (Args.batch_size a) (Args.seq_len a) (Args.dim a)
              (Args.dim a / Args.n_heads a / 2)) ls.
Proof.
  intros Hdim Heven. induction n as [|n IH]; intros layer ls E; cbn in E.
  - injection E as <-. split; [reflexivity|constructor].
  - unfold bind in E.
    destruct (TransformerBlock.init a (p layer)) as [b|] eqn:Eb; [|discriminate].
    destruct (Transformer.init_layers a p (S layer) n) as [rest|] eqn:Er;
      [|discriminate].
    injection E as <-. destruct (IH _ _ Er) as [Hlen Hall].
    split; [cbn; congruence|].
    constructor; [|exact Hall].
    exact (block_init_wf _ _ _ Eb Hdim Heven).
Qed.

(** A model returned by [Transformer.__init__] is well shaped as soon as
    [n_heads] divides [dim] (which [SelfAttention.forward] asserts at each
    call). *)
Lemma transformer_init_wf (a : Args.t) (emb : nat -> nat -> R)
    (p : nat -> TransformerBlock.params) (norm_w : nat -> R)
    (out_w : nat -> nat -> R) (m : Transformer.t) :
  Transformer.init a emb p norm_w out_w = Ok m ->
  Args.dim a = Args.n_heads a * (Args.dim a / Args.n_heads a) ->
  WF.model (Args.batch_size a) (Args.seq_len a) m.
Proof.
  unfold Transformer.init, bind. intros E Hdim.
  destruct (Transformer.init_layers a p 0 (Args.n_layers a)) as [ls|] eqn:El;
    [|discriminate].
  destruct (Args.n_heads a =? 0); [discriminate|].
  unfold precomputed_freqs in E.
  destruct (Nat.eqb_spec ((Args.dim a / Args.n_heads a) mod 2) 0) as [Heven|];
    [|discriminate].
  cbn [negb] in E. injection E as <-.
  destruct (init_layers_wf a p _ Hdim Heven _ _ El) as [_ Hall].
  unfold WF.model, WF.linear. cbn -[Nat.div Nat.modulo Nat.mul].
  repeat split; try assumption. lia.
Qed.

Lemma exm_init :
  Transformer.init ExM.args ExM.emb ExM.params ExM.ones1 Ex.ident = Ok ExM.model.
Proof. reflexivity. Qed.


(* ================================================================== *)
(** * Further properties *)

(** ** Checkpoint keys *)

Module StateDictFacts.
Import String.
Import StateDict.

Lemma pop_here {V : Type} (a b : dict V) (k : string) (v : V) :
  ~ In k (keys a) -> pop (a ++ (k, v) :: b)%list k = Some (v, (a ++ b)%list).
Proof.
  induction a as [|[k' w] a IH]; intros Hn; cbn.
  - rewrite String.eqb_refl. reflexivity.
  - destruct (String.eqb_spec k' k) as [->|Hne].
    + exfalso. apply Hn. left. reflexivity.
    + rewrite IH; [reflexivity|]. intros Hin. apply Hn. right. exact Hin.
Qed.

Lemma setitem_fresh {V : Type} (d : dict V) (k : string) (v : V) :
  ~ In k (keys d) -> setitem d k v = (d ++ [(k, v)])%list.
Proof.
  induction d as [|[k' w] d IH]; intros Hn; cbn.
  - reflexivity.
  - destruct (String.eqb_spec k' k) as [->|Hne].
    + exfalso. apply Hn. left. reflexivity.
    + rewrite IH; [reflexivity|]. intros Hin. apply Hn. right. exact Hin.
Qed.

Lemma keys_app {V : Type} (a b : dict V) :
  keys (a ++ b)%list = (keys a ++ keys b)%list.
Proof. unfold keys. apply map_app. Qed.

Lemma remove_rot_emb_loop_filter {V : Type} (rest : dict V) :
  forall kept : dict V,
    NoDup (keys (kept ++ rest)%list) ->
    remove_rot_emb_loop (keys rest) (kept ++ rest)%list
    = Some (kept ++ filter keeps rest)%list.
Proof.
  induction rest as [|[k v] rest IH]; intros kept Hnd; cbn.
  - reflexivity.
  - unfold keeps at 1. cbn [fst].
    destruct (contains "inv_freq" k) eqn:E; cbn [negb].
    + unfold del. rewrite pop_here.
      * apply IH. rewrite keys_app in Hnd |- *. cbn in Hnd.
        apply NoDup_remove_1 in Hnd. exact Hnd.
      * rewrite keys_app in Hnd. cbn in Hnd.
        apply NoDup_remove_2 in Hnd. intros Hin. apply Hnd.
        apply in_or_app. left. exact Hin.
    + specialize (IH (kept ++ [(k, v)])%list).
      rewrite <- !app_assoc in IH. cbn in IH. apply IH. exact Hnd.
Qed.

(** X1: [remove_rot_emb] drops exactly the entries whose key contains
    ["inv_freq"] and keeps the others, with their values, in their order. *)
Theorem remove_rot_emb_filter {V : Type} (d : dict V) :
  NoDup (keys d) ->
  remove_rot_emb d = Some (filter keeps d).
Proof.
  intros Hnd. unfold remove_rot_emb.
  exact (remove_rot_emb_loop_filter d [] Hnd).
Qed.

Lemma remove_rot_emb_filter_witness :
  remove_rot_emb hf
  = Some [ ("model.layers.0.self_attn.q_proj.weight"%string, 1);
           ("model.norm.weight"%string, 3);
           ("lm_head.weight"%string, 4) ].
Proof.
  rewrite (remove_rot_emb_filter hf).
  - reflexivity.
  - cbn. repeat constructor; cbn; intuition discriminate.
Defined.

Lemma rename_loop_map {V : Type} (rest : dict V) :
  forall done : dict V,
    NoDup (keys rest) ->
    NoDup (map new_key (keys rest)) ->
    (forall k, In k (keys rest) -> ~ In (new_key k) (keys done)) ->
    (forall k, In k (keys rest) -> In (new_key k) (keys rest) -> new_key k = k) ->
    rename_loop (keys rest) (rest ++ done)%list
    = Some (done ++ map renamed rest)%list.
Proof.
  induction rest as [|[k v] rest IH]; intros done H1 H2 H3 H4.
  - cbn. rewrite app_nil_r. reflexivity.
  - change (keys ((k, v) :: rest)) with (k :: keys rest) in *.
    cbn [rename_loop app pop map] in *. rewrite String.eqb_refl.
    inversion H1 as [|? ? Hk H1']; subst.
    inversion H2 as [|? ? Hfk H2']; subst.
    assert (Hfresh : ~ In (new_key k) (keys (rest ++ done)%list)).
    { rewrite keys_app. intros Hin. apply in_app_or in Hin.
      destruct Hin as [Hin|Hin].
      - assert (E : new_key k = k).
        { apply H4; [left; reflexivity|right; exact Hin]. }
        rewrite E in Hin. exact (Hk Hin).
      - exact (H3 k (or_introl eq_refl) Hin). }
    rewrite setitem_fresh by exact Hfresh.
    rewrite <- app_assoc.
    rewrite (IH (done ++ [(new_key k, v)])%list); try assumption.
    + rewrite <- app_assoc. reflexivity.
    + intros k' Hk'. rewrite keys_app. intros Hin. apply in_app_or in Hin.
      destruct Hin as [Hin|Hin].
      * exact (H3 k' (or_intror Hk') Hin).
      * cbn in Hin. destruct Hin as [E|[]].
        apply Hfk. rewrite E. apply in_map. exact Hk'.
    + intros k' Hk' Hin. apply H4; right; assumption.
Qed.

(** X2: When the new names of the keys are pairwise distinct and none of them
    is the old name of another entry, [rename_state_dict_keys] returns the
    same entries in the same order, each under its new name. *)
Theorem rename_state_dict_keys_map {V : Type} (d : dict V) :
  NoDup (keys d) ->
  NoDup (map new_key (keys d)) ->
  (forall k, In k (keys d) -> In (new_key k) (keys d) -> new_key k = k) ->
  rename_state_dict_keys d = Some (map renamed d).
Proof.
  intros H1 H2 H4. unfold rename_state_dict_keys.
  pose proof (rename_loop_map d [] H1 H2 (fun _ _ H => H) H4) as E.
  rewrite app_nil_r in E. exact E.
Qed.

Lemma rename_state_dict_keys_map_witness :
  rename_state_dict_keys hf
  = Some [ ("layers.0.attention.wq.weight"%string, 1);
           ("layers.0.self_attn.rotary_emb.inv_freq"%string, 2);
           ("norm.w"%string, 3);
           ("out.weight"%string, 4) ].
Proof.
  rewrite (rename_state_dict_keys_map hf).
  - reflexivity.
  - cbn. repeat constructor; cbn; intuition discriminate.
  - vm_compute. repeat constructor; cbn; intuition discriminate.
  - intros k Hk Hin. vm_compute in Hk, Hin.
    repeat (destruct Hk as [<-|Hk]; [vm_compute in Hin; intuition discriminate|]).
    destruct Hk.
Defined.
End StateDictFacts.

(** ** RMS normalisation *)

Lemma rsum_scal_r (n : nat) (f : nat -> R) (c : R) :
  rsum n (fun k => (f k * c)%R) = (rsum n f * c)%R.
Proof.
  induction n as [|n IH]; simpl.
  - ring.
  - rewrite IH. ring.
Qed.

Lemma rsum_nonneg (n : nat) (f : nat -> R) :
  (forall k, k < n -> (0 <= f k)%R) -> (0 <= rsum n f)%R.
Proof.
  induction n as [|n IH]; intros H; simpl.
  - lra.
  - pose proof (IH (fun k Hk => H k (Nat.lt_lt_succ_r _ _ Hk))).
    pose proof (H n (Nat.lt_succ_diag_r n)). lra.
Qed.

(** X3: With an all-ones weight, the mean square of each normalised row is
    [ms / (ms + eps)], [ms] being the mean square of the input row: below
    1 for a positive [eps], and exactly 1 for [eps = 0]. *)
Theorem rmsnorm_mean_square :
  forall (n : RMSNorm.t) (x y : Tensor3 R) (b p : nat),
    RMSNorm.forward n x = Ok y ->
    RMSNorm.dim n = d3_2 x ->
    0 < d3_2 x ->
    (forall d, d < d3_2 x -> RMSNorm.w n d = 1%R) ->
    let D := d3_2 x in
    let ms := (rsum D (fun d => at3 x b p d * at3 x b p d) / INR D)%R in
    (0 <= RMSNorm.eps n)%R ->
    (0 < ms + RMSNorm.eps n)%R ->
    (rsum D (fun d => at3 y b p d * at3 y b p d) / INR D
     = ms / (ms + RMSNorm.eps n))%R /\
    (rsum D (fun d => at3 y b p d * at3 y b p d) / INR D <= 1)%R /\
    (RMSNorm.eps n = 0%R ->
     (rsum D (fun d => at3 y b p d * at3 y b p d) / INR D = 1)%R).
Proof.
  intros n x y b p Hy Hdim HD Hw D ms Heps Hpos.
  unfold RMSNorm.forward in Hy. rewrite Hdim, bdim_same in Hy.
  injection Hy as <-. cbn [at3]. fold D. fold ms.
  assert (HDR : (0 < INR D)%R) by (apply lt_0_INR; exact HD).
  assert (Hsq : (sqrt (ms + RMSNorm.eps n) * sqrt (ms + RMSNorm.eps n)
                 = ms + RMSNorm.eps n)%R) by (apply sqrt_sqrt; lra).
  assert (Hsn : sqrt (ms + RMSNorm.eps n) <> 0%R).
  { intros E. rewrite E in Hsq. lra. }
  assert (Hmain :
    (rsum D (fun d =>
        (at3 x b p (bidx D d) * / sqrt (ms + RMSNorm.eps n)
         * RMSNorm.w n (bidx D d))
        * (at3 x b p (bidx D d) * / sqrt (ms + RMSNorm.eps n)
           * RMSNorm.w n (bidx D d))) / INR D
     = ms / (ms + RMSNorm.eps n))%R).
  { rewrite (rsum_ext D _
               (fun d => (at3 x b p d * at3 x b p d
                          * / (ms + RMSNorm.eps n))%R)).
    - rewrite rsum_scal_r.
      replace (rsum D (fun d => (at3 x b p d * at3 x b p d)%R))
        with (ms * INR D)%R by (unfold ms; field; lra).
      field. split; lra.
    - intros d Hd. rewrite bidx_in by exact Hd. rewrite Hw by exact Hd.
      rewrite <- Hsq at 3. field. exact Hsn. }
  split; [exact Hmain|]. split.
  - rewrite Hmain.
    assert (Hms : (0 <= ms)%R).
    { unfold ms. apply Rmult_le_pos.
      - apply rsum_nonneg. intros k _. apply Rle_0_sqr.
      - left. apply Rinv_0_lt_compat. exact HDR. }
    apply (Rmult_le_reg_r (ms + RMSNorm.eps n)); [exact Hpos|].
    unfold Rdiv. rewrite Rmult_assoc, Rinv_l by lra. lra.
  - intros E0. rewrite Hmain, E0, Rplus_0_r. rewrite E0, Rplus_0_r in Hpos.
    unfold Rdiv. apply Rinv_r. lra.
Qed.

Lemma rmsnorm_mean_square_witness :
  (rsum 2 (fun d => at3 ExN.y 0 0 d * at3 ExN.y 0 0 d) / INR 2 = 1)%R.
Proof.
  destruct (rmsnorm_mean_square ExN.norm ExN.x ExN.y 0 0) as (_ & _ & H).
  - reflexivity.
  - reflexivity.
  - simpl. lia.
  - intros d _. reflexivity.
  - simpl. lra.
  - simpl. lra.
  - apply H. reflexivity.
Defined.

(** ** Attention weights *)

Lemma rsum_pos (n : nat) (f : nat -> R) (j : nat) :
  (forall k, k < n -> (0 <= f k)%R) -> j < n -> (0 < f j)%R ->
  (0 < rsum n f)%R.
Proof.
  induction n as [|n IH]; intros H Hj Hp; [lia|]. simpl.
  pose proof (rsum_nonneg n f (fun k Hk => H k (Nat.lt_lt_succ_r _ _ Hk))).
  destruct (Nat.eq_dec j n) as [->|Hne].
  - lra.
  - pose proof (H n (Nat.lt_succ_diag_r n)).
    pose proof (IH (fun k Hk => H k (Nat.lt_lt_succ_r _ _ Hk))
                  ltac:(lia) Hp). lra.
Qed.

Lemma xexp_nonneg (x : xreal) : (0 <= xexp x)%R.
Proof.
  destruct x; simpl; [left; apply exp_pos|lra].
Qed.

Lemma softmax_row (x : Tensor4 xreal) (b h p j0 : nat) :
  j0 < d4_3 x -> at4 x b h p j0 <> NegInf ->
  rsum (d4_3 x) (fun j => at4 (softmax x) b h p j) = 1%R /\
  forall j, (0 <= at4 (softmax x) b h p j)%R.
Proof.
  intros Hj Hfin. cbn [softmax at4 d4_3].
  set (den := rsum (d4_3 x) (fun k => xexp (at4 x b h p k))).
  assert (Hden : (0 < den)%R).
  { apply (rsum_pos _ _ j0); [|exact Hj|].
    - intros k _. apply xexp_nonneg.
    - destruct (at4 x b h p j0); [apply exp_pos|contradiction]. }
  split.
  - unfold Rdiv. rewrite rsum_scal_r. fold den. apply Rinv_r. lra.
  - intros j. unfold Rdiv. apply Rmult_le_pos; [apply xexp_nonneg|].
    left. apply Rinv_0_lt_compat. exact Hden.
Qed.

(** X4: In a call with the mask the model builds, the attention weights of
    every query form a probability distribution over the keys: they are
    non-negative and sum to 1 (as soon as there is at least one key). *)
Theorem attention_weights_distribution :
  forall (self : SelfAttention.t) (q : Tensor4 R) (B stop T start_pos : nat)
         (w : Tensor4 R),
    SelfAttention.weights self q B stop (Transformer.build_mask T start_pos)
      = Ok w ->
    0 < d4_3 w ->
    forall b hd p,
      rsum (d4_3 w) (fun j => at4 w b hd p j) = 1%R /\
      forall j, (0 <= at4 w b hd p j)%R.
Proof.
  intros self q B stop T s w Hw Hk b hd p.
  unfold SelfAttention.weights, bind in Hw.
  destruct (SelfAttention.scores _ _ _ _ _) as [y|] eqn:Ey; [|discriminate].
  injection Hw as <-. cbn [softmax d4_3] in Hk.
  apply (softmax_row y b hd p 0 Hk).
  unfold SelfAttention.scores, bind in Ey.
  destruct (matmul _ _) as [attn|]; [|discriminate].
  unfold Transformer.build_mask, add_mask in Ey.
  destruct (1 <? T).
  - change (rows (causal_mask T s)) with T in Ey.
    change (cols (causal_mask T s)) with (s + T) in Ey.
    destruct (_ && _); [|discriminate].
    injection Ey as <-. cbn [at4].
    assert (E0 : bidx (s + T) 0 = 0) by (unfold bidx; destruct (_ =? _); reflexivity).
    rewrite E0. unfold causal_mask. cbn [at2].
    destruct (0 <? s); [discriminate|].
    cbn [Nat.sub]. rewrite Nat.add_1_r. cbn [Nat.leb]. discriminate.
  - injection Ey as <-. cbn [at4]. discriminate.
Qed.

Lemma attention_weights_distribution_witness :
  rsum 2 (fun j => at4 Ex6.w 0 0 1 j) = 1%R.
Proof.
  apply (attention_weights_distribution Ex.after Ex6.q 1 2 2 0 Ex6.w).
  - reflexivity.
  - simpl. lia.
Defined.

(** ** Rotary encoding and positions *)

Lemma rope_at (x : Tensor4 R) (f : Tensor2 C) (y : Tensor4 R) :
  rope x (PyComplex f) = Ok y ->
  forall b p hd i, at4 y b p hd i = rotated x f b p hd i.
Proof.
  unfold rope.
  destruct (_ =? 0); [discriminate|].
  destruct (negb _); [discriminate|].
  destruct (bdim _ _); [|discriminate].
  destruct (bdim _ _); [|discriminate].
  destruct (_ =? _); [|discriminate].
  intros [= <-]. reflexivity.
Qed.

Lemma pair_parity (i : nat) :
  (Nat.even i = true /\ 2 * (i / 2) = i) \/
  (Nat.even i = false /\ 2 * (i / 2) + 1 = i).
Proof.
  destruct (Nat.even i) eqn:Ev.
  - left. split; [reflexivity|].
    apply Nat.even_spec in Ev. destruct Ev as [k Ek].
    assert (E : i / 2 = k) by (symmetry; apply (Nat.div_unique i 2 k 0); lia).
    lia.
  - right. split; [reflexivity|].
    assert (Od : Nat.odd i = true) by (unfold Nat.odd; rewrite Ev; reflexivity).
    apply Nat.odd_spec in Od. destruct Od as [k Ek].
    assert (E : i / 2 = k) by (symmetry; apply (Nat.div_unique i 2 k 1); lia).
    lia.
Qed.

Lemma precomputed_freqs_ok (dim seqlen : nat) (theta : R) (tbl : Tensor2 C) :
  precomputed_freqs dim seqlen theta = Ok tbl ->
  dim mod 2 = 0 /\ rows tbl = seqlen /\ cols tbl = dim / 2 /\
  forall m i,
    at2 tbl m i
    = polar 1 (INR m * (1 / Rpower theta (INR (2 * i) / INR dim)))%R.
Proof.
  unfold precomputed_freqs. intros H.
  destruct (Nat.eqb_spec (dim mod 2) 0) as [Hev|]; [|discriminate].
  cbn [negb] in H.
  assert (E : tbl = mkT2 seqlen (dim / 2)
                (fun m i =>
                   polar 1 (INR m * (1 / Rpower theta (INR (2 * i) / INR dim)))%R))
    by congruence.
  rewrite E. repeat split. exact Hev.
Qed.

(** X5: The first position of the table is the rotation by the angle 0: a
    window that starts at position 0 leaves its first token unrotated. *)
Theorem rope_first_position_unrotated :
  forall (dim seqlen : nat) (theta : R) (tbl : Tensor2 C) (stop : nat)
         (x y : Tensor4 R),
    precomputed_freqs dim seqlen theta = Ok tbl ->
    rope x (PyComplex (slice_rows tbl 0 stop)) = Ok y ->
    forall b hd i, at4 y b 0 hd i = at4 x b 0 hd i.
Proof.
  intros dim seqlen theta tbl stop x y Htbl Hy b hd i.
  rewrite (rope_at _ _ _ Hy). unfold rotated.
  destruct (precomputed_freqs_ok _ _ _ _ Htbl) as (_ & _ & _ & Hat).
  assert (E0 : forall n, bidx n 0 = 0)
    by (intros n; unfold bidx; destruct (_ =? _); reflexivity).
  cbn [slice_rows rows cols at2]. rewrite E0.
  rewrite Nat.min_0_l. cbn [Nat.add]. rewrite Hat. cbn [INR].
  unfold polar. rewrite Rmult_0_l, cos_0, sin_0.
  unfold cmul. cbn [fst snd].
  destruct (pair_parity i) as [[-> E]|[-> E]]; rewrite E; ring.
Qed.

Lemma rsum_pairs (c : nat) (f : nat -> R) :
  rsum (2 * c) f = rsum c (fun j => (f (2 * j)%nat + f (2 * j + 1)%nat)%R).
Proof.
  induction c as [|c IH].
  - reflexivity.
  - replace (2 * S c) with (S (S (2 * c))) by lia. cbn [rsum].
    rewrite IH. replace (S (2 * c)) with (2 * c + 1) by lia. ring.
Qed.

Lemma rotated_pair_dot (q0 q1 k0 k1 a b : R) :
  let rq := cmul (q0, q1) (polar 1 a) in
  let rk := cmul (k0, k1) (polar 1 b) in
  (fst rq * fst rk + snd rq * snd rk
   = (q0 * k0 + q1 * k1) * cos (a - b) + (q0 * k1 - q1 * k0) * sin (a - b))%R.
Proof.
  cbv zeta. unfold cmul, polar. cbn [fst snd].
  rewrite cos_minus, sin_minus. ring.
Qed.

(** X6: The dot product of a rotated query and a rotated key depends on their
    positions only through the difference: moving the window of both by
    [d] positions leaves every such dot product unchanged. *)
Theorem rope_relative_position :
  forall (dim seqlen : nat) (theta : R) (tbl : Tensor2 C)
         (q k q1 k1 q2 k2 : Tensor4 R) (s d T : nat),
    precomputed_freqs dim seqlen theta = Ok tbl ->
    d4_3 q = dim -> d4_3 k = dim ->
    s + d + T <= seqlen ->
    rope q (PyComplex (slice_rows tbl s (s + T))) = Ok q1 ->
    rope k (PyComplex (slice_rows tbl s (s + T))) = Ok k1 ->
    rope q (PyComplex (slice_rows tbl (s + d) (s + d + T))) = Ok q2 ->
    rope k (PyComplex (slice_rows tbl (s + d) (s + d + T))) = Ok k2 ->
    forall b hd b' hd' p p',
      p < T -> p' < T ->
      rsum dim (fun i => (at4 q1 b p hd i * at4 k1 b' p' hd' i)%R)
      = rsum dim (fun i => (at4 q2 b p hd i * at4 k2 b' p' hd' i)%R).
Proof.
  intros dim seqlen theta tbl q k q1 k1 q2 k2 s d T Htbl Hq Hk Hlen
         Hq1 Hk1 Hq2 Hk2 b hd b' hd' p p' Hp Hp'.
  destruct (precomputed_freqs_ok _ _ _ _ Htbl) as (Hev & Hrows & Hcols & Htat).
  pose proof (Nat.div_mod_eq dim 2) as Edim.
  set (c := dim / 2) in *.
  assert (Hdim : dim = 2 * c) by lia.
  destruct (slice_rows_in tbl s T) as (R1 & C1 & A1); [lia|].
  destruct (slice_rows_in tbl (s + d) T) as (R2 & C2 & A2); [lia|].
  rewrite Hcols in C1, C2.
  set (f1 := slice_rows tbl s (s + T)) in *.
  set (f2 := slice_rows tbl (s + d) (s + d + T)) in *.
  assert (Hpair : forall (f : Tensor2 C) (s0 : nat) (x : Tensor4 R) b0 p0 hd0 j,
             rows f = T -> cols f = c ->
             (forall p1 j1, at2 f p1 j1 = at2 tbl (s0 + p1) j1) ->
             p0 < T -> j < c ->
             (rotated x f b0 p0 hd0 (2 * j), rotated x f b0 p0 hd0 (2 * j + 1))
             = cmul (at4 x b0 p0 hd0 (2 * j), at4 x b0 p0 hd0 (2 * j + 1))
                    (at2 tbl (s0 + p0) j)).
  { intros f s0 x b0 p0 hd0 j Hr Hc Hat Hp0 Hj. unfold rotated.
    assert (E0 : (2 * j) / 2 = j) by (rewrite Nat.mul_comm; apply Nat.div_mul; lia).
    assert (E1 : (2 * j + 1) / 2 = j).
    { rewrite Nat.mul_comm, Nat.div_add_l by lia. simpl. lia. }
    assert (V0 : Nat.even (2 * j) = true) by (rewrite Nat.even_mul; reflexivity).
    assert (V1 : Nat.even (2 * j + 1) = false).
    { rewrite Nat.even_add, Nat.even_mul. reflexivity. }
    rewrite E0, E1, V0, V1, Hr, Hc, !bidx_in, Hat by assumption.
    destruct (cmul _ _). reflexivity. }
  rewrite Hdim, !rsum_pairs.
  apply rsum_ext. intros j Hj.
  rewrite !(rope_at _ _ _ Hq1), !(rope_at _ _ _ Hk1),
          !(rope_at _ _ _ Hq2), !(rope_at _ _ _ Hk2).
  pose proof (Hpair f1 s q b p hd j R1 C1 A1 Hp Hj) as Eq1.
  pose proof (Hpair f1 s k b' p' hd' j R1 C1 A1 Hp' Hj) as Ek1.
  pose proof (Hpair f2 (s + d) q b p hd j R2 C2 A2 Hp Hj) as Eq2.
  pose proof (Hpair f2 (s + d) k b' p' hd' j R2 C2 A2 Hp' Hj) as Ek2.
  apply (f_equal fst) in Eq1 as Eq1a. apply (f_equal snd) in Eq1 as Eq1b.
  apply (f_equal fst) in Ek1 as Ek1a. apply (f_equal snd) in Ek1 as Ek1b.
  apply (f_equal fst) in Eq2 as Eq2a. apply (f_equal snd) in Eq2 as Eq2b.
  apply (f_equal fst) in Ek2 as Ek2a. apply (f_equal snd) in Ek2 as Ek2b.
  cbn [fst snd] in Eq1a, Eq1b, Ek1a, Ek1b, Eq2a, Eq2b, Ek2a, Ek2b.
  rewrite Eq1a, Eq1b, Ek1a, Ek1b, Eq2a, Eq2b, Ek2a, Ek2b.
  rewrite !Htat.
  rewrite !rotated_pair_dot.
  set (th := (1 / Rpower theta (INR (2 * j) / INR dim))%R).
  replace (INR (s + d + p) * th - INR (s + d + p') * th)%R
    with (INR (s + p) * th - INR (s + p') * th)%R.
  - reflexivity.
  - rewrite !plus_INR. ring.
Qed.

Lemma rope_first_position_unrotated_witness :
  at4 (mkT4 1 1 1 2 (rotated Ex8.x (slice_rows Ex8.tbl 0 1))) 0 0 0 1
  = at4 Ex8.x 0 0 0 1.
Proof.
  apply (rope_first_position_unrotated 2 2 10000 Ex8.tbl 1 Ex8.x).
  - reflexivity.
  - reflexivity.
Defined.

Lemma rope_relative_position_witness :
  rsum 2 (fun i => (at4 ExR.q1 0 1 0 i * at4 ExR.k1 0 0 0 i)%R)
  = rsum 2 (fun i => (at4 ExR.q2 0 1 0 i * at4 ExR.k2 0 0 0 i)%R).
Proof.
  apply (rope_relative_position 2 4 10000 ExR.tbl ExR.q ExR.k
           ExR.q1 ExR.k1 ExR.q2 ExR.k2 0 1 2);
    try reflexivity; simpl; lia.
Defined.

(** ** The cases of an attention call *)

Lemma attention_forward_cases (a : SelfAttention.t) (x : Tensor3 R) (s : nat)
    (f m : pyval) (r : res (Tensor3 R)) (a' : SelfAttention.t) :
  SelfAttention.forward a x s f m = (r, a') ->
  (a' = a /\ is_ok r = false) \/
  exists q k v kc,
    (d3_2 x = SelfAttention.dim a /\
     d3_2 x = SelfAttention.n_q_heads a * SelfAttention.h_size a) /\
    SelfAttention.project a x f = Ok (q, k, v) /\
    slice_assign (SelfAttention.k_cache a) (d3_0 x) s (s + d3_1 x) k = Ok kc /\
    ((exists e,
         slice_assign (SelfAttention.v_cache a) (d3_0 x) s (s + d3_1 x) v = Raise e /\
         r = Raise e /\ a' = SelfAttention.set_k_cache a kc) \/
     (exists vc,
         slice_assign (SelfAttention.v_cache a) (d3_0 x) s (s + d3_1 x) v = Ok vc /\
         a' = SelfAttention.set_v_cache (SelfAttention.set_k_cache a kc) vc /\
         r = SelfAttention.attend a' q (d3_0 x) (d3_1 x) (s + d3_1 x) m)).
Proof.
  unfold SelfAttention.forward.
  destruct (Nat.eqb_spec (d3_2 x) (SelfAttention.dim a)) as [HD|]; cbn [negb].
  2:{ intros [= <- <-]. left. auto. }
  destruct (Nat.eqb_spec (d3_2 x)
              (SelfAttention.n_q_heads a * SelfAttention.h_size a)) as [HQ|];
    cbn [negb].
  2:{ intros [= <- <-]. left. auto. }
  destruct (SelfAttention.project a x f) as [[[q k] v]|e] eqn:Ep.
  2:{ intros [= <- <-]. left. auto. }
  destruct (slice_assign (SelfAttention.k_cache a) _ _ _ k) as [kc|e] eqn:Ek.
  2:{ intros [= <- <-]. left. auto. }
  cbn [SelfAttention.set_k_cache SelfAttention.v_cache].
  destruct (slice_assign (SelfAttention.v_cache a) _ _ _ v) as [vc|e] eqn:Ev.
  - intros [= <- <-]. right. exists q, k, v, kc.
    repeat split; try assumption. right. exists vc. auto.
  - intros [= <- <-]. right. exists q, k, v, kc.
    repeat split; try assumption. left. exists e. auto.
Qed.

Lemma slice_assign_again (c : Tensor4 R) (B s e : nat) (src c' : Tensor4 R) :
  slice_assign c B s e src = Ok c' -> slice_assign c' B s e src = Ok c'.
Proof.
  unfold slice_assign.
  destruct (_ && _) eqn:E; [|discriminate].
  intros [= <-]. cbn [d4_0 d4_1 d4_2 d4_3 at4]. rewrite E.
  f_equal. f_equal.
  apply functional_extensionality; intros b.
  apply functional_extensionality; intros j.
  apply functional_extensionality; intros hd.
  apply functional_extensionality; intros i.
  destruct ((b <? Nat.min B (d4_0 c)) && (Nat.min s (d4_1 c) <=? j)
            && (j <? Nat.min e (d4_1 c))); reflexivity.
Qed.

(** ** Repeating a call *)

Lemma attention_forward_again (a : SelfAttention.t) (x : Tensor3 R) (s : nat)
    (f m : pyval) (r : res (Tensor3 R)) (a' : SelfAttention.t) :
  SelfAttention.forward a x s f m = (r, a') ->
  SelfAttention.forward a' x s f m = (r, a').
Proof.
  intros H. destruct (attention_forward_cases _ _ _ _ _ _ _ H)
    as [[-> _]|(q & k & v & kc & (HD & HQ) & Ep & Ek & Hv)]; [exact H|].
  apply Nat.eqb_eq in HD, HQ.
  apply slice_assign_again in Ek.
  destruct Hv as [(e & Ev & -> & ->)|(vc & Ev & -> & ->)].
  - unfold SelfAttention.forward.
    change (SelfAttention.dim (SelfAttention.set_k_cache a kc))
      with (SelfAttention.dim a).
    change (SelfAttention.n_q_heads (SelfAttention.set_k_cache a kc))
      with (SelfAttention.n_q_heads a).
    change (SelfAttention.h_size (SelfAttention.set_k_cache a kc))
      with (SelfAttention.h_size a).
    change (SelfAttention.project (SelfAttention.set_k_cache a kc) x f)
      with (SelfAttention.project a x f).
    rewrite HD, HQ. cbn [negb].
    rewrite Ep.
    change (SelfAttention.k_cache (SelfAttention.set_k_cache a kc)) with kc.
    rewrite Ek. cbn [SelfAttention.set_k_cache SelfAttention.v_cache
                     SelfAttention.dim SelfAttention.n_q_heads
                     SelfAttention.n_kv_heads SelfAttention.n_rep
                     SelfAttention.h_size SelfAttention.wq SelfAttention.wk
                     SelfAttention.wv SelfAttention.wo SelfAttention.k_cache].
    rewrite Ev. reflexivity.
  - apply slice_assign_again in Ev.
    set (a2 := SelfAttention.set_v_cache (SelfAttention.set_k_cache a kc) vc).
    unfold SelfAttention.forward.
    change (SelfAttention.dim a2) with (SelfAttention.dim a).
    change (SelfAttention.n_q_heads a2) with (SelfAttention.n_q_heads a).
    change (SelfAttention.h_size a2) with (SelfAttention.h_size a).
    change (SelfAttention.project a2 x f) with (SelfAttention.project a x f).
    rewrite HD, HQ. cbn [negb].
    rewrite Ep.
    change (SelfAttention.k_cache a2) with kc. rewrite Ek.
    change (SelfAttention.v_cache (SelfAttention.set_k_cache a2 kc)) with vc.
    rewrite Ev. reflexivity.
Qed.

Lemma block_forward_again (l : TransformerBlock.t) (x : Tensor3 R) (s : nat)
    (f m : pyval) (r : res (Tensor3 R)) (l' : TransformerBlock.t) :
  TransformerBlock.forward l x s f m = (r, l') ->
  TransformerBlock.forward l' x s f m = (r, l').
Proof.
  unfold TransformerBlock.forward.
  destruct (RMSNorm.forward (TransformerBlock.attn_norm l) x) as [n|e] eqn:En.
  - destruct (SelfAttention.forward _ n s m f) as [ra a'] eqn:Ea.
    intros [= <- <-].
    cbn [TransformerBlock.set_attention TransformerBlock.attn_norm
         TransformerBlock.attention TransformerBlock.ffn
         TransformerBlock.ffn_norm].
    rewrite En, (attention_forward_again _ _ _ _ _ _ _ Ea). reflexivity.
  - intros [= <- <-]. rewrite En. reflexivity.
Qed.

Lemma run_layers_again (ls : list TransformerBlock.t) :
  forall (x : Tensor3 R) (s : nat) (m f : pyval) (r : res (Tensor3 R))
         (ls' : list TransformerBlock.t),
    Transformer.run_layers ls x s m f = (r, ls') ->
    Transformer.run_layers ls' x s m f = (r, ls').
Proof.
  induction ls as [|l rest IH]; intros x s m f r ls'; cbn [Transformer.run_layers].
  - intros [= <- <-]. reflexivity.
  - destruct (TransformerBlock.forward l x s m f) as [[x'|e] l'] eqn:El.
    + destruct (Transformer.run_layers rest x' s m f) as [r' rest'] eqn:Er.
      intros [= <- <-]. cbn [Transformer.run_layers].
      rewrite (block_forward_again _ _ _ _ _ _ _ El), (IH _ _ _ _ _ _ Er).
      reflexivity.
    + intros [= <- <-]. cbn [Transformer.run_layers].
      rewrite (block_forward_again _ _ _ _ _ _ _ El). reflexivity.
Qed.

(** X7: A call of the model's [forward] repeated with the same tokens and the
    same start position returns the same result and leaves the model,
    caches included, as the first call left it: the cache is overwritten,
    nothing accumulates.  This holds whether the call returns or raises. *)
Theorem forward_again :
  forall (self : Transformer.t) (x : Tensor2 nat) (start_pos : nat)
         (r : res (Tensor3 R)) (self' : Transformer.t),
    Transformer.forward self x start_pos = (r, self') ->
    Transformer.forward self' x start_pos = (r, self').
Proof.
  intros self x s r self'. unfold Transformer.forward.
  destruct (Transformer.embed self x) as [x_embd|e] eqn:Ee.
  - destruct (Transformer.run_layers _ _ _ _ _) as [r' ls] eqn:El.
    intros [= <- <-].
    change (Transformer.embed (Transformer.set_layers self ls) x)
      with (Transformer.embed self x).
    rewrite Ee.
    cbn [Transformer.set_layers Transformer.layers Transformer.freqs
         Transformer.norm Transformer.out].
    rewrite (run_layers_again _ _ _ _ _ _ _ El). reflexivity.
  - intros [= <- <-]. rewrite Ee. reflexivity.
Qed.

Lemma forward_again_witness :
  Transformer.forward
    (snd (Transformer.forward ExM.model (token_slice ExM.toks 0 2) 0))
    (token_slice ExM.toks 0 2) 0
  = (fst (Transformer.forward ExM.model (token_slice ExM.toks 0 2) 0),
     snd (Transformer.forward ExM.model (token_slice ExM.toks 0 2) 0)).
Proof.
  exact (forward_again ExM.model (token_slice ExM.toks 0 2) 0 _ _
           (surjective_pairing _)).
Defined.

(** ** Shapes of the results *)

Lemma rms_dims (n : RMSNorm.t) (x y : Tensor3 R) :
  RMSNorm.forward n x = Ok y -> d3_0 y = d3_0 x /\ d3_1 y = d3_1 x.
Proof.
  unfold RMSNorm.forward. destruct (bdim _ _); [|discriminate].
  intros [= <-]. auto.
Qed.

Lemma tzip_dims (op : R -> R -> R) (a b z : Tensor3 R) :
  tzip op a b = Ok z ->
  d3_0 b = d3_0 a -> d3_1 b = d3_1 a ->
  d3_0 z = d3_0 a /\ d3_1 z = d3_1 a.
Proof.
  unfold tzip. intros H E0 E1. rewrite E0, E1, !bdim_same in H.
  destruct (bdim _ _); [|discriminate].
  injection H as <-. auto.
Qed.

Lemma ffn_dims (f : FFN.t) (x y : Tensor3 R) :
  FFN.forward f x = Ok y -> d3_0 y = d3_0 x /\ d3_1 y = d3_1 x.
Proof.
  unfold FFN.forward, bind.
  destruct (Linear.forward (FFN.w1 f) x) as [a|] eqn:Ea; [|discriminate].
  destruct (Linear.forward (FFN.w3 f) x) as [b|] eqn:Eb; [|discriminate].
  destruct (tzip Rmult (tmap silu a) b) as [g|] eqn:Eg; [|discriminate].
  intros Ey.
  apply linear_dims in Ea, Eb, Ey.
  destruct Ea as (A0 & A1 & _), Eb as (B0 & B1 & _), Ey as (Y0 & Y1 & _).
  apply tzip_dims in Eg; cbn [tmap d3_0 d3_1]; try congruence.
  cbn [tmap d3_0 d3_1] in Eg. destruct Eg as (G0 & G1).
  split; congruence.
Qed.

Lemma attend_dims (a : SelfAttention.t) (q : Tensor4 R) (B T stop : nat)
    (m : pyval) (o : Tensor3 R) :
  SelfAttention.attend a q B T stop m = Ok o ->
  d3_0 o = B /\ d3_1 o = T /\ d3_2 o = Linear.out_features (SelfAttention.wo a).
Proof.
  unfold SelfAttention.attend, bind.
  destruct (SelfAttention.weights _ _ _ _ _); [|discriminate].
  destruct (matmul _ _); [|discriminate].
  destruct (view3 _ _ _ _) as [y|] eqn:Ey; [|discriminate].
  intros Eo. apply linear_dims in Eo. destruct Eo as (O0 & O1 & O2).
  unfold view3 in Ey. destruct (_ =? _); [|discriminate].
  injection Ey as <-. cbn [d3_0 d3_1] in O0, O1. auto.
Qed.

Lemma attention_forward_dims (a : SelfAttention.t) (x : Tensor3 R) (s : nat)
    (f m : pyval) (o : Tensor3 R) (a' : SelfAttention.t) :
  SelfAttention.forward a x s f m = (Ok o, a') ->
  d3_0 o = d3_0 x /\ d3_1 o = d3_1 x /\
  d3_2 o = Linear.out_features (SelfAttention.wo a).
Proof.
  intros H. destruct (attention_forward_cases _ _ _ _ _ _ _ H)
    as [[_ Hr]|(q & k & v & kc & _ & _ & _ & Hv)]; [discriminate|].
  destruct Hv as [(e & _ & Hr & _)|(vc & _ & -> & Hr)]; [discriminate|].
  symmetry in Hr. apply attend_dims in Hr. exact Hr.
Qed.

Lemma block_forward_dims (l : TransformerBlock.t) (x : Tensor3 R) (s : nat)
    (f m : pyval) (y : Tensor3 R) (l' : TransformerBlock.t) :
  TransformerBlock.forward l x s f m = (Ok y, l') ->
  d3_0 y = d3_0 x /\ d3_1 y = d3_1 x.
Proof.
  unfold TransformerBlock.forward.
  destruct (RMSNorm.forward (TransformerBlock.attn_norm l) x) as [n|] eqn:En;
    [|discriminate].
  destruct (SelfAttention.forward _ n s m f) as [[o|] a'] eqn:Ea;
    [|discriminate].
  unfold bind.
  destruct (tzip Rplus x o) as [x_|] eqn:Ex; [|discriminate].
  destruct (RMSNorm.forward _ x_) as [n2|] eqn:En2; [|discriminate].
  destruct (FFN.forward _ n2) as [g|] eqn:Eg; [|discriminate].
  intros [= Ey _].
  apply rms_dims in En, En2. apply ffn_dims in Eg.
  apply attention_forward_dims in Ea. destruct Ea as (O0 & O1 & _).
  apply tzip_dims in Ex; try (destruct En; congruence).
  apply tzip_dims in Ey;
    try (destruct En2, Eg; congruence).
  destruct Ex, Ey. split; congruence.
Qed.

Lemma run_layers_dims (ls : list TransformerBlock.t) :
  forall (x : Tensor3 R) (s : nat) (m f : pyval) (y : Tensor3 R)
         (ls' : list TransformerBlock.t),
    Transformer.run_layers ls x s m f = (Ok y, ls') ->
    d3_0 y = d3_0 x /\ d3_1 y = d3_1 x.
Proof.
  induction ls as [|l rest IH]; intros x s m f y ls'; cbn [Transformer.run_layers].
  - intros [= <- _]. auto.
  - destruct (TransformerBlock.forward l x s m f) as [[x'|e] l'] eqn:El;
      [|discriminate].
    destruct (Transformer.run_layers rest x' s m f) as [r' rest'] eqn:Er.
    intros [= -> _].
    apply block_forward_dims in El. apply IH in Er.
    destruct El, Er. split; congruence.
Qed.

(** X8: Every call of the model's [forward] that returns, returns logits of
    shape (B, T, out) for the (B, T) token tensor it was given, [out] being
    the width of the output projection. *)
Theorem forward_logits_shape :
  forall (self : Transformer.t) (x : Tensor2 nat) (start_pos : nat)
         (lg : Tensor3 R) (self' : Transformer.t),
    Transformer.forward self x start_pos = (Ok lg, self') ->
    d3_0 lg = rows x /\ d3_1 lg = cols x /\
    d3_2 lg = Linear.out_features (Transformer.out self).
Proof.
  intros self x s lg self'. unfold Transformer.forward.
  destruct (Transformer.embed self x) as [x_embd|] eqn:Ee; [|discriminate].
  destruct (Transformer.run_layers _ _ _ _ _) as [[y|] ls] eqn:El;
    [|discriminate].
  unfold bind.
  destruct (RMSNorm.forward _ y) as [n|] eqn:En; [|discriminate].
  intros [= Eo _].
  apply run_layers_dims in El. apply rms_dims in En. apply linear_dims in Eo.
  unfold Transformer.embed in Ee. destruct (forallb _ _); [|discriminate].
  injection Ee as <-. cbn [d3_0 d3_1] in El.
  destruct El, En, Eo as (? & ? & ?). repeat split; congruence.
Qed.


Lemma forward_logits_shape_witness :
  exists lg m',
    Transformer.forward ExM.model (token_slice ExM.toks 0 2) 0 = (Ok lg, m') /\
    d3_0 lg = 1 /\ d3_1 lg = 2 /\ d3_2 lg = 3.
Proof.
  assert (Hok : is_ok (fst (Transformer.forward ExM.model
                              (token_slice ExM.toks 0 2) 0)) = true)
    by reflexivity.
  destruct (Transformer.forward ExM.model (token_slice ExM.toks 0 2) 0)
    as [[lg|e] m'] eqn:E; [|discriminate Hok].
  exists lg, m'. split; [reflexivity|].
  exact (forward_logits_shape ExM.model (token_slice ExM.toks 0 2) 0 lg m' E).
Defined.

(** ** What a call of the model may change *)

Lemma touched_only_refl (B s T : nat) (a : SelfAttention.t) :
  touched_only B s T a a.
Proof.
  unfold touched_only. split; [apply same_weights_refl|]. auto 10.
Qed.

Lemma attention_touched (a : SelfAttention.t) (x : Tensor3 R) (s : nat)
    (f m : pyval) (r : res (Tensor3 R)) (a' : SelfAttention.t) :
  SelfAttention.forward a x s f m = (r, a') ->
  touched_only (d3_0 x) s (d3_1 x) a a'.
Proof.
  intros H. destruct (attention_forward_cases _ _ _ _ _ _ _ H)
    as [[-> _]|(q & k & v & kc & _ & _ & Ek & Hv)];
    [apply touched_only_refl|].
  apply slice_assign_frame in Ek. destruct Ek as (K0 & K1 & K2 & K3 & Kf).
  destruct Hv as [(e & _ & _ & ->)|(vc & Ev & -> & _)].
  - unfold touched_only. cbn. split; [unfold same_weights; cbn; auto 10|].
    repeat split; auto.
  - apply slice_assign_frame in Ev. destruct Ev as (V0 & V1 & V2 & V3 & Vf).
    unfold touched_only. cbn. split; [unfold same_weights; cbn; auto 10|].
    repeat split; auto.
Qed.

Lemma block_touched_refl (B s T : nat) (l : TransformerBlock.t) :
  block_touched_only B s T l l.
Proof.
  unfold block_touched_only. auto using touched_only_refl.
Qed.

Lemma block_touched (l : TransformerBlock.t) (x : Tensor3 R) (s : nat)
    (f m : pyval) (r : res (Tensor3 R)) (l' : TransformerBlock.t) :
  TransformerBlock.forward l x s f m = (r, l') ->
  block_touched_only (d3_0 x) s (d3_1 x) l l'.
Proof.
  unfold TransformerBlock.forward.
  destruct (RMSNorm.forward (TransformerBlock.attn_norm l) x) as [n|e] eqn:En.
  - destruct (SelfAttention.forward _ n s m f) as [ra a'] eqn:Ea.
    intros [= _ <-]. apply attention_touched in Ea.
    apply rms_dims in En. destruct En as [E0 E1]. rewrite E0, E1 in Ea.
    unfold block_touched_only. cbn. auto.
  - intros [= _ <-]. apply block_touched_refl.
Qed.

Lemma forall2_refl {A : Type} (P : A -> A -> Prop) (l : list A) :
  (forall a, P a a) -> Forall2 P l l.
Proof.
  intros H. induction l; constructor; auto.
Qed.

Lemma run_layers_touched (ls : list TransformerBlock.t) :
  forall (x : Tensor3 R) (s : nat) (m f : pyval) (r : res (Tensor3 R))
         (ls' : list TransformerBlock.t),
    Transformer.run_layers ls x s m f = (r, ls') ->
    Forall2 (block_touched_only (d3_0 x) s (d3_1 x)) ls ls'.
Proof.
  induction ls as [|l rest IH]; intros x s m f r ls'; cbn [Transformer.run_layers].
  - intros [= _ <-]. constructor.
  - destruct (TransformerBlock.forward l x s m f) as [[x'|e] l'] eqn:El.
    + destruct (Transformer.run_layers rest x' s m f) as [r' rest'] eqn:Er.
      intros [= _ <-].
      pose proof (block_forward_dims _ _ _ _ _ _ _ El) as [D0 D1].
      apply block_touched in El. apply IH in Er. rewrite D0, D1 in Er.
      constructor; assumption.
    + intros [= _ <-]. apply block_touched in El.
      constructor; [exact El|].
      apply forall2_refl. intros b. apply block_touched_refl.
Qed.

(** X9: A call of the model's [forward] on a (B, T) token tensor, whether it
    returns or raises, changes nothing but cache entries: embeddings,
    norms, projections and the rotary table stay as they are, and in every
    layer the two caches keep their shape and all entries outside batch
    rows below B and positions [start_pos, start_pos + T). *)
Theorem forward_touches_only_the_window :
  forall (self : Transformer.t) (x : Tensor2 nat) (start_pos : nat)
         (r : res (Tensor3 R)) (self' : Transformer.t),
    Transformer.forward self x start_pos = (r, self') ->
    Transformer.args self' = Transformer.args self /\
    Transformer.tok_embeddings self' = Transformer.tok_embeddings self /\
    Transformer.norm self' = Transformer.norm self /\
    Transformer.out self' = Transformer.out self /\
    Transformer.freqs self' = Transformer.freqs self /\
    Forall2 (block_touched_only (rows x) start_pos (cols x))
      (Transformer.layers self) (Transformer.layers self').
Proof.
  intros self x s r self'. unfold Transformer.forward.
  destruct (Transformer.embed self x) as [x_embd|e] eqn:Ee.
  - destruct (Transformer.run_layers _ _ _ _ _) as [r' ls] eqn:El.
    intros [= _ <-]. cbn. repeat split.
    apply run_layers_touched in El.
    unfold Transformer.embed in Ee. destruct (forallb _ _); [|discriminate].
    injection Ee as <-. exact El.
  - intros [= _ <-]. repeat split.
    apply forall2_refl. intros b. apply block_touched_refl.
Qed.

Lemma forward_touches_only_the_window_witness :
  Forall2 (block_touched_only 1 0 2)
    (Transformer.layers ExM.model)
    (Transformer.layers
       (snd (Transformer.forward ExM.model (token_slice ExM.toks 0 2) 0))).
Proof.
  exact (proj2 (proj2 (proj2 (proj2 (proj2
    (forward_touches_only_the_window ExM.model (token_slice ExM.toks 0 2) 0 _ _
       (surjective_pairing _))))))).
Defined.

(** ** Calls that raise *)

(** X10: A token id outside the vocabulary makes [forward] raise [IndexError]
    at the embedding, before any layer runs: the model is left as it
    was. *)
Theorem forward_token_out_of_range :
  forall (self : Transformer.t) (x : Tensor2 nat) (start_pos b p : nat),
    b < rows x -> p < cols x ->
    Transformer.vocab_size self <= at2 x b p ->
    Transformer.forward self x start_pos = (Raise IndexError, self).
Proof.
  intros self x s b p Hb Hp Hv. unfold Transformer.forward, Transformer.embed.
  destruct (forallb _ _) eqn:E; [|reflexivity].
  exfalso. rewrite forallb_forall in E.
  specialize (E b ltac:(apply in_seq; lia)).
  rewrite forallb_forall in E.
  specialize (E p ltac:(apply in_seq; lia)).
  apply Nat.ltb_lt in E. lia.
Qed.

Lemma forward_token_out_of_range_witness :
  Transformer.forward ExM.model (mkT2 1 2 (fun b p => 3 * p)) 0
  = (Raise IndexError, ExM.model).
Proof.
  apply (forward_token_out_of_range ExM.model (mkT2 1 2 (fun b p => 3 * p)) 0 0 1);
    simpl; lia.
Defined.

(** X11: A batch of more than one row that exceeds the allocated batch size
    makes the attention's [forward] raise (the slice assignment into the
    key cache does not fit), with the object left as it was. *)
Theorem attention_batch_too_large :
  forall (a : SelfAttention.t) (x : Tensor3 R) (start_pos : nat)
         (freqs mask : pyval),
    d4_0 (SelfAttention.k_cache a) < d3_0 x ->
    1 < d3_0 x ->
    exists e, SelfAttention.forward a x start_pos freqs mask = (Raise e, a).
Proof.
  intros a x s f m Hbs HB. unfold SelfAttention.forward.
  destruct (negb _); [eexists; reflexivity|].
  destruct (negb _); [eexists; reflexivity|].
  destruct (SelfAttention.project a x f) as [[[q k] v]|e] eqn:Ep;
    [|eexists; reflexivity].
  apply project_dims in Ep. destruct Ep as (_ & (K0 & _) & _).
  unfold slice_assign.
  replace (expandable (d4_0 k) _) with false; [eexists; reflexivity|].
  symmetry. unfold expandable. rewrite K0.
  destruct (Nat.eqb_spec (d3_0 x) (Nat.min (d3_0 x) (d4_0 (SelfAttention.k_cache a))));
    [lia|].
  destruct (Nat.eqb_spec (d3_0 x) 1); [lia|]. reflexivity.
Qed.

Lemma attention_batch_too_large_witness :
  exists e,
    SelfAttention.forward Ex.attn (mkT3 2 1 2 (fun b p d => 1%R)) 0
      Ex4.freqs PyNone = (Raise e, Ex.attn).
Proof.
  apply (attention_batch_too_large Ex.attn (mkT3 2 1 2 (fun b p d => 1%R)) 0
           Ex4.freqs PyNone); simpl; lia.
Defined.

Lemma attention_asserts_width :
  forall (a : SelfAttention.t) (x : Tensor3 R) (start_pos : nat)
         (freqs mask : pyval),
    SelfAttention.dim a <> SelfAttention.n_q_heads a * SelfAttention.h_size a ->
    SelfAttention.forward a x start_pos freqs mask = (Raise AssertionError, a).
Proof.
  intros a x s f m Hne. unfold SelfAttention.forward.
  destruct (Nat.eqb_spec (d3_2 x) (SelfAttention.dim a)) as [HD|]; [|reflexivity].
  destruct (Nat.eqb_spec (d3_2 x)
              (SelfAttention.n_q_heads a * SelfAttention.h_size a)); [|reflexivity].
  congruence.
Qed.

(** ** Causality *)

Lemma ref_attention_prefix (a : SelfAttention.t) (tbl : Tensor2 C)
    (X X' : nat -> nat -> R) (p d : nat) :
  (forall q, q <= p -> X q = X' q) ->
  Ref.attention a tbl X p d = Ref.attention a tbl X' p d.
Proof.
  intros H.
  assert (Hv : forall j kvh i, j <= p ->
             Ref.value a X j kvh i = Ref.value a X' j kvh i).
  { intros j kvh i Hj. unfold Ref.value. rewrite (H j Hj). reflexivity. }
  assert (Hq : forall hd i,
             Ref.query a tbl X p hd i = Ref.query a tbl X' p hd i).
  { intros hd i. unfold Ref.query. rewrite (H p (le_n p)). reflexivity. }
  assert (Hs : forall hd j, j <= p ->
             Ref.score a tbl X hd p j = Ref.score a tbl X' hd p j).
  { intros hd j Hj. unfold Ref.score. f_equal. apply rsum_ext. intros l _.
    rewrite Hq, (Hv j _ _ Hj). reflexivity. }
  unfold Ref.attention. apply rsum_ext. intros c _. f_equal.
  unfold Ref.ctx.
  assert (Hden : rsum (S p) (fun k => exp (Ref.score a tbl X (c / SelfAttention.h_size a) p k))
               = rsum (S p) (fun k => exp (Ref.score a tbl X' (c / SelfAttention.h_size a) p k))).
  { apply rsum_ext. intros k Hk. rewrite Hs by lia. reflexivity. }
  rewrite Hden. apply rsum_ext. intros j Hj.
  rewrite Hs by lia. rewrite Hv by lia. reflexivity.
Qed.

Lemma ref_block_prefix (b : TransformerBlock.t) (tbl : Tensor2 C)
    (X X' : nat -> nat -> R) (p : nat) :
  (forall q, q <= p -> X q = X' q) ->
  forall q, q <= p -> Ref.block b tbl X q = Ref.block b tbl X' q.
Proof.
  intros H q Hq. apply functional_extensionality. intros d. unfold Ref.block.
  set (D := RMSNorm.dim (TransformerBlock.attn_norm b)).
  assert (Ha : forall d',
             Ref.attention (TransformerBlock.attention b) tbl
               (fun p' => Ref.rms (TransformerBlock.attn_norm b) D (X p')) q d'
           = Ref.attention (TransformerBlock.attention b) tbl
               (fun p' => Ref.rms (TransformerBlock.attn_norm b) D (X' p')) q d').
  { intros d'. apply ref_attention_prefix. intros j Hj.
    rewrite (H j) by lia. reflexivity. }
  assert (Hx : (fun d' => (X q d' + Ref.attention (TransformerBlock.attention b) tbl
                  (fun p' => Ref.rms (TransformerBlock.attn_norm b) D (X p')) q d')%R)
             = (fun d' => (X' q d' + Ref.attention (TransformerBlock.attention b) tbl
                  (fun p' => Ref.rms (TransformerBlock.attn_norm b) D (X' p')) q d')%R)).
  { apply functional_extensionality. intros d'. rewrite Ha, (H q Hq). reflexivity. }
  rewrite Hx, Ha, (H q Hq). reflexivity.
Qed.

Lemma ref_layers_prefix (ls : list TransformerBlock.t) (tbl : Tensor2 C) (p : nat) :
  forall X X' : nat -> nat -> R,
    (forall q, q <= p -> X q = X' q) ->
    forall q, q <= p -> Ref.layers ls tbl X q = Ref.layers ls tbl X' q.
Proof.
  induction ls as [|l rest IH]; intros X X' H q Hq; cbn [Ref.layers].
  - exact (H q Hq).
  - apply IH; [|exact Hq]. apply ref_block_prefix. exact H.
Qed.

Lemma ref_logits_prefix (m : Transformer.t) (toks toks' : nat -> nat) (p v : nat) :
  (forall q, q <= p -> toks q = toks' q) ->
  Ref.logits m toks p v = Ref.logits m toks' p v.
Proof.
  intros H. unfold Ref.logits.
  rewrite (ref_layers_prefix (Transformer.layers m) (Transformer.freqs m) p
             (fun p' d => Transformer.tok_embeddings m (toks p') d)
             (fun p' d => Transformer.tok_embeddings m (toks' p') d)); [reflexivity| |lia].
  intros q Hq. rewrite (H q Hq). reflexivity.
Qed.

Lemma token_slice_all (x : Tensor2 nat) : token_slice x 0 (cols x) = x.
Proof. destruct x. reflexivity. Qed.

Lemma forward_from_start (bs L : nat) (m : Transformer.t) (x : Tensor2 nat) :
  WF.model bs L m ->
  1 <= rows x <= bs ->
  1 <= cols x <= L ->
  (forall b p, b < rows x -> p < cols x -> at2 x b p < Transformer.vocab_size m) ->
  exists lg m1,
    Transformer.forward m x 0 = (Ok lg, m1) /\
    forall b p v, b < rows x -> p < cols x -> v < Transformer.vocab_size m ->
      at3 lg b p v = Ref.logits m (at2 x b) p v.
Proof.
  intros Hwf HB HT Hin.
  destruct (forward_window bs L m x Hwf HB (Transformer.layers m) 0 (cols x))
    as (lg & ls' & E & (_ & _ & _ & Hat) & _); [lia|lia|exact Hin| |].
  - apply session_start. apply Hwf.
  - rewrite set_layers_same, token_slice_all in E.
    exists lg, (Transformer.set_layers m ls'). split; [exact E|].
    intros b p v Hb Hp Hv. exact (Hat b p v Hb Hp Hv).
Qed.

(** X12: On a model whose caches are large enough, started at position 0, the
    logits at row [b] and position [p] are a function of the tokens of
    that row up to [p] alone: two prompts, in any rows of any two batches,
    that agree up to [p] get the same logits there, whatever follows and
    whatever the other rows hold. *)
Theorem forward_causal :
  forall (bs L : nat) (m : Transformer.t) (x x' : Tensor2 nat),
    WF.model bs L m ->
    1 <= rows x <= bs -> 1 <= cols x <= L ->
    1 <= rows x' <= bs -> 1 <= cols x' <= L ->
    (forall b p, b < rows x -> p < cols x -> at2 x b p < Transformer.vocab_size m) ->
    (forall b p, b < rows x' -> p < cols x' -> at2 x' b p < Transformer.vocab_size m) ->
    exists lg m1 lg' m1',
      Transformer.forward m x 0 = (Ok lg, m1) /\
      Transformer.forward m x' 0 = (Ok lg', m1') /\
      forall b b' p,
        b < rows x -> b' < rows x' -> p < cols x -> p < cols x' ->
        (forall q, q <= p -> at2 x b q = at2 x' b' q) ->
        forall v, v < Transformer.vocab_size m -> at3 lg b p v = at3 lg' b' p v.
Proof.
  intros bs L m x x' Hwf HB HT HB' HT' Hin Hin'.
  destruct (forward_from_start bs L m x Hwf HB HT Hin) as (lg & m1 & E & Hat).
  destruct (forward_from_start bs L m x' Hwf HB' HT' Hin') as (lg' & m1' & E' & Hat').
  exists lg, m1, lg', m1'. split; [exact E|]. split; [exact E'|].
  intros b b' p Hb Hb' Hp Hp' Hagree v Hv.
  rewrite Hat, Hat' by assumption. apply ref_logits_prefix. exact Hagree.
Qed.

Lemma forward_causal_witness :
  exists lg m1 lg' m1',
    Transformer.forward ExM.model (mkT2 1 2 (fun b p => p)) 0 = (Ok lg, m1) /\
    Transformer.forward ExM.model
      (mkT2 1 3 (fun b p => if p <? 2 then p else 0)) 0 = (Ok lg', m1') /\
    forall v, v < 3 -> at3 lg 0 1 v = at3 lg' 0 1 v.
Proof.
  destruct (forward_causal 1 3 ExM.model (mkT2 1 2 (fun b p => p))
              (mkT2 1 3 (fun b p => if p <? 2 then p else 0)) exm_wf)
    as (lg & m1 & lg' & m1' & E & E' & H).
  - simpl. lia.
  - simpl. lia.
  - simpl. lia.
  - simpl. lia.
  - intros b p Hb Hp. simpl in *. lia.
  - intros b p Hb Hp. simpl in *. destruct (Nat.ltb_spec p 2); lia.
  - exists lg, m1, lg', m1'. split; [exact E|]. split; [exact E'|].
    intros v Hv. apply (H 0 0 1); simpl; try lia.
    intros q Hq. destruct (Nat.ltb_spec q 2); [reflexivity|lia].
Defined.

(** ** What a call writes into the caches *)

Lemma project_keys (bs L D c : nat) (a : SelfAttention.t) (tbl : Tensor2 C)
    (B T s : nat) (x : Tensor3 R) (X : nat -> nat -> nat -> R) :
  WF.attention bs L D c a ->
  window x B T D s X ->
  1 <= B -> 1 <= T -> s + T <= rows tbl -> cols tbl = c ->
  forall q k v,
    SelfAttention.project a x (PyComplex (slice_rows tbl s (s + T))) = Ok (q, k, v) ->
    forall b p kvh i,
      b < B -> p < T ->
      kvh < SelfAttention.n_kv_heads a -> i < SelfAttention.h_size a ->
      at4 k b p kvh i
      = Ref.rot tbl (s + p)
          (fun i' => Ref.lin (SelfAttention.wk a) (X b (s + p))
                       (kvh * SelfAttention.h_size a + i')) i.
Proof.
  intros Hwf Hx HB HT Htbl Hcols q k v.
  destruct Hwf as (Hd & HD & Hh & Hq & Hkv & Hrep & Wq & Wk & Wv & Wo & Ck & Cv).
  destruct (slice_rows_in tbl s T Htbl) as (Fr & Fc & Fat).
  unfold SelfAttention.project, bind.
  destruct (linear_window _ _ _ _ _ _ _ _ Wq Hx) as (q0 & -> & Q0).
  destruct (linear_window _ _ _ _ _ _ _ _ Wk Hx) as (k0 & -> & K0).
  destruct (linear_window _ _ _ _ _ _ _ _ Wv Hx) as (v0 & -> & V0).
  destruct Q0 as (Q00 & Q01 & Q02 & Qat).
  destruct K0 as (K00 & K01 & K02 & Kat).
  destruct V0 as (V00 & V01 & V02 & Vat).
  rewrite (view4_ok q0 _ _ Q02), (view4_ok k0 _ _ K02), (view4_ok v0 _ _ V02).
  assert (Hnq : 0 < SelfAttention.n_q_heads a) by nia.
  rewrite (rope_ok (view_heads q0 _ _) (slice_rows tbl s (s + T)) c);
    cbn [view_heads d4_0 d4_1 d4_2 d4_3]; try congruence.
  2:{ rewrite Q00, Q01. nia. }
  rewrite (rope_ok (view_heads k0 _ _) (slice_rows tbl s (s + T)) c);
    cbn [view_heads d4_0 d4_1 d4_2 d4_3]; try congruence.
  2:{ rewrite K00, K01. nia. }
  intros [= _ <- _] b p kvh i Hb Hp Hkvh Hi.
  unfold rotated, Ref.rot. cbn [at4].
  destruct (pair_index i c ltac:(lia)) as (P0 & P1 & P2).
  rewrite Fr, Fc, Hcols, !bidx_in by lia. rewrite Fat.
  unfold view_heads. cbn [at4].
  rewrite !Kat by (try assumption; nia).
  reflexivity.
Qed.

(** X13: A call of the attention's [forward] that fits the caches stores, at
    batch rows below B and positions [start_pos, start_pos + T), the value
    projections of the new tokens in the value cache and their rotated key
    projections in the key cache; it does so before the scores are
    computed, hence also when the call later raises (for instance on a
    mask of the wrong shape). *)
Theorem attention_writes_caches :
  forall (bs L D c : nat) (a : SelfAttention.t) (tbl : Tensor2 C)
         (x : Tensor3 R) (start_pos : nat) (mask : pyval)
         (r : res (Tensor3 R)) (a' : SelfAttention.t),
    WF.attention bs L D c a ->
    d3_2 x = D ->
    1 <= d3_0 x <= bs -> 1 <= d3_1 x ->
    start_pos + d3_1 x <= L ->
    start_pos + d3_1 x <= rows tbl -> cols tbl = c ->
    SelfAttention.forward a x start_pos
      (PyComplex (slice_rows tbl start_pos (start_pos + d3_1 x))) mask = (r, a') ->
    forall b p kvh i,
      b < d3_0 x -> p < d3_1 x ->
      kvh < SelfAttention.n_kv_heads a -> i < SelfAttention.h_size a ->
      at4 (SelfAttention.v_cache a') b (start_pos + p) kvh i
      = Ref.lin (SelfAttention.wv a) (at3 x b p)
          (kvh * SelfAttention.h_size a + i) /\
      at4 (SelfAttention.k_cache a') b (start_pos + p) kvh i
      = Ref.rot tbl (start_pos + p)
          (fun i' => Ref.lin (SelfAttention.wk a) (at3 x b p)
                       (kvh * SelfAttention.h_size a + i')) i.
Proof.
  intros bs L D c a tbl x s mask r a' Hwf HD HB HT HL Htbl Hcols Hf
         b p kvh i Hb Hp Hkvh Hi.
  set (X := fun b q d => at3 x b (q - s) d).
  assert (Hx : window x (d3_0 x) (d3_1 x) D s X).
  { unfold window, X. repeat split; try assumption.
    intros b' p' d' _ _ _. replace (s + p' - s) with p' by lia. reflexivity. }
  destruct (project_window bs L D c a tbl _ _ s x X Hwf Hx ltac:(lia) HT Htbl Hcols)
    as (q & k & v & Ep & Cq & Ck & Cv & _ & Vat).
  pose proof (project_keys bs L D c a tbl _ _ s x X Hwf Hx ltac:(lia) HT Htbl Hcols
                q k v Ep) as Kat.
  pose proof Hwf as
    (Hd & HD' & Hh & Hnq & Hkv & Hrep & Wq & Wk & Wv & Wo & Kc & Vc).
  unfold SelfAttention.forward in Hf.
  rewrite HD, Hd, Nat.eqb_refl in Hf. cbn [negb] in Hf.
  replace (D =? SelfAttention.n_q_heads a * SelfAttention.h_size a) with true in Hf
    by (symmetry; apply Nat.eqb_eq; exact HD').
  cbn [negb] in Hf. rewrite Ep in Hf.
  destruct (slice_assign_ok _ (d3_0 x) s (d3_1 x) k bs L _ _ Kc Ck ltac:(lia) HL)
    as (kc & Ek & Kc' & Kin & _).
  rewrite Ek in Hf.
  cbn [SelfAttention.set_k_cache SelfAttention.v_cache] in Hf.
  destruct (slice_assign_ok _ (d3_0 x) s (d3_1 x) v bs L _ _ Vc Cv ltac:(lia) HL)
    as (vc & Ev & Vc' & Vin & _).
  rewrite Ev in Hf. injection Hf as _ <-.
  cbn [SelfAttention.set_v_cache SelfAttention.set_k_cache
       SelfAttention.v_cache SelfAttention.k_cache].
  rewrite Vin, Kin by (try assumption; lia).
  replace (s + p - s) with p by lia.
  rewrite Vat, Kat by assumption.
  unfold Ref.value, X. replace (s + p - s) with p by lia.
  split; reflexivity.
Qed.

Lemma attention_writes_caches_witness :
  at4 (SelfAttention.v_cache
         (snd (SelfAttention.forward Ex.attn Ex.x 0
                 (PyComplex (slice_rows Ex8.tbl 0 (0 + d3_1 Ex.x))) PyNone)))
      0 (0 + 1) 0 0
  = Ref.lin (SelfAttention.wv Ex.attn) (at3 Ex.x 0 1)
      (0 * SelfAttention.h_size Ex.attn + 0) /\
  at4 (SelfAttention.k_cache
         (snd (SelfAttention.forward Ex.attn Ex.x 0
                 (PyComplex (slice_rows Ex8.tbl 0 (0 + d3_1 Ex.x))) PyNone)))
      0 (0 + 1) 0 0
  = Ref.rot Ex8.tbl (0 + 1)
      (fun i' => Ref.lin (SelfAttention.wk Ex.attn) (at3 Ex.x 0 1)
                   (0 * SelfAttention.h_size Ex.attn + i')) 0.
Proof.
  eapply (attention_writes_caches 1 2 2 1 Ex.attn Ex8.tbl Ex.x 0 PyNone).
  - unfold WF.attention, WF.linear, WF.cache. simpl. repeat split; lia.
  - reflexivity.
  - simpl. lia.
  - simpl. lia.
  - simpl. lia.
  - simpl. lia.
  - reflexivity.
  - apply surjective_pairing.
  - simpl. lia.
  - simpl. lia.
  - simpl. lia.
  - simpl. lia.
Defined.

(** ** A width the heads do not divide *)

Lemma block_init_fields (a : Args.t) (p : TransformerBlock.params)
    (b : TransformerBlock.t) :
  TransformerBlock.init a p = Ok b ->
  RMSNorm.dim (TransformerBlock.attn_norm b) = Args.dim a /\
  SelfAttention.dim (TransformerBlock.attention b) = Args.dim a /\
  SelfAttention.n_q_heads (TransformerBlock.attention b) = Args.n_heads a /\
  SelfAttention.h_size (TransformerBlock.attention b) = Args.dim a / Args.n_heads a.
Proof.
  unfold TransformerBlock.init, SelfAttention.init, FFN.init, bind.
  destruct (_ =? 0); [discriminate|].
  destruct (negb _); [discriminate|].
  destruct (Args.n_heads a =? 0); [discriminate|].
  destruct (FFN.hidden_dim _ _ _); [|discriminate].
  intros [= <-]. cbn. auto.
Qed.

(** X14: The constructor does not check that [n_heads] divides [dim]: when it
    does not, a model with at least one layer is built without complaint,
    and then every call of [forward] on valid tokens raises
    [AssertionError] in the first layer's attention and leaves the model
    as it was. *)
Theorem forward_heads_must_divide :
  forall (a : Args.t) (emb : nat -> nat -> R)
         (p : nat -> TransformerBlock.params) (norm_w : nat -> R)
         (out_w : nat -> nat -> R) (m : Transformer.t)
         (x : Tensor2 nat) (start_pos : nat),
    Transformer.init a emb p norm_w out_w = Ok m ->
    1 <= Args.n_layers a ->
    Args.dim a mod Args.n_heads a <> 0 ->
    (forall b q, b < rows x -> q < cols x -> at2 x b q < Args.vocab_size a) ->
    Transformer.forward m x start_pos = (Raise AssertionError, m).
Proof.
  intros a emb p norm_w out_w m x s E HL Hmod Hin.
  unfold Transformer.init, bind in E.
  destruct (Transformer.init_layers a p 0 (Args.n_layers a)) as [ls|] eqn:El;
    [|discriminate].
  destruct (Args.n_heads a =? 0); [discriminate|].
  destruct (precomputed_freqs _ _ _) as [fr|]; [|discriminate].
  injection E as <-.
  destruct (Args.n_layers a) as [|n]; [lia|].
  cbn [Transformer.init_layers] in El. unfold bind in El.
  destruct (TransformerBlock.init a (p 0)) as [b|] eqn:Eb; [|discriminate].
  destruct (Transformer.init_layers a p 1 n) as [rest|]; [|discriminate].
  injection El as <-.
  destruct (block_init_fields a (p 0) b Eb) as (Hn & Hd & Hq & Hh).
  unfold Transformer.forward, Transformer.embed.
  cbn [Transformer.vocab_size Transformer.args Transformer.layers
       Transformer.tok_embeddings Transformer.freqs].
  replace (forallb _ _) with true.
  2:{ symmetry. apply forallb_forall. intros r Hr. apply in_seq in Hr.
      apply forallb_forall. intros q Hq'. apply in_seq in Hq'.
      apply Nat.ltb_lt. apply Hin; lia. }
  cbn [Transformer.run_layers]. unfold TransformerBlock.forward.
  unfold RMSNorm.forward at 1. cbn [d3_0 d3_1 d3_2].
  rewrite Hn, bdim_same.
  rewrite attention_asserts_width.
  - destruct b. reflexivity.
  - rewrite Hd, Hq, Hh. intros Heq. apply Hmod.
    rewrite Heq at 1. rewrite Nat.mul_comm. apply Nat.Div0.mod_mul.
Qed.

Lemma forward_heads_must_divide_witness :
  exists m,
    Transformer.init ExH.args ExM.emb ExM.params ExM.ones1 Ex.ident = Ok m /\
    Transformer.forward m (token_slice ExM.toks 0 2) 0 = (Raise AssertionError, m).
Proof.
  assert (Hok : is_ok (Transformer.init ExH.args ExM.emb ExM.params
                         ExM.ones1 Ex.ident) = true) by reflexivity.
  destruct (Transformer.init ExH.args ExM.emb ExM.params ExM.ones1 Ex.ident)
    as [m|e] eqn:E; [|discriminate Hok].
  exists m. split; [reflexivity|].
  apply (forward_heads_must_divide ExH.args ExM.emb ExM.params ExM.ones1
           Ex.ident m (token_slice ExM.toks 0 2) 0 E).
  - simpl. lia.
  - simpl. lia.
  - intros b q Hb Hq. simpl in *. lia.
Defined.

(** ** Stale cache contents *)

Lemma wf_block_recached (bs L D c : nat) (l l' : TransformerBlock.t) :
  WF.block bs L D c l -> block_recached l l' -> WF.block bs L D c l'.
Proof.
  intros (Ha & Hn1 & Hn2 & Hf) ((Sw & Kd & Vd) & E1 & E2 & E3).
  destruct Sw as (S1 & S2 & S3 & S4 & S5 & S6 & S7 & S8 & S9).
  destruct Kd as (K0 & K1 & K2 & K3). destruct Vd as (V0 & V1 & V2 & V3).
  unfold WF.block. rewrite E1, E2, E3. split; [|auto].
  unfold WF.attention, WF.cache in *.
  rewrite S1, S2, S3, S4, S5, S6, S7, S8, S9, K0, K1, K2, K3, V0, V1, V2, V3.
  exact Ha.
Qed.

Lemma session_recached (bs L D : nat) (tbl : Tensor2 C) (B : nat)
    (ls0 ls : list TransformerBlock.t) :
  Forall (WF.block bs L D (cols tbl)) ls0 ->
  Forall2 block_recached ls0 ls ->
  forall X, session bs L D tbl ls0 ls B 0 X.
Proof.
  intros Hwf H. induction H as [|l0 l r0 r Hl Hr IH]; intros X; cbn [session].
  - exact I.
  - inversion Hwf as [|? ? W0 Wr]; subst.
    split; [|split; [|split]].
    + destruct Hl as ((Sw & _) & E1 & E2 & E3). unfold same_weights_block. auto.
    + exact (wf_block_recached _ _ _ _ _ _ W0 Hl).
    + intros b j kvh i Hb Hj. lia.
    + apply IH. exact Wr.
Qed.

(** X15: A call at [start_pos = 0] does not read what the caches held before:
    on a model whose caches are large enough, replacing the caches of any
    layers by caches of the same shape with other contents (what
    [torch.empty] left there, or an earlier conversation) gives the same
    logits. *)
Theorem forward_ignores_stale_cache :
  forall (bs L : nat) (m : Transformer.t) (ls : list TransformerBlock.t)
         (x : Tensor2 nat),
    WF.model bs L m ->
    Forall2 block_recached (Transformer.layers m) ls ->
    1 <= rows x <= bs -> 1 <= cols x <= L ->
    (forall b p, b < rows x -> p < cols x -> at2 x b p < Transformer.vocab_size m) ->
    exists lg m1 lg' m1',
      Transformer.forward m x 0 = (Ok lg, m1) /\
      Transformer.forward (Transformer.set_layers m ls) x 0 = (Ok lg', m1') /\
      forall b p v,
        b < rows x -> p < cols x -> v < Transformer.vocab_size m ->
        at3 lg' b p v = at3 lg b p v.
Proof.
  intros bs L m ls x Hwf Hls HB HT Hin.
  destruct (forward_from_start bs L m x Hwf HB HT Hin) as (lg & m1 & E & Hat).
  destruct (forward_window bs L m x Hwf HB ls 0 (cols x))
    as (lg' & ls' & E' & (_ & _ & _ & Hat') & _); [lia|lia|exact Hin| |].
  - apply session_recached; [apply Hwf|exact Hls].
  - rewrite token_slice_all in E'.
    exists lg, m1, lg', (Transformer.set_layers m ls').
    split; [exact E|]. split; [exact E'|].
    intros b p v Hb Hp Hv. rewrite Hat by assumption.
    exact (Hat' b p v Hb Hp Hv).
Qed.

Lemma forward_ignores_stale_cache_witness :
  exists lg m1 lg' m1',
    Transformer.forward ExM.model (mkT2 1 2 (fun b p => p)) 0 = (Ok lg, m1) /\
    Transformer.forward (Transformer.set_layers ExM.model ExD.layers)
      (mkT2 1 2 (fun b p => p)) 0 = (Ok lg', m1') /\
    forall v, v < 3 -> at3 lg' 0 1 v = at3 lg 0 1 v.
Proof.
  destruct (forward_ignores_stale_cache 1 3 ExM.model ExD.layers
              (mkT2 1 2 (fun b p => p)) exm_wf)
    as (lg & m1 & lg' & m1' & E & E' & H).
  - repeat constructor.
  - simpl. lia.
  - simpl. lia.
  - intros b p Hb Hp. simpl in *. lia.
  - exists lg, m1, lg', m1'. split; [exact E|]. split; [exact E'|].
    intros v Hv. apply H; simpl; lia.
Defined.

(** ** Which configurations the constructor accepts *)

Lemma block_init_ok (a : Args.t) (p : TransformerBlock.params) :
  is_ok (TransformerBlock.init a p) = true <->
  kv_heads a <> 0 /\ Args.n_heads a mod kv_heads a = 0 /\
  Args.n_heads a <> 0 /\ Args.multiple_of a <> 0.
Proof.
  unfold TransformerBlock.init, SelfAttention.init, FFN.init, FFN.hidden_dim,
    bind, kv_heads.
  set (n_kv := match Args.n_kv_heads a with
               | Some n => n
               | None => Args.n_heads a
               end).
  destruct (Nat.eqb_spec n_kv 0) as [H0|H0]; [cbn; intuition discriminate|].
  destruct (Nat.eqb_spec (Args.n_heads a mod n_kv) 0) as [H1|H1];
    [|cbn; intuition discriminate].
  cbn [negb].
  destruct (Nat.eqb_spec (Args.n_heads a) 0) as [H2|H2];
    [cbn; intuition discriminate|].
  destruct (Nat.eqb_spec (Args.multiple_of a) 0) as [H3|H3];
    cbn; intuition discriminate.
Qed.

Lemma init_layers_ok (a : Args.t) (p : nat -> TransformerBlock.params) (n : nat) :
  forall layer,
    is_ok (Transformer.init_layers a p layer n) = true <->
    (1 <= n ->
     kv_heads a <> 0 /\ Args.n_heads a mod kv_heads a = 0 /\
     Args.n_heads a <> 0 /\ Args.multiple_of a <> 0).
Proof.
  induction n as [|n IH]; intros layer; cbn [Transformer.init_layers].
  - cbn. split; [intros _ H; lia|reflexivity].
  - unfold bind. pose proof (block_init_ok a (p layer)) as Hb.
    specialize (IH (S layer)).
    destruct (TransformerBlock.init a (p layer)) as [b|e].
    + destruct (Transformer.init_layers a p (S layer) n) as [rest|e].
      * cbn. split; [intros _ _; apply Hb; reflexivity|reflexivity].
      * cbn in IH |- *. split; [discriminate|]. intros H.
        apply IH. intros _. apply H. lia.
    + cbn in Hb |- *. split; [discriminate|]. intros H. apply Hb. apply H. lia.
Qed.

(** X16: [Transformer(args)] is built without an exception exactly when
    [n_heads] is not 0, the head width [dim // n_heads] is even and, if
    there is at least one layer, the number of key/value heads is not 0
    and divides [n_heads] and [multiple_of] is not 0.  Nothing else is
    checked: neither that [n_heads] divides [dim] nor that the sizes are
    positive. *)
Theorem init_accepts :
  forall (a : Args.t) (emb : nat -> nat -> R)
         (p : nat -> TransformerBlock.params) (norm_w : nat -> R)
         (out_w : nat -> nat -> R),
    is_ok (Transformer.init a emb p norm_w out_w) = true <->
    Args.n_heads a <> 0 /\
    (Args.dim a / Args.n_heads a) mod 2 = 0 /\
    (1 <= Args.n_layers a ->
     kv_heads a <> 0 /\ Args.n_heads a mod kv_heads a = 0 /\
     Args.multiple_of a <> 0).
Proof.
  intros a emb p norm_w out_w. unfold Transformer.init, bind, precomputed_freqs.
  pose proof (init_layers_ok a p (Args.n_layers a) 0) as Hl.
  destruct (Transformer.init_layers a p 0 (Args.n_layers a)) as [ls|e].
  - cbn in Hl. destruct Hl as [Hl _]. specialize (Hl eq_refl).
    destruct (Nat.eqb_spec (Args.n_heads a) 0) as [H0|H0].
    + cbn. split; [discriminate|]. intros (H & _). contradiction.
    + destruct (Nat.eqb_spec ((Args.dim a / Args.n_heads a) mod 2) 0) as [H1|H1].
      * cbn. split; [|reflexivity]. intros _. split; [exact H0|].
        split; [exact H1|]. intros H. specialize (Hl H). tauto.
      * cbn. split; [discriminate|]. intros (_ & H & _). contradiction.
  - cbn in Hl |- *. split; [discriminate|]. intros (H0 & _ & H).
    apply Hl. intros Hn. specialize (H Hn). tauto.
Qed.

Lemma init_accepts_witness :
  is_ok (Transformer.init ExH.args ExM.emb ExM.params ExM.ones1 Ex.ident) = true.
Proof.
  apply (proj2 (init_accepts ExH.args ExM.emb ExM.params ExM.ones1 Ex.ident)).
  split; [simpl; lia|]. split; [reflexivity|].
  intros _. cbn. repeat split; lia.
Defined.

(** ** Prefill in two chunks *)

(** X17: Feeding a prompt in two chunks, the first [s] tokens at position 0 and
    then the next [T] tokens at [start_pos = s] (for [T > 1] with the mask
    whose first [s] columns are zero), gives for the second chunk the
    logits that one call on all [s + T] tokens gives at those positions. *)
Theorem chunked_prefill_matches_full :
  forall (bs L : nat) (m : Transformer.t) (toks : Tensor2 nat) (s T : nat),
    WF.model bs L m ->
    1 <= rows toks <= bs ->
    1 <= s -> 1 <= T -> s + T <= L ->
    (forall b p, b < rows toks -> p < s + T ->
                 at2 toks b p < Transformer.vocab_size m) ->
    exists full m_full pre m1 nxt m2,
      Transformer.forward m (token_slice toks 0 (s + T)) 0 = (Ok full, m_full) /\
      Transformer.forward m (token_slice toks 0 s) 0 = (Ok pre, m1) /\
      Transformer.forward m1 (token_slice toks s T) s = (Ok nxt, m2) /\
      (d3_0 nxt = rows toks /\ d3_1 nxt = T /\
       d3_2 nxt = Transformer.vocab_size m) /\
      forall b p v,
        b < rows toks -> p < T -> v < Transformer.vocab_size m ->
        at3 nxt b p v = at3 full b (s + p) v.
Proof.
  intros bs L m toks s T Hwf HB Hs HT HL Hin.
  pose proof (proj1 Hwf) as Wl.
  pose proof (session_start bs L _ (Transformer.freqs m) (rows toks) _ Wl
                (fun b p d => Transformer.tok_embeddings m (at2 toks b p) d))
    as Hs0.
  destruct (forward_window bs L m toks Hwf HB (Transformer.layers m) 0 (s + T)
              ltac:(lia) ltac:(lia) Hin Hs0) as (full & lsf & Ef & Wf & _).
  destruct (forward_window bs L m toks Hwf HB (Transformer.layers m) 0 s
              Hs ltac:(lia)) as (pre & ls1 & Ep & Wp & Hs1); try assumption.
  { intros b p Hb Hp. apply Hin; [exact Hb|lia]. }
  destruct (forward_window bs L m toks Hwf HB ls1 s T HT HL Hin Hs1)
    as (nxt & ls2 & En & Wn & _).
  rewrite set_layers_same in Ef, Ep.
  exists full, (Transformer.set_layers m lsf), pre,
         (Transformer.set_layers m ls1), nxt, (Transformer.set_layers m ls2).
  destruct Wf as (F0 & F1 & F2 & Fat). destruct Wn as (N0 & N1 & N2 & Nat).
  split; [exact Ef|]. split; [exact Ep|]. split; [exact En|].
  split; [auto|].
  intros b p v Hb Hp Hv. rewrite Nat by assumption.
  rewrite Fat by (try assumption; lia). reflexivity.
Qed.

Lemma chunked_prefill_matches_full_witness :
  exists full m_full pre m1 nxt m2,
    Transformer.forward ExM.model (token_slice ExM.toks 0 (1 + 2)) 0
      = (Ok full, m_full) /\
    Transformer.forward ExM.model (token_slice ExM.toks 0 1) 0 = (Ok pre, m1) /\
    Transformer.forward m1 (token_slice ExM.toks 1 2) 1 = (Ok nxt, m2) /\
    forall p v, p < 2 -> v < 3 -> at3 nxt 0 p v = at3 full 0 (1 + p) v.
Proof.
  destruct (chunked_prefill_matches_full 1 3 ExM.model ExM.toks 1 2 exm_wf)
    as (full & m_full & pre & m1 & nxt & m2 & Ef & Ep & En & _ & H).
  - simpl. lia.
  - lia.
  - lia.
  - lia.
  - intros b p Hb Hp. simpl. exact Hp.
  - exists full, m_full, pre, m1, nxt, m2.
    split; [exact Ef|]. split; [exact Ep|]. split; [exact En|].
    intros p v Hp Hv. apply H; simpl; lia.
Defined.

(** ** The key projection *)

Lemma ref_attention_rekeyed (a a' : SelfAttention.t) (tbl : Tensor2 C)
    (X : nat -> nat -> R) (p d : nat) :
  rekeyed a a' -> Ref.attention a' tbl X p d = Ref.attention a tbl X p d.
Proof.
  intros (E0 & E1 & E2 & E3 & E4 & E5 & E7 & E8).
  unfold Ref.attention, Ref.ctx, Ref.score, Ref.query, Ref.value.
  rewrite E1, E3, E4, E5, E7, E8. reflexivity.
Qed.

Lemma ref_block_rekeyed (b b' : TransformerBlock.t) (tbl : Tensor2 C)
    (X : nat -> nat -> R) :
  block_rekeyed b b' -> Ref.block b' tbl X = Ref.block b tbl X.
Proof.
  intros (Sw & E1 & E2 & E3).
  apply functional_extensionality. intros p.
  apply functional_extensionality. intros d.
  unfold Ref.block. rewrite E1, E2, E3.
  set (xn := fun p' => Ref.rms (TransformerBlock.attn_norm b) _ (X p')).
  assert (E : (fun d' => (X p d' + Ref.attention (TransformerBlock.attention b')
                                     tbl xn p d')%R)
              = (fun d' => (X p d' + Ref.attention (TransformerBlock.attention b)
                                       tbl xn p d')%R)).
  { apply functional_extensionality. intros d'.
    rewrite (ref_attention_rekeyed _ _ _ _ _ _ Sw). reflexivity. }
  rewrite E. rewrite (ref_attention_rekeyed _ _ _ _ _ _ Sw). reflexivity.
Qed.

Lemma ref_layers_rekeyed (ls ls' : list TransformerBlock.t) (tbl : Tensor2 C) :
  Forall2 block_rekeyed ls ls' ->
  forall X, Ref.layers ls' tbl X = Ref.layers ls tbl X.
Proof.
  induction 1 as [|l l' r r' Hl Hr IH]; intros X; cbn [Ref.layers].
  - reflexivity.
  - rewrite (ref_block_rekeyed _ _ _ _ Hl). apply IH.
Qed.

(** X18: The weights of the key projections [wk] have no influence on the
    logits: the keys they produce are written to the key cache, which is
    never read.  Two models that differ only in the [wk] of their layers
    (and in what their caches hold) return the same logits on a call at
    [start_pos = 0]. *)
Theorem logits_ignore_key_projection :
  forall (bs L : nat) (m m' : Transformer.t) (x : Tensor2 nat),
    WF.model bs L m -> WF.model bs L m' ->
    model_rekeyed m m' ->
    1 <= rows x <= bs -> 1 <= cols x <= L ->
    (forall b p, b < rows x -> p < cols x -> at2 x b p < Transformer.vocab_size m) ->
    exists lg m1 lg' m1',
      Transformer.forward m x 0 = (Ok lg, m1) /\
      Transformer.forward m' x 0 = (Ok lg', m1') /\
      forall b p v,
        b < rows x -> p < cols x -> v < Transformer.vocab_size m ->
        at3 lg' b p v = at3 lg b p v.
Proof.
  intros bs L m m' x Hwf Hwf' (Ea & Ev & Ee & En & Eo & Ef & Hls) HB HT Hin.
  destruct (forward_from_start bs L m x Hwf HB HT Hin) as (lg & m1 & E & Hat).
  destruct (forward_from_start bs L m' x Hwf' HB HT) as (lg' & m1' & E' & Hat').
  { rewrite Ev. exact Hin. }
  exists lg, m1, lg', m1'. split; [exact E|]. split; [exact E'|].
  intros b p v Hb Hp Hv. rewrite Hat by assumption.
  rewrite Hat' by (try assumption; rewrite Ev; exact Hv).
  unfold Ref.logits. rewrite Ea, Ee, En, Eo, Ef.
  rewrite (ref_layers_rekeyed _ _ _ Hls). reflexivity.
Qed.

Lemma logits_ignore_key_projection_witness :
  exists lg m1 lg' m1',
    Transformer.forward ExM.model (mkT2 1 2 (fun b p => p)) 0 = (Ok lg, m1) /\
    Transformer.forward ExK.model (mkT2 1 2 (fun b p => p)) 0 = (Ok lg', m1') /\
    forall v, v < 3 -> at3 lg' 0 1 v = at3 lg 0 1 v.
Proof.
  destruct (logits_ignore_key_projection 1 3 ExM.model ExK.model
              (mkT2 1 2 (fun b p => p)) exm_wf)
    as (lg & m1 & lg' & m1' & E & E' & H).
  - unfold WF.model, ExK.model, ExM.model. cbn -[INR].
    repeat split; try lia. repeat constructor.
  - unfold model_rekeyed. repeat split. repeat constructor.
  - simpl. lia.
  - simpl. lia.
  - intros b p Hb Hp. simpl in *. lia.
  - exists lg, m1, lg', m1'. split; [exact E|]. split; [exact E'|].
    intros v Hv. apply H; simpl; lia.
Defined.

(** ** The rotary table and the mask inside the layers *)





